(** * FeatureFinderMultiplex: mass patterns, regression and map assembly

    A shallow embedding of [src/topp/FeatureFinderMultiplex.cpp]
    (class [TOPPFeatureFinderMultiplex]), of the accessors of
    [FeaFiModule.h] and of the struct [PuritySate] of
    [IsobaricChannelExtractor.h].

    Conventions of the embedding.
    - [unsigned] is a 32-bit and [size_t] a 64-bit natural number; their
      wrap-around is written out with [u32] and [u64].
    - A [double] that holds a label mass or a mass shift is a canonical
      rational ([Qc]): label masses are finite configuration values and the
      generator only adds, subtracts and multiplies them.  A [double] that
      holds an intensity is a [double] below: a rational, an infinity or
      NaN.  In both cases the arithmetic is exact: rounding, overflow,
      underflow and the sign of zero are left out, and what is proved of
      these values is proved of the formulas of the code in exact
      arithmetic.
    - The regression and [getPeptideIntensities] are given a second time
      over an arithmetic that is a parameter, with the exact arithmetic and
      IEEE 754 binary64 as its instances: where rounding or underflow
      decides a property, it is stated over binary64.
    - A C++ exception is [Throw]; an access outside a [std::vector], an
      integer division by zero and the overflow of an [int], which the
      language leaves undefined, are [Undefined]; a loop whose test never
      fails is [Diverges]. *)

From Stdlib Require Import List String Ascii Bool ZArith NArith Lia.
From Stdlib Require Import QArith Qcanon Lqa.
From Stdlib Require Import SpecFloat.
Import ListNotations.

Local Open Scope string_scope.
Local Open Scope list_scope.
Local Open Scope nat_scope.

(** ** Results of fallible code *)

Inductive exn : Type :=
| IllegalArgument (msg : string)
| InvalidParameter (msg : string)
| External (msg : string).

Inductive result (A : Type) : Type :=
| Ok (a : A)
| Throw (e : exn)
| Undefined
| Diverges.

Arguments Ok {A} a.
Arguments Throw {A} e.
Arguments Undefined {A}.
Arguments Diverges {A}.

Definition bind {A B : Type} (r : result A) (k : A -> result B) : result B :=
  match r with
  | Ok a => k a
  | Throw e => Throw e
  | Undefined => Undefined
  | Diverges => Diverges
  end.

Notation "x <- r ;; k" := (bind r (fun x => k))
  (at level 61, r at next level, right associativity).

Fixpoint mapM {A B : Type} (f : A -> result B) (l : list A) : result (list B) :=
  match l with
  | [] => Ok []
  | a :: l' => b <- f a ;; bs <- mapM f l' ;; Ok (b :: bs)
  end.

Definition is_ok {A : Type} (r : result A) : bool :=
  match r with Ok _ => true | _ => false end.

(** [v[i]] on a [std::vector]. *)
Definition at_ {A : Type} (v : list A) (i : nat) : result A :=
  match nth_error v i with
  | Some a => Ok a
  | None => Undefined
  end.

(** ** Machine integers *)

Definition u32 (x : N) : N := (x mod 2 ^ 32)%N.
Definition u64 (x : Z) : Z := (x mod 2 ^ 64)%Z.

Definition UINT_MAX : N := 4294967295.
Definition INT_MIN : Z := (-2147483648)%Z.
Definition INT_MAX : Z := 2147483647%Z.

(** The values [0, 1, ..., n]. *)
Definition upto (n : N) : list N := map N.of_nat (seq 0 (S (N.to_nat n))).

(** [for (unsigned k = 0; k <= n; ++k) body(k)], with the results of its
    turns.  Below [UINT_MAX] the turns are those for [0, 1, ..., n].  At
    [UINT_MAX] the test [k <= n] holds for every [unsigned k]: after the turn
    for [UINT_MAX] the counter is 0 again, and the loop goes on for ever
    unless one of its turns throws or is undefined. *)
Definition for_le {A : Type} (n : N) (body : N -> result A) : result (list A) :=
  if (n <? UINT_MAX)%N then mapM body (upto n)
  else _ <- mapM body (upto UINT_MAX) ;; Diverges.

(** ** Strings *)

(** [s.find(pat) != std::string::npos] *)
Fixpoint find (pat s : string) : bool :=
  prefix pat s ||
  match s with
  | EmptyString => false
  | String _ s' => find pat s'
  end.

Definition is_any_of (delims : string) (c : ascii) : bool :=
  existsb (Ascii.eqb c) (list_ascii_of_string delims).

(** [boost::split(tokens, s, pred)]: every separator ends a token, empty
    tokens are kept, and the empty string gives one empty token. *)
Fixpoint split (pred : ascii -> bool) (s : string) : list string :=
  match s with
  | EmptyString => [EmptyString]
  | String c s' =>
      if pred c then EmptyString :: split pred s'
      else match split pred s' with
           | t :: ts => String c t :: ts
           | [] => [String c EmptyString]
           end
  end.

Definition empty (s : string) : bool :=
  match s with EmptyString => true | _ => false end.

(** ** Section "labels" of the parameters *)

Definition dec (num : Z) (den : positive) : Qc := Q2Qc (num # den).

Definition QcofN (n : N) : Qc := Q2Qc (inject_Z (Z.of_N n)).

Definition label_names : list string :=
  ["Arg6"; "Arg10"; "Lys4"; "Lys6"; "Lys8";
   "Dimethyl0"; "Dimethyl4"; "Dimethyl6"; "Dimethyl8";
   "ICPL0"; "ICPL4"; "ICPL6"; "ICPL10"].

(** The default label masses of [getSubsectionDefaults_("labels")]. *)
Definition getSubsectionDefaults_labels : list (string * Qc) :=
  [ ("Arg6", dec 60201290268 10000000000);
    ("Arg10", dec 10008268600 1000000000);
    ("Lys4", dec 40251069836 10000000000);
    ("Lys6", dec 60201290268 10000000000);
    ("Lys8", dec 80141988132 10000000000);
    ("Dimethyl0", dec 28031300 1000000);
    ("Dimethyl4", dec 32056407 1000000);
    ("Dimethyl6", dec 34063117 1000000);
    ("Dimethyl8", dec 36075670 1000000);
    ("ICPL0", dec 105021464 1000000);
    ("ICPL4", dec 109046571 1000000);
    ("ICPL6", dec 111041593 1000000);
    ("ICPL10", dec 115066700 1000000) ].

(** [std::map<String,double>]; [m[k]] of a key that is absent is [0.0]. *)
Definition massmap : Type := list (string * Qc).

Fixpoint lookup (m : massmap) (k : string) : Qc :=
  match m with
  | [] => 0%Qc
  | (k', v) :: m' => if String.eqb k' k then v else lookup m' k
  end.

(** [getParameters_labels_]: the thirteen entries, read from the parameters. *)
Definition getParameters_labels_ (param : massmap) : massmap :=
  map (fun k => (k, lookup param k)) label_names.

(** ** Parameters of the tool that the modelled functions read *)

Record Params : Type := {
  out_ : string;
  out_features_ : string;
  labels_ : string;
  charge_min_ : N;
  charge_max_ : N;
  missed_cleavages_ : N;
  isotopes_per_peptide_min_ : N;
  isotopes_per_peptide_max_ : N;
  knock_out_ : bool;
  label_massshift : massmap
}.

Definition MassPattern : Type := list Qc.

Definition Qc_eqb (x y : Qc) : bool := Qc_eq_bool x y.

Fixpoint MassPattern_eqb (p q : MassPattern) : bool :=
  match p, q with
  | [], [] => true
  | x :: p', y :: q' => Qc_eqb x y && MassPattern_eqb p' q'
  | _, _ => false
  end.

(** ** generateMassPatterns_ *)

Module Labelling.

(** The four indicators computed from the label string. *)
Definition labelling_SILAC (labels : string) : bool :=
  find "Arg" labels || find "Lys" labels.
Definition labelling_Dimethyl (labels : string) : bool := find "Dimethyl" labels.
Definition labelling_ICPL (labels : string) : bool := find "ICPL" labels.
Definition labelling_none (labels : string) : bool :=
  empty labels || String.eqb labels "[]" || String.eqb labels "()"
  || String.eqb labels "{}".

Inductive mode : Type := SILAC | Dimethyl | ICPL | none.

(** The mode that is active, if exactly one is. *)
Definition classify (labels : string) : option mode :=
  let s := labelling_SILAC labels in
  let d := labelling_Dimethyl labels in
  let i := labelling_ICPL labels in
  let n := labelling_none labels in
  if s && negb d && negb i && negb n then Some SILAC
  else if negb s && d && negb i && negb n then Some Dimethyl
  else if negb s && negb d && i && negb n then Some ICPL
  else if negb s && negb d && negb i && n then Some none
  else None.

End Labelling.

Definition unknown_labelling : exn :=
  IllegalArgument "Unknown labelling. Neither SILAC, Dimethyl nor ICPL.".

Definition unknown_label (l : string) : exn :=
  InvalidParameter ("The label " ++ l ++ " is unknown.")%string.

(** The samples and their labels, split out of the label string. *)
Definition split_labels (labels : string) : list (list string) :=
  map (split (is_any_of ",;: "))
      (filter (fun t => negb (empty t)) (split (is_any_of "[](){}") labels)).

Definition all_labels : string :=
  "Arg6 Arg10 Lys4 Lys6 Lys8 Dimethyl0 Dimethyl4 Dimethyl6 Dimethyl8 ICPL0 ICPL4 ICPL6 ICPL10".

(** The first label, in sample order, that is not a substring of
    [all_labels]. *)
Definition first_unknown (samples_labels : list (list string)) : option string :=
  List.find (fun l => negb (find l all_labels)) (List.concat samples_labels).

Definition b2Qc (b : bool) : Qc := if b then 1%Qc else 0%Qc.

Section MassPatterns.

Variable p : Params.

Let m (k : string) : Qc := lookup (label_massshift p) k.

(** The state of the loop over the labels of one sample. *)
Record sample_state : Type := {
  mass_shift : Qc;
  goAhead_Lys : bool;
  goAhead_Arg : bool
}.

Definition silac_label (ArgPerPeptide LysPerPeptide : N) (st : sample_state)
    (label : string) : sample_state :=
  let Arg6There := find "Arg6" label in
  let Arg10There := find "Arg10" label in
  let Lys4There := find "Lys4" label in
  let Lys6There := find "Lys6" label in
  let Lys8There := find "Lys8" label in
  {| mass_shift :=
       (mass_shift st
        + QcofN ArgPerPeptide
          * (b2Qc Arg6There * m "Arg6" + b2Qc Arg10There * m "Arg10")
        + QcofN LysPerPeptide
          * (b2Qc Lys4There * m "Lys4" + b2Qc Lys6There * m "Lys6"
             + b2Qc Lys8There * m "Lys8"))%Qc;
     goAhead_Lys :=
       goAhead_Lys st
       || negb (negb (LysPerPeptide =? 0)%N
                && negb (Lys4There || Lys6There || Lys8There));
     goAhead_Arg :=
       goAhead_Arg st
       || negb (negb (ArgPerPeptide =? 0)%N
                && negb (Arg6There || Arg10There)) |}.

(** The shift one sample adds to the pattern, if it adds one. *)
Definition silac_sample (ArgPerPeptide LysPerPeptide : N)
    (labels : list string) : option Qc :=
  let st := fold_left (silac_label ArgPerPeptide LysPerPeptide) labels
              {| mass_shift := 0%Qc; goAhead_Lys := false; goAhead_Arg := false |} in
  if goAhead_Arg st && goAhead_Lys st && negb (Qc_eqb (mass_shift st) 0%Qc)
  then Some (mass_shift st) else None.

Fixpoint somes {A : Type} (l : list (option A)) : list A :=
  match l with
  | [] => []
  | Some a :: l' => a :: somes l'
  | None :: l' => somes l'
  end.

Definition silac_pattern (samples_labels : list (list string))
    (ArgPerPeptide LysPerPeptide : N) : MassPattern :=
  0%Qc :: somes (map (silac_sample ArgPerPeptide LysPerPeptide) samples_labels).

(** What one turn of the inner loop appends to the list. *)
Definition silac_turn (samples_labels : list (list string))
    (ArgPerPeptide LysPerPeptide : N) : list MassPattern :=
  let bound := u32 (missed_cleavages_ p + 1) in
  if (u32 (ArgPerPeptide + LysPerPeptide) <=? bound)%N then
    let temp := silac_pattern samples_labels ArgPerPeptide LysPerPeptide in
    if (1 <? List.length temp)%nat then [temp] else []
  else [].

(** The two loops, both up to [missed_cleavages_ + 1] computed in
    [unsigned]. *)
Definition silac_list (samples_labels : list (list string))
    : result (list MassPattern) :=
  let bound := u32 (missed_cleavages_ p + 1) in
  rows <- for_le bound (fun ArgPerPeptide =>
            turns <- for_le bound (fun LysPerPeptide =>
                       Ok (silac_turn samples_labels ArgPerPeptide LysPerPeptide)) ;;
            Ok (List.concat turns)) ;;
  Ok (List.concat rows).

Definition dimethyl_pattern (samples_labels : list (list string)) (mc : N)
    : result MassPattern :=
  mapM (fun sample =>
          l <- at_ sample 0 ;;
          s0 <- at_ samples_labels 0 ;;
          l0 <- at_ s0 0 ;;
          Ok (QcofN (u32 (mc + 1)) * (m l - m l0))%Qc)
       samples_labels.

Definition dimethyl_list (samples_labels : list (list string))
    : result (list MassPattern) :=
  for_le (missed_cleavages_ p) (dimethyl_pattern samples_labels).

(** The patterns the knock-out of one quadruplet adds. *)
Definition knock_out_4 (q : MassPattern) : result (list MassPattern) :=
  l0 <- at_ q 0 ;; l1 <- at_ q 1 ;; l2 <- at_ q 2 ;; l3 <- at_ q 3 ;;
  Ok [ [0; l2 - l1; l3 - l1]; [0; l2 - l0; l3 - l0]; [0; l1 - l0; l2 - l0];
       [0; l1]; [0; l2]; [0; l3]; [0; l2 - l1]; [0; l3 - l1]; [0; l3 - l2] ]%Qc.

(** The patterns the knock-out of one triplet adds. *)
Definition knock_out_3 (t : MassPattern) : result (list MassPattern) :=
  l1 <- at_ t 1 ;; l2 <- at_ t 2 ;;
  Ok [ [0; l1]; [0; l2 - l1]; [0; l2] ]%Qc.

Definition singlet : MassPattern := [0%Qc].

(** The list of the source is [masses] here. *)
Definition knock_out (masses : list MassPattern) : result (list MassPattern) :=
  first <- at_ masses 0 ;;
  let n := List.length first in
  if knock_out_ p && (n =? 4)%nat then
    ks <- mapM knock_out_4 masses ;; Ok (masses ++ List.concat ks ++ [singlet])
  else if knock_out_ p && (n =? 3)%nat then
    ks <- mapM knock_out_3 masses ;; Ok (masses ++ List.concat ks ++ [singlet])
  else if knock_out_ p && (n =? 2)%nat then
    Ok (masses ++ [singlet])
  else Ok masses.

(** The patterns before the knock-out expansion. *)
Definition enumerate (mode : Labelling.mode) (samples_labels : list (list string))
    : result (list MassPattern) :=
  match mode with
  | Labelling.SILAC => silac_list samples_labels
  | Labelling.Dimethyl | Labelling.ICPL => dimethyl_list samples_labels
  | Labelling.none => Ok [singlet]
  end.

Definition generateMassPatterns_ : result (list MassPattern) :=
  match Labelling.classify (labels_ p) with
  | None => Throw unknown_labelling
  | Some mode =>
      let samples_labels := split_labels (labels_ p) in
      match first_unknown samples_labels with
      | Some l => Throw (unknown_label l)
      | None => masses <- enumerate mode samples_labels ;; knock_out masses
      end
  end.

End MassPatterns.

(** The parameters with the defaults of [getSubsectionDefaults_] for the
    charges, the isotopes and the label masses. *)
Definition default_params (labels : string) (mc : N) (ko : bool) : Params :=
  {| out_ := "out.consensusXML"; out_features_ := "out.featureXML";
     labels_ := labels; charge_min_ := 1; charge_max_ := 4;
     missed_cleavages_ := mc;
     isotopes_per_peptide_min_ := 3; isotopes_per_peptide_max_ := 6;
     knock_out_ := ko;
     label_massshift := getParameters_labels_ getSubsectionDefaults_labels |}.

(** ** generatePeakPatterns_ *)

(** The fields of a [MultiplexPeakPattern] that the tool sets and reads. *)
Record MultiplexPeakPattern : Type := {
  getCharge : Z;
  getPeaksPerPeptide : Z;
  getMassShifts : MassPattern;
  getMassShiftIndex : nat
}.

Definition getMassShiftCount (pattern : MultiplexPeakPattern) : nat :=
  List.length (getMassShifts pattern).

(** The charges [charge_max, charge_max - 1, ..., charge_min]. *)
Definition charges_down (charge_min charge_max : Z) : list Z :=
  map (fun k => (charge_max - Z.of_nat k)%Z)
      (seq 0 (Z.to_nat (charge_max - charge_min + 1))).

(** The indices of [for (unsigned i = 0; i < size; ++i)] with [size] a
    [size_t]: an [unsigned i] stays below a size above [UINT_MAX]. *)
Definition for_lt (size : nat) : result (list nat) :=
  if (N.of_nat size <=? UINT_MAX)%N then Ok (seq 0 size) else Diverges.

(** The charges are of type [int].  The loop
    [for (int c = charge_max; c >= charge_min; --c)] ends when [c] has gone
    below [charge_min]; with [charge_min] at [INT_MIN] the decrement after
    the turn for [INT_MIN] overflows. *)
Definition generatePeakPatterns_ (charge_min charge_max peaksPerPeptideMax : Z)
    (massPatternList : list MassPattern) : result (list MultiplexPeakPattern) :=
  if (charge_max <? charge_min)%Z then Ok []
  else
    indices <- for_lt (List.length massPatternList) ;;
    if (charge_min =? INT_MIN)%Z then Undefined
    else
      Ok (flat_map (fun c =>
                      map (fun im => {| getCharge := c;
                                        getPeaksPerPeptide := peaksPerPeptideMax;
                                        getMassShifts := snd im;
                                        getMassShiftIndex := fst im |})
                          (combine indices massPatternList))
                   (charges_down charge_min charge_max)).

(** ** Intensities *)

Inductive double : Type :=
| Fin (q : Qc)
| PInf
| NInf
| NaN.

Definition isnan (x : double) : bool :=
  match x with NaN => true | _ => false end.

Definition dadd (x y : double) : double :=
  match x, y with
  | NaN, _ | _, NaN => NaN
  | Fin a, Fin b => Fin (a + b)%Qc
  | PInf, NInf | NInf, PInf => NaN
  | PInf, _ | _, PInf => PInf
  | NInf, _ | _, NInf => NInf
  end.

Definition dneg (x : double) : double :=
  match x with
  | Fin a => Fin (- a)%Qc
  | PInf => NInf
  | NInf => PInf
  | NaN => NaN
  end.

(** An infinity times or over a finite value that is not 0: the infinity
    when the value is positive, the opposite one when it is negative. *)
Definition signed (inf : double) (b : Qc) : double :=
  match (b ?= 0)%Qc with
  | Gt => inf
  | Lt => dneg inf
  | Eq => NaN
  end.

Definition dmul (x y : double) : double :=
  match x, y with
  | NaN, _ | _, NaN => NaN
  | Fin a, Fin b => Fin (a * b)%Qc
  | Fin a, PInf => signed PInf a
  | Fin a, NInf => signed NInf a
  | PInf, Fin b => signed PInf b
  | NInf, Fin b => signed NInf b
  | PInf, PInf | NInf, NInf => PInf
  | PInf, NInf | NInf, PInf => NInf
  end.

(** The zero of the embedding is the positive zero. *)
Definition ddiv (x y : double) : double :=
  match x, y with
  | NaN, _ | _, NaN => NaN
  | Fin a, Fin b =>
      if Qc_eqb b 0%Qc then signed PInf a else Fin (a / b)%Qc
  | Fin _, _ => Fin 0%Qc
  | PInf, Fin b => if Qc_eqb b 0%Qc then PInf else signed PInf b
  | NInf, Fin b => if Qc_eqb b 0%Qc then NInf else signed NInf b
  | _, _ => NaN
  end.

Definition dzero : double := Fin 0%Qc.
Definition done : double := Fin 1%Qc.

(** ** LinearRegressionWithoutIntercept *)

Module LinearRegressionWithoutIntercept.

Record t : Type := {
  sum_xx_ : double;
  sum_xy_ : double;
  n_ : Z
}.

(** The constructor. *)
Definition init : t := {| sum_xx_ := dzero; sum_xy_ := dzero; n_ := 0 |}.

(** [addData(double x, double y)] *)
Definition addData (r : t) (x y : double) : t :=
  {| sum_xx_ := dadd (sum_xx_ r) (dmul x x);
     sum_xy_ := dadd (sum_xy_ r) (dmul x y);
     n_ := (n_ r + 1)%Z |}.

(** [addData(std::vector<double>& x, std::vector<double>& y)]: the loop
    runs over the indices of [x] and reads [y] at each of them. *)
Fixpoint addData_vectors (r : t) (x y : list double) : result t :=
  match x with
  | [] => Ok r
  | xi :: x' =>
      match y with
      | yi :: y' => addData_vectors (addData r xi yi) x' y'
      | [] => Undefined
      end
  end.

Definition getSlope (r : t) : double :=
  if (n_ r <? 2)%Z then NaN else ddiv (sum_xy_ r) (sum_xx_ r).

End LinearRegressionWithoutIntercept.

Module LinReg := LinearRegressionWithoutIntercept.

(** ** getPeptideIntensities *)

(** The pairs [(profile_intensities[0][j], profile_intensities[i][j])] in
    which neither value is NaN.  Both vectors have [count] entries when the
    loop runs. *)
Definition non_nan_pairs (light peptide : list double) : list (double * double) :=
  filter (fun xy => negb (isnan (fst xy)) && negb (isnan (snd xy)))
         (combine light peptide).

(** One turn of the loop over the peptides: the slope of the regression and
    the sum of the intensities of the peptide. *)
Definition regress (light peptide : list double) : result (double * double) :=
  let pairs := non_nan_pairs light peptide in
  let intensities1 := map fst pairs in
  let intensities2 := map snd pairs in
  let intensity := fold_left dadd intensities2 dzero in
  linreg <- LinReg.addData_vectors LinReg.init intensities1 intensities2 ;;
  Ok (LinReg.getSlope linreg, intensity).

Definition sizes_differ : exn :=
  IllegalArgument
    "The profile intensity vectors for each peptide are not of the same size.".

Definition getPeptideIntensities (profile_intensities : list (list double))
    : result (list double) :=
  light <- at_ profile_intensities 0 ;;
  let count := List.length light in
  if negb (forallb (fun v => (List.length v =? count)%nat) profile_intensities)
  then Throw sizes_differ
  else
    rs <- mapM (regress light) profile_intensities ;;
    let ratios := map fst rs in
    let intensities := map snd rs in
    let size := List.length profile_intensities in
    if (size =? 2)%nat then
      i0 <- at_ intensities 0 ;;
      r1 <- at_ ratios 1 ;;
      i1 <- at_ intensities 1 ;;
      let intensity1 := ddiv (dadd i0 (dmul r1 i1)) (dadd done (dmul r1 r1)) in
      let intensity2 := dmul r1 intensity1 in
      Ok [intensity1; intensity2]
    else if (2 <? size)%nat then
      i0 <- at_ intensities 0 ;;
      labelled <- mapM (fun i => r <- at_ ratios i ;; i0' <- at_ intensities 0 ;;
                                 Ok (dmul r i0'))
                       (seq 1 (size - 1)) ;;
      Ok (i0 :: labelled)
    else
      i0 <- at_ intensities 0 ;;
      Ok [i0].

(** The two results of [regress], taken apart: the sums and the slope that
    the loop computes for one peptide. *)
Definition raw_sum (light peptide : list double) : double :=
  fold_left dadd (map snd (non_nan_pairs light peptide)) dzero.

Definition fit (light peptide : list double) : LinReg.t :=
  fold_left (fun r xy => LinReg.addData r (fst xy) (snd xy))
            (non_nan_pairs light peptide) LinReg.init.

Definition fitted_ratio (light peptide : list double) : double :=
  LinReg.getSlope (fit light peptide).

(** The sum of a list of values, for the statements. *)
Definition dsum (l : list double) : double := fold_right dadd dzero l.

(** ** The regression over the arithmetic of the machine

    The operations of [double] that the regression and
    [getPeptideIntensities] use. *)
Record arithmetic : Type := {
  number : Type;
  plus : number -> number -> number;
  times : number -> number -> number;
  over : number -> number -> number;
  is_nan : number -> bool;
  zero : number;
  one : number;
  quiet_NaN : number
}.

(** The exact arithmetic of the intensities above. *)
Definition exact : arithmetic :=
  {| number := double; plus := dadd; times := dmul; over := ddiv;
     is_nan := isnan; zero := dzero; one := done; quiet_NaN := NaN |}.





(** [LinearRegressionWithoutIntercept] and [getPeptideIntensities] once
    more, over an arithmetic [ar]. *)
Module Over.

Section Code.

Variable ar : arithmetic.

Record t : Type := {
  sum_xx_ : number ar;
  sum_xy_ : number ar;
  n_ : Z
}.

Definition init : t := {| sum_xx_ := zero ar; sum_xy_ := zero ar; n_ := 0 |}.

Definition addData (r : t) (x y : number ar) : t :=
  {| sum_xx_ := plus ar (sum_xx_ r) (times ar x x);
     sum_xy_ := plus ar (sum_xy_ r) (times ar x y);
     n_ := (n_ r + 1)%Z |}.

Fixpoint addData_vectors (r : t) (x y : list (number ar)) : result t :=
  match x with
  | [] => Ok r
  | xi :: x' =>
      match y with
      | yi :: y' => addData_vectors (addData r xi yi) x' y'
      | [] => Undefined
      end
  end.

Definition getSlope (r : t) : number ar :=
  if (n_ r <? 2)%Z then quiet_NaN ar else over ar (sum_xy_ r) (sum_xx_ r).

Definition non_nan_pairs (light peptide : list (number ar))
    : list (number ar * number ar) :=
  filter (fun xy => negb (is_nan ar (fst xy)) && negb (is_nan ar (snd xy)))
         (combine light peptide).

Definition regress (light peptide : list (number ar))
    : result (number ar * number ar) :=
  let pairs := non_nan_pairs light peptide in
  let intensities1 := map fst pairs in
  let intensities2 := map snd pairs in
  let intensity := fold_left (plus ar) intensities2 (zero ar) in
  linreg <- addData_vectors init intensities1 intensities2 ;;
  Ok (getSlope linreg, intensity).

Definition getPeptideIntensities (profile_intensities : list (list (number ar)))
    : result (list (number ar)) :=
  light <- at_ profile_intensities 0 ;;
  let count := List.length light in
  if negb (forallb (fun v => (List.length v =? count)%nat) profile_intensities)
  then Throw sizes_differ
  else
    rs <- mapM (regress light) profile_intensities ;;
    let ratios := map fst rs in
    let intensities := map snd rs in
    let size := List.length profile_intensities in
    if (size =? 2)%nat then
      i0 <- at_ intensities 0 ;;
      r1 <- at_ ratios 1 ;;
      i1 <- at_ intensities 1 ;;
      let intensity1 :=
        over ar (plus ar i0 (times ar r1 i1)) (plus ar (one ar) (times ar r1 r1)) in
      let intensity2 := times ar r1 intensity1 in
      Ok [intensity1; intensity2]
    else if (2 <? size)%nat then
      i0 <- at_ intensities 0 ;;
      labelled <- mapM (fun i => r <- at_ ratios i ;; i0' <- at_ intensities 0 ;;
                                 Ok (times ar r i0'))
                       (seq 1 (size - 1)) ;;
      Ok (i0 :: labelled)
    else
      i0 <- at_ intensities 0 ;;
      Ok [i0].



Definition total (values : list (number ar)) : number ar :=
  fold_left (plus ar) values (zero ar).



Definition fit (light peptide : list (number ar)) : t :=
  fold_left (fun r xy => addData r (fst xy) (snd xy))
            (non_nan_pairs light peptide) init.

Definition fitted_ratio (light peptide : list (number ar)) : number ar :=
  getSlope (fit light peptide).

Definition raw_sum (light peptide : list (number ar)) : number ar :=
  total (map snd (non_nan_pairs light peptide)).

End Code.

End Over.



(** ** generateMaps_ *)

Record MultiplexFilterResultRaw : Type := {
  raw_getMZ : double;
  raw_getMZShifts : list double;
  raw_getIntensities : list double
}.

(** [size()] of a result peak is the number of its raw results and
    [getFilterResultRaw(i)] is the [i]-th of them. *)
Record MultiplexFilterResultPeak : Type := {
  getMZ : double;
  getRT : double;
  getMZShifts : list double;
  getIntensities : list double;
  getFilterResultRaws : list MultiplexFilterResultRaw
}.

(** [getFilterResultPeak(i)] is the [i]-th peak. *)
Definition MultiplexFilterResult : Type := list MultiplexFilterResultPeak.

Record GridBasedCluster : Type := {
  getPoints : list nat
}.

(** [std::map<int,GridBasedCluster>], in the order of its keys. *)
Definition cluster_map : Type := list (Z * GridBasedCluster).

Record FeatureHandle : Type := {
  handle_MZ : double;
  handle_RT : double;
  handle_Intensity : double;
  handle_Charge : Z;
  handle_MapIndex : nat
}.

Record ConsensusFeature : Type := {
  consensus_MZ : double;
  consensus_RT : double;
  consensus_Intensity : double;
  consensus_Charge : Z;
  consensus_Quality : double;
  consensus_Features : list FeatureHandle
}.

Record Feature : Type := {
  feature_MZ : double;
  feature_RT : double;
  feature_Intensity : double;
  feature_Charge : Z;
  feature_OverallQuality : double
}.

(** [ConsensusMap::FileDescription], without its unique id.  A description
    that [operator[]] creates has empty strings and the size 0. *)
Record FileDescription : Type := {
  filename : string;
  label : string;
  size : N
}.

Definition new_description : FileDescription :=
  {| filename := ""; label := ""; size := 0 |}.

(** The consensus features, the file descriptions by map index, and the
    experiment type when [setExperimentType] has set it. *)
Record ConsensusMap : Type := {
  consensus_features : list ConsensusFeature;
  getFileDescriptions : list (nat * FileDescription);
  getExperimentType : option string
}.

Definition FeatureMap : Type := list Feature.

(** [descriptions[key]] followed by a change of the description: the
    description is created first when the key is new. *)
Fixpoint update_description (change : FileDescription -> FileDescription)
    (descriptions : list (nat * FileDescription)) (key : nat)
    : list (nat * FileDescription) :=
  match descriptions with
  | [] => [(key, change new_description)]
  | (k, d) :: descriptions' =>
      if (k =? key)%nat then (k, change d) :: descriptions'
      else (k, d) :: update_description change descriptions' key
  end.

(** [getFileDescriptions()[peptide].size++] *)
Definition size_incr (descriptions : list (nat * FileDescription)) (peptide : nat)
    : list (nat * FileDescription) :=
  update_description
    (fun d => {| filename := filename d; label := label d; size := (size d + 1)%N |})
    descriptions peptide.

Fixpoint foldM {A B : Type} (f : A -> B -> result A) (l : list B) (a : A) : result A :=
  match l with
  | [] => Ok a
  | b :: l' => a' <- f a b ;; foldM f l' a'
  end.

(** The index [(isotopes_per_peptide_max_ + 1) * peptide + k]. *)
Definition slot (isotopes_per_peptide_max : N) (peptide : nat) (k : N) : nat :=
  N.to_nat (u32 ((isotopes_per_peptide_max + 1) * N.of_nat peptide + k)).

Definition DoubleofZ (z : Z) : double := Fin (Q2Qc (inject_Z z)).

(** [1 - 1/points.size()]: the operands are of type [size_t], so the
    division is the division of integers. *)
Definition quality_score (size : Z) : result double :=
  if (size =? 0)%Z then Undefined
  else Ok (DoubleofZ (u64 (1 - 1 / size))).

(** The sums and the profile intensities of one cluster, by peptide. *)
Record cluster_sums : Type := {
  sum_intensity_mz : list double;
  sum_intensity_rt : list double;
  sum_intensity : list double;
  profile_intensities : list (list double)
}.

Section Maps.

Variable p : Params.

Let iso_max : N := isotopes_per_peptide_max_ p.

Definition init_sums (n : nat) : cluster_sums :=
  {| sum_intensity_mz := repeat dzero n;
     sum_intensity_rt := repeat dzero n;
     sum_intensity := repeat dzero n;
     profile_intensities := repeat [] n |}.

(** The body of the loop over the points of a cluster. *)
Definition add_point (n : nat) (filter_result : MultiplexFilterResult)
    (a : cluster_sums) (index : nat) : result cluster_sums :=
  result_peak <- at_ filter_result index ;;
  let peptides := seq 0 n in
  smz <- mapM (fun peptide =>
                 s <- at_ (sum_intensity_mz a) peptide ;;
                 shift <- at_ (getMZShifts result_peak) (slot iso_max peptide 1) ;;
                 i <- at_ (getIntensities result_peak) (slot iso_max peptide 1) ;;
                 Ok (dadd s (dmul (dadd (getMZ result_peak) shift) i)))
              peptides ;;
  srt <- mapM (fun peptide =>
                 s <- at_ (sum_intensity_rt a) peptide ;;
                 i <- at_ (getIntensities result_peak) (slot iso_max peptide 1) ;;
                 Ok (dadd s (dmul (getRT result_peak) i)))
              peptides ;;
  si <- mapM (fun peptide =>
                s <- at_ (sum_intensity a) peptide ;;
                i <- at_ (getIntensities result_peak) (slot iso_max peptide 1) ;;
                Ok (dadd s i))
             peptides ;;
  prof <- mapM (fun peptide =>
                  old <- at_ (profile_intensities a) peptide ;;
                  new <- mapM (fun raw_peak =>
                                 at_ (raw_getIntensities (fst raw_peak))
                                     (slot iso_max peptide (snd raw_peak + 1)))
                              (list_prod (getFilterResultRaws result_peak)
                                         (map N.of_nat (seq 0 (N.to_nat iso_max)))) ;;
                  Ok (old ++ new))
               peptides ;;
  Ok {| sum_intensity_mz := smz; sum_intensity_rt := srt;
        sum_intensity := si; profile_intensities := prof |}.

(** The body of the loop over the clusters: the consensus feature of one
    cluster and the features of its peptides. *)
Definition cluster_features (pattern : MultiplexPeakPattern)
    (filter_result : MultiplexFilterResult) (cluster : GridBasedCluster)
    : result (ConsensusFeature * list Feature) :=
  let n := getMassShiftCount pattern in
  let points := getPoints cluster in
  a <- foldM (add_point n filter_result) points (init_sums n) ;;
  peptide_intensities <- getPeptideIntensities (profile_intensities a) ;;
  let average_peptide_intensity :=
    ddiv (fold_left dadd peptide_intensities dzero)
         (DoubleofZ (Z.of_nat (List.length peptide_intensities))) in
  smz0 <- at_ (sum_intensity_mz a) 0 ;;
  srt0 <- at_ (sum_intensity_rt a) 0 ;;
  si0 <- at_ (sum_intensity a) 0 ;;
  quality <- quality_score (Z.of_nat (List.length points)) ;;
  members <- mapM (fun peptide =>
                     smz <- at_ (sum_intensity_mz a) peptide ;;
                     srt <- at_ (sum_intensity_rt a) peptide ;;
                     si <- at_ (sum_intensity a) peptide ;;
                     intensity <- at_ peptide_intensities peptide ;;
                     overall <- quality_score (Z.of_nat (List.length points)) ;;
                     Ok ({| handle_MZ := ddiv smz si; handle_RT := ddiv srt si;
                            handle_Intensity := intensity;
                            handle_Charge := getCharge pattern;
                            handle_MapIndex := peptide |},
                         {| feature_MZ := ddiv smz si; feature_RT := ddiv srt si;
                            feature_Intensity := intensity;
                            feature_Charge := getCharge pattern;
                            feature_OverallQuality := overall |}))
                  (seq 0 n) ;;
  Ok ({| consensus_MZ := ddiv smz0 si0; consensus_RT := ddiv srt0 si0;
         consensus_Intensity := average_peptide_intensity;
         consensus_Charge := getCharge pattern;
         consensus_Quality := quality;
         consensus_Features := map fst members |},
      map snd members).

(** The two maps, filled cluster by cluster. *)
Definition add_cluster (pattern : MultiplexPeakPattern)
    (filter_result : MultiplexFilterResult)
    (maps : ConsensusMap * FeatureMap) (cluster : Z * GridBasedCluster)
    : result (ConsensusMap * FeatureMap) :=
  cf <- cluster_features pattern filter_result (snd cluster) ;;
  Ok ({| consensus_features := consensus_features (fst maps) ++ [fst cf];
         getFileDescriptions :=
           fold_left size_incr (seq 0 (getMassShiftCount pattern))
                     (getFileDescriptions (fst maps));
         getExperimentType := getExperimentType (fst maps) |},
      snd maps ++ snd cf).

Definition add_pattern (patterns : list MultiplexPeakPattern)
    (filter_results : list MultiplexFilterResult)
    (cluster_results : list cluster_map)
    (maps : ConsensusMap * FeatureMap) (pattern : nat)
    : result (ConsensusMap * FeatureMap) :=
  clusters <- at_ cluster_results pattern ;;
  foldM (fun maps cluster =>
           pat <- at_ patterns pattern ;;
           filter_result <- at_ filter_results pattern ;;
           add_cluster pat filter_result maps cluster)
        clusters maps.

Definition generateMaps_ (patterns : list MultiplexPeakPattern)
    (filter_results : list MultiplexFilterResult)
    (cluster_results : list cluster_map)
    (consensus_map : ConsensusMap) (feature_map : FeatureMap)
    : result (ConsensusMap * FeatureMap) :=
  foldM (add_pattern patterns filter_results cluster_results)
        (seq 0 (List.length patterns)) (consensus_map, feature_map).

End Maps.

(** ** main_ *)

Record MSSpectrum : Type := {
  getMSLevel : Z;
  spectrum_RT : double;
  spectrum_peaks : list (double * double)
}.

Definition MSExperiment : Type := list MSSpectrum.

(** An experiment as [main_] holds it: the spectra, and the ranges of m/z,
    RT and intensity that [updateRanges()] has computed last.  The class
    [MSExperiment] with its [RangeManager] is not among the sources read
    here; the ranges are values of a type of the library. *)
Record Experiment (R : Type) : Type := {
  getSpectra : MSExperiment;
  getRanges : R
}.

Arguments getSpectra {R} e.
Arguments getRanges {R} e.

(** [PeakPickerHiRes::PeakBoundary]: the lower and the upper m/z. *)
Definition PeakBoundary : Type := (double * double)%type.

Inductive ExitCodes : Type :=
| EXECUTION_OK
| ILLEGAL_PARAMETERS
| INCOMPATIBLE_INPUT_DATA.

(** A file stored by [ConsensusXMLFile::store] or [FeatureXMLFile::store].
    The unique ids are left out. *)
Inductive stored : Type :=
| ConsensusXML (name : string) (map : ConsensusMap)
| FeatureXML (name : string) (map : FeatureMap).

(** The functions of the library that [main_] calls and that are not part
    of the tool: [updateRanges], [sortSpectra],
    [PeakPickerHiRes::pickExperiment], [MultiplexFiltering::filter],
    [MultiplexClustering::cluster] and the two [sortByPosition].  The picker,
    the filter and the clusterer may throw.  The filter and the clusterer
    are taken with the parameters of the run that [main_] passes on to their
    constructors unchanged. *)
Record Library : Type := {
  Ranges : Type;
  updateRanges : Experiment Ranges -> Experiment Ranges;
  sortSpectra : Experiment Ranges -> Experiment Ranges;
  pickExperiment :
    Experiment Ranges -> result (Experiment Ranges * list (list PeakBoundary));
  filter_ :
    Experiment Ranges -> Experiment Ranges -> list (list PeakBoundary) ->
    list MultiplexPeakPattern -> result (list MultiplexFilterResult);
  cluster_ :
    Experiment Ranges -> Experiment Ranges -> list (list PeakBoundary) ->
    list MultiplexFilterResult -> result (list cluster_map);
  sortConsensusByPosition : ConsensusMap -> ConsensusMap;
  sortFeaturesByPosition : FeatureMap -> FeatureMap
}.

(** [erase(remove_if(..., InMSLevelRange([1], true)))]: the spectra whose
    level is not 1 are removed. *)
Definition level_1_spectra (exp : MSExperiment) : MSExperiment :=
  filter (fun s => (getMSLevel s =? 1)%Z) exp.

(** The erase changes the spectra and leaves the ranges as they are. *)
Definition extract_level_1 {R : Type} (exp : Experiment R) : Experiment R :=
  {| getSpectra := level_1_spectra (getSpectra exp); getRanges := getRanges exp |}.

(** [writeConsensusMap_]: the map is sorted, gets the experiment type
    [multiplex], and its file description 0, which [operator[]] creates when
    the map has none, gets the name of the file and the label [multiplex]. *)
Definition writeConsensusMap_ (lib : Library) (name : string)
    (map : ConsensusMap) : stored :=
  let sorted := sortConsensusByPosition lib map in
  ConsensusXML name
    {| consensus_features := consensus_features sorted;
       getFileDescriptions :=
         update_description
           (fun d => {| filename := name; label := "multiplex"; size := size d |})
           (getFileDescriptions sorted) 0;
       getExperimentType := Some "multiplex" |}.

Definition writeFeatureMap_ (lib : Library) (name : string)
    (map : FeatureMap) : stored :=
  FeatureXML name (sortFeaturesByPosition lib map).

(** A [ConsensusMap] as its constructor leaves it. *)
Definition empty_ConsensusMap : ConsensusMap :=
  {| consensus_features := []; getFileDescriptions := [];
     getExperimentType := None |}.

(** An [unsigned] passed for an [int] parameter: the value that is equal
    to it modulo [2^32]. *)
Definition int_of_unsigned (x : N) : Z :=
  let z := Z.of_N (u32 x) in
  if (z <=? INT_MAX)%Z then z else (z - 2 ^ 32)%Z.

(** [main_], from the experiment that [MzMLFile::load] has read to the exit
    code and the files stored, in the order in which they are stored.  The
    ranges are updated before the spectra of the other levels are erased,
    and not again. *)
Definition main_ (lib : Library) (p : Params) (loaded : Experiment (Ranges lib))
    : result (ExitCodes * list stored) :=
  let exp := sortSpectra lib (extract_level_1 (updateRanges lib loaded)) in
  picked <- pickExperiment lib exp ;;
  let exp_picked := fst picked in
  let boundaries_exp_s := snd picked in
  masses <- generateMassPatterns_ p ;;
  patterns <- generatePeakPatterns_ (int_of_unsigned (charge_min_ p))
                (int_of_unsigned (charge_max_ p))
                (int_of_unsigned (isotopes_per_peptide_max_ p)) masses ;;
  filter_results <- filter_ lib exp exp_picked boundaries_exp_s patterns ;;
  cluster_results <- cluster_ lib exp exp_picked boundaries_exp_s filter_results ;;
  maps <- generateMaps_ p patterns filter_results cluster_results
                        empty_ConsensusMap [] ;;
  Ok (EXECUTION_OK,
      [writeConsensusMap_ lib (out_ p) (fst maps);
       writeFeatureMap_ lib (out_features_ p) (snd maps)]).


(** Modelled from the spec: a peak picker, a filter and a clusterer, which
    are not among the sources, as far as [empty_grid_behaviour] describes
    them: in a grid without spectra they find no peak, no hit and no
    cluster.  In other grids this library finds nothing either, which the
    spec does not say; it is used on grids without spectra only.  It keeps
    no ranges. *)
Definition quiet_library : Library :=
  {| Ranges := unit;
     updateRanges := fun exp => exp;
     sortSpectra := fun exp => exp;
     pickExperiment := fun exp => Ok (exp, List.map (fun _ => []) (getSpectra exp));
     filter_ := fun _ _ _ patterns => Ok (List.map (fun _ => []) patterns);
     cluster_ := fun _ _ _ filter_results => Ok (List.map (fun _ => []) filter_results);
     sortConsensusByPosition := fun m => m;
     sortFeaturesByPosition := fun m => m |}.

(** An experiment that has one spectrum, of level 2. *)
Definition no_ms1 : Experiment unit :=
  {| getSpectra :=
       [ {| getMSLevel := 2; spectrum_RT := DoubleofZ 100;
            spectrum_peaks := [(DoubleofZ 500, DoubleofZ 1000)] |} ];
     getRanges := tt |}.

(** ** A cluster of two points *)

(** A doublet at charge 2, with two points and one raw result per point.
    Each vector has the [2 * (6 + 1)] entries of a doublet with at most six
    isotopes. *)
Definition doublet_pattern : MultiplexPeakPattern :=
  {| getCharge := 2; getPeaksPerPeptide := 6;
     getMassShifts := [0%Qc; dec 80141988132 10000000000];
     getMassShiftIndex := 0 |}.

Definition point_at (rt : Z) : MultiplexFilterResultPeak :=
  {| getMZ := DoubleofZ 500; getRT := DoubleofZ rt;
     getMZShifts := repeat dzero 14;
     getIntensities := repeat (DoubleofZ 1000) 14;
     getFilterResultRaws :=
       [ {| raw_getMZ := DoubleofZ 500; raw_getMZShifts := repeat dzero 14;
            raw_getIntensities := repeat (DoubleofZ 900) 14 |} ] |}.

Definition two_points : GridBasedCluster := {| getPoints := [0; 1] |}.

(** Maps that hold one consensus feature and one feature already. *)
Definition earlier_feature : Feature :=
  {| feature_MZ := DoubleofZ 400; feature_RT := DoubleofZ 50;
     feature_Intensity := DoubleofZ 7; feature_Charge := 3;
     feature_OverallQuality := dzero |}.

Definition earlier_consensus : ConsensusFeature :=
  {| consensus_MZ := DoubleofZ 400; consensus_RT := DoubleofZ 50;
     consensus_Intensity := DoubleofZ 7; consensus_Charge := 3;
     consensus_Quality := dzero; consensus_Features := [] |}.

Definition earlier_map : ConsensusMap :=
  {| consensus_features := [earlier_consensus]; getFileDescriptions := [];
     getExperimentType := None |}.

(** ** Properties of mass patterns *)

(** The first entry of the pattern is 0. *)
Definition starts_at_0 (q : MassPattern) : Prop := hd_error q = Some 0%Qc.

(** All the mass shifts of a list of patterns. *)
Definition shifts (l : list MassPattern) : list Qc := List.concat l.

Definition has_shift (x : Qc) (l : list MassPattern) : bool :=
  existsb (Qc_eqb x) (shifts l).

Definition has_pattern (q : MassPattern) (l : list MassPattern) : bool :=
  existsb (MassPattern_eqb q) l.


(** The label strings that the specification calls a sequence of empty
    sets: any number of the pairs [[]], [()] and [{}] in a row. *)
Fixpoint empty_sets (s : string) : bool :=
  match s with
  | EmptyString => true
  | String a (String b s') =>
      (String.eqb (String a (String b EmptyString)) "[]"
       || String.eqb (String a (String b EmptyString)) "()"
       || String.eqb (String a (String b EmptyString)) "{}")
      && empty_sets s'
  | String _ EmptyString => false
  end.

(** More than one of SILAC, Dimethyl and ICPL is indicated by the labels. *)
Definition several_modes (labels : string) : bool :=
  let s := Labelling.labelling_SILAC labels in
  let d := Labelling.labelling_Dimethyl labels in
  let i := Labelling.labelling_ICPL labels in
  (s && d) || (s && i) || (d && i).

(** None of the four indicators holds. *)
Definition no_mode (labels : string) : bool :=
  negb (Labelling.labelling_SILAC labels) && negb (Labelling.labelling_Dimethyl labels)
  && negb (Labelling.labelling_ICPL labels) && negb (Labelling.labelling_none labels).




(** ** Properties of intensities *)

Definition nonnegative (d : double) : Prop :=
  match d with
  | Fin q => (0 <= q)%Qc
  | PInf => True
  | _ => False
  end.

Definition zero_or_nan (d : double) : Prop := d = dzero \/ d = NaN.

Definition finite (d : double) : bool :=
  match d with Fin _ => true | _ => false end.


(** ** The label string, written and read *)

Fixpoint all_chars (f : ascii -> bool) (s : string) : bool :=
  match s with
  | EmptyString => true
  | String c s' => f c && all_chars f s'
  end.

(** A label that holds no bracket and no separator. *)
Definition plain_label (l : string) : bool :=
  all_chars (fun c => negb (is_any_of "[](){}" c) && negb (is_any_of ",;: " c)) l.

(** One sample in the notation of the parameter [labels]: its labels,
    separated by commas, in square brackets. *)
Definition write_sample (labels : list string) : string :=
  ("[" ++ String.concat "," labels ++ "]")%string.

Definition write_labels (samples_labels : list (list string)) : string :=
  String.concat "" (map write_sample samples_labels).

(** A sample that [write_sample] can show: plain labels, and not all of its
    text empty. *)
Definition shown_sample (labels : list string) : bool :=
  forallb plain_label labels && negb (empty (String.concat "," labels)).

(** The parameters with another label string. *)
Definition with_labels (p : Params) (labels : string) : Params :=
  {| out_ := out_ p; out_features_ := out_features_ p;
     labels_ := labels; charge_min_ := charge_min_ p; charge_max_ := charge_max_ p;
     missed_cleavages_ := missed_cleavages_ p;
     isotopes_per_peptide_min_ := isotopes_per_peptide_min_ p;
     isotopes_per_peptide_max_ := isotopes_per_peptide_max_ p;
     knock_out_ := knock_out_ p;
     label_massshift := label_massshift p |}.

(** ** The patterns of the Dimethyl and ICPL modes *)

(** [samples_labels[i][0]] *)
Definition first_label (sample : list string) : string := hd EmptyString sample.

(** The mass of the first label of each sample, less that of the first
    sample. *)
Definition label_differences (p : Params) (samples_labels : list (list string))
    : MassPattern :=
  map (fun sample =>
         (lookup (label_massshift p) (first_label sample)
          - lookup (label_massshift p) (first_label (hd [] samples_labels)))%Qc)
      samples_labels.

Definition scale (k : Qc) (q : MassPattern) : MassPattern := map (Qcmult k) q.

(** The shape of a pattern of the SILAC enumeration over [n] samples. *)
Definition silac_shape (n : nat) (q : MassPattern) : Prop :=
  2 <= List.length q <= S n
  /\ hd_error q = Some 0%Qc
  /\ Forall (fun x => x <> 0%Qc) (tl q).

Definition Qcsum (l : list Qc) : Qc := fold_right Qcplus 0%Qc l.

(** The patterns of the SILAC mode, said without the loops.  A label names
    Arg when it holds [Arg6] or [Arg10], and Lys when it holds [Lys4], [Lys6]
    or [Lys8]. *)
Definition names_Arg (label : string) : bool :=
  find "Arg6" label || find "Arg10" label.

Definition names_Lys (label : string) : bool :=
  find "Lys4" label || find "Lys6" label || find "Lys8" label.

(** The mass that one label adds to a peptide with [a] Arg and [k] Lys. *)
Definition label_shift (p : Params) (a k : N) (label : string) : Qc :=
  let m := lookup (label_massshift p) in
  (QcofN a * (b2Qc (find "Arg6" label) * m "Arg6"
              + b2Qc (find "Arg10" label) * m "Arg10")
   + QcofN k * (b2Qc (find "Lys4" label) * m "Lys4"
                + b2Qc (find "Lys6" label) * m "Lys6"
                + b2Qc (find "Lys8" label) * m "Lys8"))%Qc.

Definition sample_shift (p : Params) (a k : N) (sample : list string) : Qc :=
  Qcsum (map (label_shift p a k) sample).

(** An amino acid that the peptide holds needs a label of the sample that
    names it; an amino acid that the peptide lacks needs a label of any
    kind. *)
Definition labelled_for (count : N) (names : string -> bool) (sample : list string)
    : bool :=
  if (count =? 0)%N then negb (List.length sample =? 0)%nat
  else existsb names sample.

(** The samples that get an entry in the pattern for [a] Arg and [k] Lys. *)
Definition sample_kept (p : Params) (a k : N) (sample : list string) : bool :=
  labelled_for a names_Arg sample && labelled_for k names_Lys sample
  && negb (Qc_eqb (sample_shift p a k sample) 0%Qc).

(** The pattern for [a] Arg and [k] Lys, if there is one. *)
Definition silac_expected (p : Params) (samples_labels : list (list string))
    (a k : N) : list MassPattern :=
  if (u32 (a + k) <=? u32 (missed_cleavages_ p + 1))%N then
    match filter (sample_kept p a k) samples_labels with
    | [] => []
    | kept => [0%Qc :: map (sample_shift p a k) kept]
    end
  else [].

(** ** The patterns of one charge *)

(** The pattern that [generatePeakPatterns_] makes of the charge [c] and
    the [i]-th mass pattern. *)
Definition peak_pattern (c peaksPerPeptideMax : Z) (i : nat) (q : MassPattern)
    : MultiplexPeakPattern :=
  {| getCharge := c; getPeaksPerPeptide := peaksPerPeptideMax;
     getMassShifts := q; getMassShiftIndex := i |}.

(** ** Finite observations *)






(** ** Counting clusters and features *)

(** The number of clusters of the patterns, and the number of peptides of
    these clusters: each cluster counts once for each mass shift of its
    pattern. *)
Definition count_clusters (patterns : list MultiplexPeakPattern)
    (cluster_results : list cluster_map) : nat :=
  list_sum (map (fun i => List.length (nth i cluster_results []))
                (seq 0 (List.length patterns))).

Definition mass_shift_count_at (patterns : list MultiplexPeakPattern) (i : nat) : nat :=
  match nth_error patterns i with
  | Some pattern => getMassShiftCount pattern
  | None => 0
  end.

Definition count_peptides (patterns : list MultiplexPeakPattern)
    (cluster_results : list cluster_map) : nat :=
  list_sum (map (fun i => List.length (nth i cluster_results [])
                          * mass_shift_count_at patterns i)
                (seq 0 (List.length patterns))).


(** A cluster that [generateMaps_] can turn into a consensus feature: it
    has a point, its points are indices of the filter result, and its
    pattern has a mass shift. *)
Definition usable_cluster (pattern : MultiplexPeakPattern)
    (filter_result : MultiplexFilterResult) (cluster : Z * GridBasedCluster) : Prop :=
  getPoints (snd cluster) <> []
  /\ Forall (fun index => index < List.length filter_result) (getPoints (snd cluster))
  /\ 1 <= getMassShiftCount pattern.

(** ** FeaFiModule: the peaks of a map and their neighbours

    The embedding of the accessors of [FeaFiModule.h].  The coordinates and
    intensities of the peaks are finite here.  [OPENMS_PRECONDITION] is not
    part of the header: a build either checks the condition and throws
    [Exception::Precondition] or leaves the check out, so the embedding
    takes the kind of build as the parameter [checked]. *)

Module FeaFi.

Record Peak : Type := {
  getMZ : Qc;
  getIntensity : Qc
}.

Record Spectrum : Type := {
  getRT : Qc;
  peaks : list Peak
}.

Definition Map : Type := list Spectrum.

(** [FeatureFinderDefs::IndexPair]: the index of the scan and the index of
    the peak in the scan. *)
Definition IndexPair : Type := (nat * nat)%type.

Inductive outcome (A : Type) : Type :=
| Returns (a : A)
| NoSuccessor (function : string) (index : IndexPair)
| Precondition (message : string)
| OutOfRange.

Arguments Returns {A} a.
Arguments NoSuccessor {A} function index.
Arguments Precondition {A} message.
Arguments OutOfRange {A}.

Definition and_then {A B : Type} (o : outcome A) (k : A -> outcome B) : outcome B :=
  match o with
  | Returns a => k a
  | NoSuccessor f i => NoSuccessor f i
  | Precondition m => Precondition m
  | OutOfRange => OutOfRange
  end.

(** The scan [i] of the map and the peak [j] of a scan; outside the vector
    the access is undefined. *)
Definition scan (map : Map) (i : nat) : outcome Spectrum :=
  match nth_error map i with
  | Some s => Returns s
  | None => OutOfRange
  end.

Definition peak (s : Spectrum) (j : nat) : outcome Peak :=
  match nth_error (peaks s) j with
  | Some q => Returns q
  | None => OutOfRange
  end.

(** An index of a peak of the map. *)
Definition valid (map : Map) (index : IndexPair) : bool :=
  match nth_error map (fst index) with
  | Some s => snd index <? List.length (peaks s)
  | None => false
  end.

Section Accessors.

(** [checked] says whether the build evaluates [OPENMS_PRECONDITION]; the
    macro is not among the sources. *)
Variable checked : bool.
Variable map_ : Map.

(** The two lines [OPENMS_PRECONDITION] at the head of every accessor. *)
Definition corrupt_index (index : IndexPair) : option string :=
  if negb checked then None
  else if negb (fst index <? List.length map_) then Some "Scan index outside of map!"
  else match nth_error map_ (fst index) with
       | Some s => if snd index <? List.length (peaks s) then None
                   else Some "Peak index outside of scan!"
       | None => Some "Scan index outside of map!"
       end.

Definition guarded {A : Type} (index : IndexPair) (body : outcome A) : outcome A :=
  match corrupt_index index with
  | Some message => Precondition message
  | None => body
  end.

Definition getPeakIntensity (index : IndexPair) : outcome Qc :=
  guarded index
    (and_then (scan map_ (fst index)) (fun s =>
     and_then (peak s (snd index)) (fun q => Returns (getIntensity q)))).

Definition getPeakMz (index : IndexPair) : outcome Qc :=
  guarded index
    (and_then (scan map_ (fst index)) (fun s =>
     and_then (peak s (snd index)) (fun q => Returns (getMZ q)))).

Definition getPeakRt (index : IndexPair) : outcome Qc :=
  guarded index
    (and_then (scan map_ (fst index)) (fun s => Returns (getRT s))).

(** [size() - 1] on [size_t], for a vector of fewer than [2^64] entries. *)
Definition size_minus_1 (size : nat) : Z :=
  if (size =? 0)%nat then (2 ^ 64 - 1)%Z else (Z.of_nat size - 1)%Z.

Definition getNextMz (index : IndexPair) : outcome IndexPair :=
  guarded index
    (and_then (scan map_ (fst index)) (fun s =>
     if (Z.of_nat (snd index) =? size_minus_1 (List.length (peaks s)))%Z
     then NoSuccessor "FeatureFinder::getNextMz" index
     else Returns (fst index, S (snd index)))).

Definition getPrevMz (index : IndexPair) : outcome IndexPair :=
  guarded index
    (if (snd index =? 0)%nat
     then NoSuccessor "FeatureFinder::getPrevMz" index
     else Returns (fst index, snd index - 1)).

(** [x < y] on m/z values. *)
Definition Qcltb (a b : Qc) : bool :=
  match (a ?= b)%Qc with Lt => true | _ => false end.

(** [std::lower_bound] with [PositionLess], the binary search of the
    standard library, from the range of [len] peaks that starts at [first]:
    the middle peak of the range is compared with [mz], and the search goes
    on behind it when its m/z is below [mz], in front of it when not.  Each
    turn leaves at most half of the range, so [turns] turns are enough when
    [len <= turns]. *)
Fixpoint lower_bound_from (turns : nat) (l : list Peak) (mz : Qc) (first len : nat)
    : nat :=
  match turns with
  | 0 => first
  | S turns' =>
      if (len =? 0)%nat then first
      else
        let half := Nat.div2 len in
        let middle := first + half in
        match nth_error l middle with
        | Some q =>
            if Qcltb (getMZ q) mz
            then lower_bound_from turns' l mz (S middle) (len - half - 1)
            else lower_bound_from turns' l mz first half
        | None => first
        end
  end.

Definition lower_bound (l : list Peak) (mz : Qc) : nat :=
  lower_bound_from (List.length l) l mz 0 (List.length l).

(** The difference of two m/z values as the code computes it, in [double]:
    the exact difference, rounded.  The m/z values are finite and their
    differences are taken not to overflow. *)
Variable sub : Qc -> Qc -> Qc.

(** The peak of the scan [s] next to the m/z [mz_pos]: the part that
    [getNextRt] and [getPrevRt] share, from [lower_bound] on. *)
Definition nearest_in (s : Spectrum) (mz_pos : Qc) : outcome nat :=
  let it := lower_bound (peaks s) mz_pos in
  if (it =? List.length (peaks s))%nat then
    if (0 <? List.length (peaks s))%nat
    then Returns (List.length (peaks s) - 1)
    else Returns 0
  else if (it =? 0)%nat then Returns 0
  else
    and_then (peak s it) (fun right =>
    and_then (peak s (it - 1)) (fun left =>
    if Qcltb (sub (getMZ right) mz_pos) (sub mz_pos (getMZ left))
    then Returns it
    else Returns (it - 1))).

Definition getNextRt (index : IndexPair) : outcome IndexPair :=
  guarded index
    (if (Z.of_nat (fst index) =? size_minus_1 (List.length map_))%Z
     then NoSuccessor "FeatureFinder::getNextRt" index
     else
       and_then (scan map_ (fst index)) (fun s =>
       and_then (peak s (snd index)) (fun q =>
       and_then (scan map_ (S (fst index))) (fun next =>
       and_then (nearest_in next (getMZ q)) (fun j =>
       Returns (S (fst index), j)))))).

(** The two tests after the preconditions of [getPrevRt] return with the
    index as it is. *)
Definition getPrevRt (index : IndexPair) : outcome IndexPair :=
  guarded index
    (if negb (fst index <? List.length map_) then Returns index
     else
       and_then (scan map_ (fst index)) (fun s =>
       if negb (snd index <? List.length (peaks s)) then Returns index
       else if (fst index =? 0)%nat
       then NoSuccessor "FeatureFinder::getPrevRt" index
       else
         and_then (peak s (snd index)) (fun q =>
         and_then (scan map_ (fst index - 1)) (fun prev =>
         and_then (nearest_in prev (getMZ q)) (fun j =>
         Returns (fst index - 1, j)))))).

End Accessors.

(** The m/z of the peaks of a scan do not decrease. *)
Fixpoint sorted (l : list Peak) : Prop :=
  match l with
  | [] => True
  | q :: l' => Forall (fun q' => (getMZ q <= getMZ q')%Qc) l' /\ sorted l'
  end.

(** The distance of two m/z values, computed with the difference [sub]. *)
Definition distance (sub : Qc -> Qc -> Qc) (a b : Qc) : Qc :=
  if Qcltb a b then sub b a else sub a b.

(** Rounding keeps the order of the exact differences. *)
Definition monotone (sub : Qc -> Qc -> Qc) : Prop :=
  forall a b c d : Qc, (a - b <= c - d)%Qc -> (sub a b <= sub c d)%Qc.

Definition example_map : Map :=
  [ {| getRT := dec 100 1;
       peaks := [ {| getMZ := dec 500 1; getIntensity := dec 10 1 |};
                  {| getMZ := dec 501 1; getIntensity := dec 20 1 |};
                  {| getMZ := dec 502 1; getIntensity := dec 5 1 |} ] |};
    {| getRT := dec 101 1;
       peaks := [ {| getMZ := dec 4999 10; getIntensity := dec 11 1 |};
                  {| getMZ := dec 5008 10; getIntensity := dec 19 1 |} ] |};
    {| getRT := dec 102 1; peaks := [] |} ].

End FeaFi.

(** ** IsobaricChannelExtractor: the state of the purity computation

    The struct [PuritySate] of [IsobaricChannelExtractor.h].  An iterator
    into the experiment is the index of its spectrum; [end()] is the size of
    the experiment, and to read the spectrum at [end()] is undefined.
    [activeScan] is not assigned by the constructor and is left out. *)

(** [x < y] on [double]. *)
Definition dlt (x y : double) : bool :=
  match x, y with
  | NaN, _ | _, NaN => false
  | Fin a, Fin b => match (a ?= b)%Qc with Lt => true | _ => false end
  | NInf, NInf | PInf, _ => false
  | NInf, _ | _, PInf => true
  | Fin _, NInf => false
  end.

Module Purity.

Record PuritySate : Type := {
  precursorScan : nat;
  followUpScan : nat;
  hasPrecursorScan : bool;
  hasFollowUpScan : bool;
  baseExperiment : MSExperiment
}.

(** The loop of the constructor, from the iterator [i] with the spectra
    [rest] from [i] on: [while (i->getMSLevel() != 1 && i != end) ++i]. *)
Fixpoint first_ms1_from (rest : list MSSpectrum) (i : nat) : result nat :=
  match rest with
  | [] => Undefined
  | s :: rest' =>
      if negb (getMSLevel s =? 1)%Z then first_ms1_from rest' (S i) else Ok i
  end.

Definition construct (targetExp : MSExperiment) : result PuritySate :=
  i <- first_ms1_from targetExp 0 ;;
  Ok {| precursorScan := List.length targetExp;
        followUpScan := i;
        hasPrecursorScan := false;
        hasFollowUpScan := negb (i =? List.length targetExp);
        baseExperiment := targetExp |}.

(** The loop of [advanceFollowUp]:
    [while (i->getMSLevel() != 1 && i != end && i->getRT() < rt) ++i]. *)
Fixpoint advance_from (rest : list MSSpectrum) (i : nat) (rt : double) : result nat :=
  match rest with
  | [] => Undefined
  | s :: rest' =>
      if negb (getMSLevel s =? 1)%Z && dlt (spectrum_RT s) rt
      then advance_from rest' (S i) rt
      else Ok i
  end.

Definition advanceFollowUp (st : PuritySate) (rt : double) : result PuritySate :=
  i <- advance_from (skipn (followUpScan st) (baseExperiment st)) (followUpScan st) rt ;;
  Ok {| precursorScan := precursorScan st;
        followUpScan := i;
        hasPrecursorScan := hasPrecursorScan st;
        hasFollowUpScan := negb (i =? List.length (baseExperiment st));
        baseExperiment := baseExperiment st |}.

Definition followUpValid (st : PuritySate) (rt : double) : result bool :=
  if hasFollowUpScan st then
    s <- at_ (baseExperiment st) (followUpScan st) ;;
    Ok (dlt rt (spectrum_RT s))
  else Ok true.

(** The levels of the spectra of an experiment. *)
Definition is_ms1 (s : MSSpectrum) : bool := (getMSLevel s =? 1)%Z.

(** A spectrum that [advanceFollowUp] passes over: it is not of level 1 and
    its retention time is below [rt]. *)
Definition passed_over (rt : double) (s : MSSpectrum) : bool :=
  negb (is_ms1 s) && dlt (spectrum_RT s) rt.

Definition example_run : MSExperiment :=
  [ {| getMSLevel := 2; spectrum_RT := DoubleofZ 10; spectrum_peaks := [] |};
    {| getMSLevel := 1; spectrum_RT := DoubleofZ 20; spectrum_peaks := [] |};
    {| getMSLevel := 2; spectrum_RT := DoubleofZ 30; spectrum_peaks := [] |};
    {| getMSLevel := 1; spectrum_RT := DoubleofZ 40; spectrum_peaks := [] |} ].

End Purity.


(** ** Results *)

Lemma bind_Ok {A B : Type} (r : result A) (k : A -> result B) (b : B) :
  bind r k = Ok b -> exists a, r = Ok a /\ k a = Ok b.
Proof.
  destruct r as [a| | |]; simpl; intros H; try discriminate.
  exists a; split; [reflexivity | assumption].
Qed.


Ltac inv_bind H :=
  let a := fresh "a" in
  let Ha := fresh "Ha" in
  apply bind_Ok in H; destruct H as [a [Ha H]].

Lemma mapM_Forall {A B : Type} (f : A -> result B) (P : B -> Prop) :
  (forall a b, f a = Ok b -> P b) ->
  forall l bs, mapM f l = Ok bs -> Forall P bs.
Proof.
  intros Hf l; induction l as [|a l IH]; simpl; intros bs H.
  - injection H as <-. constructor.
  - inv_bind H. inv_bind H. injection H as <-.
    constructor; [eapply Hf; eassumption | apply IH; assumption].
Qed.

Lemma mapM_length {A B : Type} (f : A -> result B) :
  forall l bs, mapM f l = Ok bs -> List.length bs = List.length l.
Proof.
  induction l as [|a l IH]; simpl; intros bs H.
  - injection H as <-. reflexivity.
  - inv_bind H. inv_bind H. injection H as <-. simpl. f_equal. apply IH. assumption.
Qed.

Lemma mapM_total {A B : Type} (f : A -> result B) (g : A -> B) (l : list A) :
  (forall a, In a l -> f a = Ok (g a)) -> mapM f l = Ok (map g l).
Proof.
  induction l as [|a l IH]; intros H; simpl; [reflexivity|].
  rewrite (H a (or_introl eq_refl)). cbn [bind].
  rewrite IH; [reflexivity|]. intros b Hb. apply H. right. exact Hb.
Qed.

Lemma mapM_pure {A B : Type} (f : A -> B) (l : list A) :
  mapM (fun a => Ok (f a)) l = Ok (map f l).
Proof.
  induction l as [|a l IH]; simpl; [reflexivity|]. rewrite IH. reflexivity.
Qed.

(** ** Loops over an [unsigned] counter *)

Lemma for_le_ends {A : Type} (n : N) (body : N -> result A) :
  (n < UINT_MAX)%N -> for_le n body = mapM body (upto n).
Proof.
  intros H. unfold for_le. apply N.ltb_lt in H. rewrite H. reflexivity.
Qed.

(** A loop that returns has a bound below [UINT_MAX]. *)
Lemma for_le_Ok {A : Type} (n : N) (body : N -> result A) (l : list A) :
  for_le n body = Ok l -> (n < UINT_MAX)%N /\ mapM body (upto n) = Ok l.
Proof.
  unfold for_le. destruct (n <? UINT_MAX)%N eqn:E; intros H.
  - apply N.ltb_lt in E. split; assumption.
  - destruct (mapM body (upto UINT_MAX)); discriminate.
Qed.

(** ** Strings *)

Lemma split_not_nil (pred : ascii -> bool) (s : string) : split pred s <> [].
Proof.
  destruct s as [|c s]; simpl; [discriminate|].
  destruct (pred c); [discriminate|].
  destruct (split pred s); discriminate.
Qed.

(** A string that has a character outside the separators has a token that
    is not empty. *)
Lemma split_has_token (pred : ascii -> bool) (s : string) :
  existsb (fun c => negb (pred c)) (list_ascii_of_string s) = true ->
  existsb (fun t => negb (empty t)) (split pred s) = true.
Proof.
  induction s as [|c s IH]; simpl; [discriminate|].
  destruct (pred c) eqn:Hc; simpl.
  - exact IH.
  - intros _. destruct (split pred s); reflexivity.
Qed.

Lemma prefix_head (c : ascii) (pat s : string) :
  prefix (String c pat) s = true ->
  exists s', s = String c s'.
Proof.
  destruct s as [|c' s]; simpl; [discriminate|].
  destruct (ascii_dec c c') as [->|]; [|discriminate].
  intros _. eexists; reflexivity.
Qed.

Lemma find_head_occurs (c : ascii) (pat s : string) :
  find (String c pat) s = true ->
  In c (list_ascii_of_string s).
Proof.
  induction s as [|c' s IH]; intros H.
  - simpl in H. discriminate.
  - cbn [find] in H. apply orb_true_iff in H. destruct H as [H|H].
    + apply prefix_head in H. destruct H as [s' H]. injection H as -> _.
      left. reflexivity.
    + right. apply IH. exact H.
Qed.

Lemma find_gives_sample (c : ascii) (pat labels : string) :
  is_any_of "[](){}" c = false ->
  find (String c pat) labels = true ->
  split_labels labels <> [].
Proof.
  intros Hc Hf. apply find_head_occurs in Hf.
  assert (He : existsb (fun t => negb (empty t))
                 (split (is_any_of "[](){}") labels) = true).
  { apply split_has_token. apply existsb_exists. exists c. split; [exact Hf|].
    rewrite Hc. reflexivity. }
  apply existsb_exists in He. destruct He as [t [Ht Hne]].
  unfold split_labels. intros Hnil. apply map_eq_nil in Hnil.
  assert (Hin : In t (filter (fun t => negb (empty t))
                        (split (is_any_of "[](){}") labels))).
  { apply filter_In. split; assumption. }
  rewrite Hnil in Hin. exact Hin.
Qed.

(** ** The labelling mode *)

Lemma classify_Dimethyl_sample (labels : string) :
  Labelling.classify labels = Some Labelling.Dimethyl -> split_labels labels <> [].
Proof.
  unfold Labelling.classify. intros H.
  destruct (Labelling.labelling_Dimethyl labels) eqn:Hd.
  - apply (find_gives_sample "D" "imethyl"); [reflexivity | exact Hd].
  - destruct (Labelling.labelling_SILAC labels), (Labelling.labelling_ICPL labels),
      (Labelling.labelling_none labels); discriminate.
Qed.

Lemma classify_ICPL_sample (labels : string) :
  Labelling.classify labels = Some Labelling.ICPL -> split_labels labels <> [].
Proof.
  unfold Labelling.classify. intros H.
  destruct (Labelling.labelling_ICPL labels) eqn:Hd.
  - apply (find_gives_sample "I" "CPL"); [reflexivity | exact Hd].
  - destruct (Labelling.labelling_SILAC labels), (Labelling.labelling_Dimethyl labels),
      (Labelling.labelling_none labels); discriminate.
Qed.

(** ** Every pattern starts at 0 *)

Section Heads.

Variable p : Params.

(** The list of the SILAC mode, when the loops end: the turns for
    [ArgPerPeptide] and [LysPerPeptide] from 0 to the bound, in the order of
    the loops. *)
Lemma silac_list_Ok (samples_labels : list (list string)) (l : list MassPattern) :
  silac_list p samples_labels = Ok l ->
  (u32 (missed_cleavages_ p + 1) < UINT_MAX)%N
  /\ l = flat_map (fun a => flat_map (silac_turn p samples_labels a)
                                      (upto (u32 (missed_cleavages_ p + 1))))
                   (upto (u32 (missed_cleavages_ p + 1))).
Proof.
  unfold silac_list. intros H. inv_bind H. injection H as <-.
  apply for_le_Ok in Ha. destruct Ha as [Hb Ha]. split; [exact Hb|].
  rewrite (mapM_total _ (fun a => flat_map (silac_turn p samples_labels a)
                                   (upto (u32 (missed_cleavages_ p + 1))))) in Ha.
  - injection Ha as <-. symmetry. apply flat_map_concat_map.
  - intros k _. rewrite (for_le_ends _ _ Hb), mapM_pure. cbn [bind].
    rewrite <- flat_map_concat_map. reflexivity.
Qed.

Lemma silac_list_ends (samples_labels : list (list string)) :
  (u32 (missed_cleavages_ p + 1) < UINT_MAX)%N ->
  silac_list p samples_labels
  = Ok (flat_map (fun a => flat_map (silac_turn p samples_labels a)
                                    (upto (u32 (missed_cleavages_ p + 1))))
                 (upto (u32 (missed_cleavages_ p + 1)))).
Proof.
  intros Hb. unfold silac_list. rewrite (for_le_ends _ _ Hb).
  rewrite (mapM_total _ (fun a => flat_map (silac_turn p samples_labels a)
                                   (upto (u32 (missed_cleavages_ p + 1))))).
  - cbn [bind]. rewrite <- flat_map_concat_map. reflexivity.
  - intros k _. rewrite (for_le_ends _ _ Hb), mapM_pure. cbn [bind].
    rewrite <- flat_map_concat_map. reflexivity.
Qed.

Lemma silac_turn_cases (samples_labels : list (list string)) (a l : N)
    (q : MassPattern) :
  In q (silac_turn p samples_labels a l) ->
  q = silac_pattern p samples_labels a l
  /\ (u32 (a + l) <= u32 (missed_cleavages_ p + 1))%N
  /\ 1 < List.length q.
Proof.
  unfold silac_turn.
  destruct (u32 (a + l) <=? u32 (missed_cleavages_ p + 1))%N eqn:Eb; [|contradiction].
  destruct (1 <? List.length (silac_pattern p samples_labels a l))%nat eqn:E;
    [|contradiction].
  intros [<-|[]]. apply N.leb_le in Eb. apply Nat.ltb_lt in E. repeat split; assumption.
Qed.

Lemma silac_list_heads (samples_labels : list (list string)) (l : list MassPattern) :
  silac_list p samples_labels = Ok l -> Forall starts_at_0 l.
Proof.
  intros H. apply silac_list_Ok in H. destruct H as [_ ->].
  apply Forall_forall. intros q Hq.
  apply in_flat_map in Hq. destruct Hq as [a [_ Hq]].
  apply in_flat_map in Hq. destruct Hq as [k [_ Hq]].
  apply silac_turn_cases in Hq. destruct Hq as [-> _]. reflexivity.
Qed.

Lemma dimethyl_pattern_head (samples_labels : list (list string)) (mc : N)
    (q : MassPattern) :
  samples_labels <> [] ->
  dimethyl_pattern p samples_labels mc = Ok q -> starts_at_0 q.
Proof.
  destruct samples_labels as [|s0 rest]; [congruence|]. intros _.
  unfold dimethyl_pattern. cbn [mapM]. intros H.
  inv_bind H. inv_bind H. injection H as <-.
  inv_bind Ha. cbn [at_ nth_error bind] in Ha.
  rewrite Ha1 in Ha. cbn [bind] in Ha. injection Ha as <-.
  unfold starts_at_0. cbn [hd_error]. f_equal. ring.
Qed.

Lemma enumerate_heads (mode : Labelling.mode) (masses : list MassPattern) :
  Labelling.classify (labels_ p) = Some mode ->
  enumerate p mode (split_labels (labels_ p)) = Ok masses ->
  Forall starts_at_0 masses.
Proof.
  intros Hmode H.
  assert (Hd : split_labels (labels_ p) <> [] ->
               dimethyl_list p (split_labels (labels_ p)) = Ok masses ->
               Forall starts_at_0 masses).
  { intros Hne Hd. unfold dimethyl_list in Hd. apply for_le_Ok in Hd.
    destruct Hd as [_ Hd]. revert Hd. apply mapM_Forall.
    intros mc q. apply dimethyl_pattern_head. exact Hne. }
  destruct mode; cbn [enumerate] in H.
  - apply (silac_list_heads _ _ H).
  - apply Hd; [apply classify_Dimethyl_sample|]; assumption.
  - apply Hd; [apply classify_ICPL_sample|]; assumption.
  - injection H as <-. repeat constructor.
Qed.

Lemma knock_out_4_heads (q : MassPattern) (ks : list MassPattern) :
  knock_out_4 q = Ok ks -> Forall starts_at_0 ks.
Proof.
  unfold knock_out_4. intros H. do 4 inv_bind H. injection H as <-.
  repeat constructor.
Qed.

Lemma knock_out_3_heads (q : MassPattern) (ks : list MassPattern) :
  knock_out_3 q = Ok ks -> Forall starts_at_0 ks.
Proof.
  unfold knock_out_3. intros H. do 2 inv_bind H. injection H as <-.
  repeat constructor.
Qed.

Lemma concat_Forall {A : Type} (P : A -> Prop) (ls : list (list A)) :
  Forall (Forall P) ls -> Forall P (List.concat ls).
Proof.
  induction 1 as [|l ls Hl _ IH]; simpl; [constructor|].
  apply Forall_app. split; assumption.
Qed.

Lemma knock_out_heads (masses l : list MassPattern) :
  Forall starts_at_0 masses ->
  knock_out p masses = Ok l -> Forall starts_at_0 l.
Proof.
  intros Hm H. unfold knock_out in H. inv_bind H.
  assert (Hs : Forall starts_at_0 [singlet]) by (repeat constructor).
  destruct (knock_out_ p && (List.length a =? 4)%nat).
  { inv_bind H. injection H as <-.
    apply Forall_app; split; [exact Hm|]. apply Forall_app; split; [|exact Hs].
    apply concat_Forall. revert Ha0. apply mapM_Forall. apply knock_out_4_heads. }
  destruct (knock_out_ p && (List.length a =? 3)%nat).
  { inv_bind H. injection H as <-.
    apply Forall_app; split; [exact Hm|]. apply Forall_app; split; [|exact Hs].
    apply concat_Forall. revert Ha0. apply mapM_Forall. apply knock_out_3_heads. }
  destruct (knock_out_ p && (List.length a =? 2)%nat).
  { injection H as <-. apply Forall_app; split; assumption. }
  injection H as <-. exact Hm.
Qed.

End Heads.

(** C6: every mass pattern that [generateMassPatterns_] returns has 0 as its
    first entry, in every labelling mode, for every number of missed
    cleavages and with or without knock-outs. *)
Theorem C6_patterns_start_at_0 (p : Params) (l : list MassPattern) :
  generateMassPatterns_ p = Ok l -> Forall starts_at_0 l.
Proof.
  unfold generateMassPatterns_. intros H.
  destruct (Labelling.classify (labels_ p)) as [mode|] eqn:Hmode; [|discriminate].
  destruct (first_unknown (split_labels (labels_ p))); [discriminate|].
  inv_bind H.
  apply (knock_out_heads p a); [|exact H].
  apply (enumerate_heads p mode); assumption.
Qed.

Lemma C6_patterns_start_at_0_witness :
  exists l, generateMassPatterns_ (default_params "[][Lys8,Arg10]" 1 true) = Ok l
            /\ Forall starts_at_0 l.
Proof.
  eexists. split; [vm_compute; reflexivity|].
  apply (C6_patterns_start_at_0 (default_params "[][Lys8,Arg10]" 1 true)).
  vm_compute. reflexivity.
Defined.

(** ** Deciding equality of shifts and patterns *)

Lemma Qc_eqb_eq (x y : Qc) : Qc_eqb x y = true <-> x = y.
Proof.
  unfold Qc_eqb, Qc_eq_bool. destruct (Qc_eq_dec x y) as [e|n].
  - split; intros _; [exact e | reflexivity].
  - split; [discriminate | intros e; contradiction].
Qed.

Lemma MassPattern_eqb_eq (a b : MassPattern) : MassPattern_eqb a b = true <-> a = b.
Proof.
  revert b. induction a as [|x a IH]; intros [|y b]; simpl;
    try (split; [discriminate | discriminate]); [split; reflexivity|].
  rewrite andb_true_iff, Qc_eqb_eq, IH. split.
  - intros [-> ->]. reflexivity.
  - intros H. injection H as -> ->. split; reflexivity.
Qed.

Lemma has_shift_In (x : Qc) (l : list MassPattern) :
  has_shift x l = true <-> In x (shifts l).
Proof.
  unfold has_shift. rewrite existsb_exists. split.
  - intros [y [Hy He]]. apply Qc_eqb_eq in He. subst y. exact Hy.
  - intros H. exists x. split; [exact H | apply Qc_eqb_eq; reflexivity].
Qed.

Lemma has_pattern_In (q : MassPattern) (l : list MassPattern) :
  has_pattern q l = true <-> In q l.
Proof.
  unfold has_pattern. rewrite existsb_exists. split.
  - intros [y [Hy He]]. apply MassPattern_eqb_eq in He. subst y. exact Hy.
  - intros H. exists q. split; [exact H | apply MassPattern_eqb_eq; reflexivity].
Qed.

Lemma has_pattern_not_In (q : MassPattern) (l : list MassPattern) :
  has_pattern q l = false -> ~ In q l.
Proof.
  intros H Hin. apply has_pattern_In in Hin. congruence.
Qed.


(** ** SILAC with Arg6 and Lys8 and one missed cleavage *)

(** C7: for the SILAC label strings whose labelled sample carries Arg6 and
    Lys8, with one missed cleavage and the default label masses, the mass
    shifts of the returned patterns include 0, the Arg6 shift 6.0201290268,
    the Lys8 shift 8.0141988132 and their sum 14.0343278400; with knock-outs
    or without. *)
Theorem C7_Arg6_Lys8_shifts (ko : bool) :
  Forall (fun labels =>
            exists l, generateMassPatterns_ (default_params labels 1 ko) = Ok l
                      /\ In 0%Qc (shifts l)
                      /\ In (dec 60201290268 10000000000) (shifts l)
                      /\ In (dec 80141988132 10000000000) (shifts l)
                      /\ In (dec 140343278400 10000000000) (shifts l))
         ["[][Arg6,Lys8]"; "[Arg6,Lys8]"; "[][Lys8,Arg6]"; "(Arg6;Lys8)"].
Proof.
  destruct ko;
    repeat (apply Forall_cons;
            [eexists; split; [vm_compute; reflexivity|];
             repeat split; apply has_shift_In; vm_compute; reflexivity|]);
    apply Forall_nil.
Qed.

(** ** Knock-outs of a quadruplet *)

Ltac in_patterns := apply has_pattern_In; vm_compute; reflexivity.
Ltac all_in_patterns :=
  repeat (apply Forall_cons; [in_patterns|]); apply Forall_nil.

(** C3: with the labels [[ICPL0][ICPL4][ICPL6][ICPL10]], no missed cleavage
    and knock-outs, the generator returns the quadruplet
    [0, 4.025107, 6.020129, 10.045236], its six doublets, the singlet and
    three of its triplets; the triplet [0, 4.025107, 10.045236], the
    quadruplet without its third peptide, is not returned. *)
Theorem C3_quadruplet_misses_a_triplet :
  let d1 := dec 4025107 1000000 in
  let d2 := dec 6020129 1000000 in
  let d3 := dec 10045236 1000000 in
  exists l,
    generateMassPatterns_ (default_params "[ICPL0][ICPL4][ICPL6][ICPL10]" 0 true) = Ok l
    /\ In [0; d1; d2; d3]%Qc l
    /\ Forall (fun q => In q l)
         [ [0; d2 - d1; d3 - d1]; [0; d2; d3]; [0; d1; d2] ]%Qc
    /\ Forall (fun q => In q l)
         [ [0; d1]; [0; d2]; [0; d3]; [0; d2 - d1]; [0; d3 - d1]; [0; d3 - d2] ]%Qc
    /\ In [0%Qc] l
    /\ ~ In [0; d1; d3]%Qc l.
Proof.
  intros d1 d2 d3. eexists. split; [vm_compute; reflexivity|].
  split; [apply has_pattern_In; vm_compute; reflexivity|].
  split; [all_in_patterns|].
  split; [all_in_patterns|].
  split; [apply has_pattern_In; vm_compute; reflexivity|].
  apply has_pattern_not_In. vm_compute. reflexivity.
Qed.

(** What the knock-out of any quadruplet adds: the triplets without the
    first, the second and the fourth peptide, and the six doublets. *)
Lemma knock_out_4_quadruplet (l0 l1 l2 l3 : Qc) :
  knock_out_4 [l0; l1; l2; l3] =
  Ok [ [0; l2 - l1; l3 - l1]; [0; l2 - l0; l3 - l0]; [0; l1 - l0; l2 - l0];
       [0; l1]; [0; l2]; [0; l3]; [0; l2 - l1]; [0; l3 - l1]; [0; l3 - l2] ]%Qc.
Proof. reflexivity. Qed.

(** ** No pattern is removed *)









(** ** Bounds of the knock-out expansion *)


Lemma at_out_of_bounds {A : Type} (v : list A) (i : nat) :
  List.length v <= i -> at_ v i = Undefined.
Proof.
  intros H. unfold at_. apply nth_error_None in H. rewrite H. reflexivity.
Qed.









(** C10: with the labels [[Lys4][Lys8,Arg10]], no missed cleavage and
    knock-outs, the SILAC enumeration gives a triplet for the peptides with
    one Lys and then a doublet for the peptides with one Arg, because the
    first sample has no Arg label; the knock-out expansion takes the arity 3
    of the first pattern and reads the entry at index 2 of the doublet,
    outside its bounds. *)
Theorem C10_knock_out_reads_outside_a_pattern :
  let p := default_params "[Lys4][Lys8,Arg10]" 0 true in
  exists triplet doublet,
    enumerate p Labelling.SILAC (split_labels (labels_ p)) = Ok [triplet; doublet]
    /\ List.length triplet = 3
    /\ List.length doublet = 2
    /\ at_ doublet 2 = Undefined
    /\ knock_out p [triplet; doublet] = Undefined
    /\ generateMassPatterns_ p = Undefined.
Proof.
  intros p. eexists. eexists.
  split; [vm_compute; reflexivity|].
  repeat split; vm_compute; reflexivity.
Qed.

(** ** The labelling mode None *)

Lemma labelling_none_iff (labels : string) :
  Labelling.labelling_none labels = true <-> In labels [""; "[]"; "()"; "{}"].
Proof.
  unfold Labelling.labelling_none. rewrite !orb_true_iff, !String.eqb_eq.
  destruct labels; simpl; intuition (try discriminate; auto).
Qed.

Lemma none_labels_classify (labels : string) :
  In labels [""; "[]"; "()"; "{}"] ->
  Labelling.classify labels = Some Labelling.none.
Proof.
  simpl. intros [<-|[<-|[<-|[<-|[]]]]]; reflexivity.
Qed.

Lemma classify_none_iff (labels : string) :
  Labelling.classify labels = Some Labelling.none
  <-> In labels [""; "[]"; "()"; "{}"].
Proof.
  split; [|apply none_labels_classify].
  intros H. apply labelling_none_iff. unfold Labelling.classify in H.
  destruct (Labelling.labelling_SILAC labels), (Labelling.labelling_Dimethyl labels),
    (Labelling.labelling_ICPL labels), (Labelling.labelling_none labels);
    simpl in H; congruence.
Qed.

Lemma none_labels_patterns (p : Params) :
  In (labels_ p) [""; "[]"; "()"; "{}"] ->
  generateMassPatterns_ p = Ok [singlet].
Proof.
  intros H. unfold generateMassPatterns_.
  rewrite (none_labels_classify _ H).
  assert (Hu : first_unknown (split_labels (labels_ p)) = None).
  { simpl in H. destruct H as [<-|[<-|[<-|[<-|[]]]]]; reflexivity. }
  rewrite Hu. cbn [enumerate bind]. unfold knock_out.
  cbn [at_ nth_error bind singlet List.length Nat.eqb].
  rewrite !andb_false_r. reflexivity.
Qed.

Lemma no_single_mode_throws (p : Params) :
  several_modes (labels_ p) = true \/ no_mode (labels_ p) = true ->
  generateMassPatterns_ p = Throw unknown_labelling.
Proof.
  unfold generateMassPatterns_, several_modes, no_mode, Labelling.classify.
  destruct (Labelling.labelling_SILAC (labels_ p)),
    (Labelling.labelling_Dimethyl (labels_ p)),
    (Labelling.labelling_ICPL (labels_ p)),
    (Labelling.labelling_none (labels_ p)); simpl;
    intros [H|H]; try discriminate; reflexivity.
Qed.

(** C5, as the code has it: the mode is None exactly when the label string
    is empty or is one of [[]], [()] and [{}], and then the single pattern
    [0] is returned; when more than one of SILAC, Dimethyl and ICPL is
    indicated, or no indicator holds, the generation throws
    [IllegalArgument] and returns no pattern. *)
Theorem C5_mode_none_and_errors (p : Params) :
  (Labelling.classify (labels_ p) = Some Labelling.none
   <-> In (labels_ p) [""; "[]"; "()"; "{}"])
  /\ (In (labels_ p) [""; "[]"; "()"; "{}"] ->
      generateMassPatterns_ p = Ok [[0%Qc]])
  /\ (several_modes (labels_ p) = true \/ no_mode (labels_ p) = true ->
      generateMassPatterns_ p = Throw unknown_labelling).
Proof.
  split; [apply classify_none_iff|].
  split; [apply none_labels_patterns | apply no_single_mode_throws].
Qed.

Lemma C5_mode_none_and_errors_witness :
  generateMassPatterns_ (default_params "{}" 2 true) = Ok [[0%Qc]]
  /\ generateMassPatterns_ (default_params "[Lys8][ICPL4]" 0 true)
     = Throw unknown_labelling.
Proof.
  split.
  - apply (C5_mode_none_and_errors (default_params "{}" 2 true)).
    simpl. right. right. right. left. reflexivity.
  - apply (C5_mode_none_and_errors (default_params "[Lys8][ICPL4]" 0 true)).
    left. reflexivity.
Defined.

(** C5, as stated, fails: the label string [[][]] is a sequence of empty
    sets, the classifier finds no mode for it, and the generation throws. *)
Lemma C5_two_empty_sets_have_no_mode :
  empty_sets "[][]" = true
  /\ Labelling.classify "[][]" = None
  /\ ~ (Labelling.classify "[][]" = Some Labelling.none
        <-> "[][]" = "" \/ empty_sets "[][]" = true)
  /\ generateMassPatterns_ (default_params "[][]" 0 false) = Throw unknown_labelling.
Proof.
  split; [reflexivity|]. split; [reflexivity|]. split; [|reflexivity].
  intros [_ H]. discriminate H. right. reflexivity.
Qed.

(** ** Outside the SILAC mode the generator returns *)

Lemma split_labels_samples (labels : string) :
  Forall (fun sample => sample <> []) (split_labels labels).
Proof.
  unfold split_labels. apply Forall_map. apply Forall_forall.
  intros t _. apply split_not_nil.
Qed.

Lemma mapM_returns {A B : Type} (f : A -> result B) (P : B -> Prop) (l : list A) :
  Forall (fun a => exists b, f a = Ok b /\ P b) l ->
  exists bs, mapM f l = Ok bs /\ Forall P bs /\ List.length bs = List.length l.
Proof.
  induction 1 as [|a l [b [Hb HP]] _ [bs [Hbs [HPs Hlen]]]]; simpl.
  - exists []. repeat split. constructor.
  - exists (b :: bs). rewrite Hb, Hbs. cbn [bind]. repeat split.
    + constructor; assumption.
    + simpl. f_equal. exact Hlen.
Qed.

Lemma dimethyl_pattern_returns (p : Params) (samples_labels : list (list string))
    (mc : N) :
  samples_labels <> [] ->
  Forall (fun sample => sample <> []) samples_labels ->
  exists q, dimethyl_pattern p samples_labels mc = Ok q
            /\ List.length q = List.length samples_labels.
Proof.
  intros Hne Hall. unfold dimethyl_pattern.
  destruct samples_labels as [|s0 rest]; [congruence|].
  assert (H0 : s0 <> []) by (inversion Hall; assumption).
  destruct s0 as [|l0 s0]; [congruence|].
  destruct (mapM_returns
              (fun sample =>
                 l <- at_ sample 0 ;;
                 s0' <- at_ ((l0 :: s0) :: rest) 0 ;;
                 l0' <- at_ s0' 0 ;;
                 Ok (QcofN (u32 (mc + 1))
                     * (lookup (label_massshift p) l - lookup (label_massshift p) l0'))%Qc)
              (fun _ => True) ((l0 :: s0) :: rest)) as [q [Hq [_ Hlen]]].
  - revert Hall. apply Forall_impl. intros sample Hs.
    destruct sample as [|l sample]; [congruence|].
    eexists. split; [reflexivity | exact I].
  - exists q. split; assumption.
Qed.


(** With [missed_cleavages_] at [UINT_MAX] the loop over the missed
    cleavages has no last turn. *)
Lemma dimethyl_list_diverges (p : Params) (samples_labels : list (list string)) :
  (UINT_MAX <= missed_cleavages_ p)%N ->
  samples_labels <> [] ->
  Forall (fun sample => sample <> []) samples_labels ->
  dimethyl_list p samples_labels = Diverges.
Proof.
  intros Hmc Hne Hall. unfold dimethyl_list, for_le.
  destruct (missed_cleavages_ p <? UINT_MAX)%N eqn:E; [apply N.ltb_lt in E; lia|].
  destruct (mapM_returns (dimethyl_pattern p samples_labels) (fun _ => True)
              (upto UINT_MAX)) as [masses [Hm _]].
  - apply Forall_forall. intros mc _.
    destruct (dimethyl_pattern_returns p samples_labels mc Hne Hall) as [q [Hq _]].
    exists q. split; [exact Hq | exact I].
  - rewrite Hm. reflexivity.
Qed.


Lemma generateMassPatterns_diverges (p : Params) (mode : Labelling.mode) :
  Labelling.classify (labels_ p) = Some mode ->
  mode = Labelling.Dimethyl \/ mode = Labelling.ICPL ->
  first_unknown (split_labels (labels_ p)) = None ->
  (UINT_MAX <= missed_cleavages_ p)%N ->
  generateMassPatterns_ p = Diverges.
Proof.
  intros Hmode Hdi Hknown Hmc. unfold generateMassPatterns_. rewrite Hmode, Hknown.
  assert (Hne : split_labels (labels_ p) <> []).
  { destruct Hdi as [-> | ->];
      [apply classify_Dimethyl_sample | apply classify_ICPL_sample]; exact Hmode. }
  assert (He : enumerate p mode (split_labels (labels_ p)) = Diverges).
  { destruct Hdi as [-> | ->]; cbn [enumerate];
      apply dimethyl_list_diverges; try assumption; apply split_labels_samples. }
  rewrite He. reflexivity.
Qed.

(** ** Arithmetic of intensities *)

Lemma Qc_square_nonneg (a : Qc) : (0 <= a * a)%Qc.
Proof.
  destruct (Qclt_le_dec a 0) as [H|H].
  - assert (Hn : (0 <= - a)%Qc).
    { apply Qclt_le_weak in H. apply Qcopp_le_compat in H.
      replace (- 0)%Qc with 0%Qc in H by ring. exact H. }
    replace (a * a)%Qc with (- a * - a)%Qc by ring.
    pose proof (Qcmult_le_compat_r 0 (- a) (- a) Hn Hn) as H1.
    rewrite Qcmult_0_l in H1. exact H1.
  - pose proof (Qcmult_le_compat_r 0 a a H H) as H1.
    rewrite Qcmult_0_l in H1. exact H1.
Qed.

Lemma Qc_sum_zero (a b : Qc) :
  (0 <= a)%Qc -> (0 <= b)%Qc -> (a + b = 0)%Qc -> a = 0%Qc /\ b = 0%Qc.
Proof.
  intros Ha Hb H.
  assert (Ha0 : (a <= 0)%Qc).
  { rewrite <- H. pose proof (Qcplus_le_compat a a 0 b (Qcle_refl a) Hb) as H1.
    rewrite Qcplus_0_r in H1. exact H1. }
  assert (Ea : a = 0%Qc) by (apply Qcle_antisym; assumption).
  split; [exact Ea|]. rewrite Ea, Qcplus_0_l in H. exact H.
Qed.


Lemma Fin_inj (a b : Qc) : Fin a = Fin b -> a = b.
Proof.
  intros H. exact (f_equal (fun d => match d with Fin q => q | _ => a end) H).
Qed.





Lemma dsum_nonnegative (l : list double) :
  Forall nonnegative l -> nonnegative (dsum l).
Proof.
  induction 1 as [|x l Hx _ IH]; simpl.
  - apply Qcle_refl.
  - destruct x as [a| | |], (dsum l) as [b| | |]; simpl in *; try tauto.
    pose proof (Qcplus_le_compat 0 a 0 b Hx IH) as H1.
    rewrite Qcplus_0_l in H1. exact H1.
Qed.

Lemma dsum_zero (l : list double) :
  Forall nonnegative l -> dsum l = dzero -> Forall (fun x => x = dzero) l.
Proof.
  induction 1 as [|x l Hx Hl IH]; simpl; intros H; [constructor|].
  pose proof (dsum_nonnegative l Hl) as Hs.
  destruct x as [a| | |], (dsum l) as [b| | |]; simpl in *;
    try tauto; try discriminate.
  apply Fin_inj in H.
  destruct (Qc_sum_zero a b Hx Hs H) as [-> ->].
  constructor; [reflexivity | apply IH; reflexivity].
Qed.

Lemma dsum_zero_or_nan (l : list double) :
  Forall zero_or_nan l -> zero_or_nan (dsum l).
Proof.
  induction 1 as [|x l Hx _ IH]; simpl; [left; reflexivity|].
  destruct Hx as [-> | ->], IH as [-> | ->]; simpl;
    try (right; reflexivity).
  left. reflexivity.
Qed.

Lemma square_nonnegative (x : double) : isnan x = false -> nonnegative (dmul x x).
Proof.
  destruct x; simpl; intros H; try tauto; try discriminate.
  apply Qc_square_nonneg.
Qed.

Lemma square_zero (x : double) : dmul x x = dzero -> x = dzero.
Proof.
  destruct x as [a| | |]; simpl; try discriminate.
  intros H. apply Fin_inj in H.
  destruct (Qcmult_integral a a H) as [-> | ->]; reflexivity.
Qed.

Lemma zero_times (y : double) : zero_or_nan (dmul dzero y).
Proof.
  destruct y as [b| | |]; simpl.
  - left. unfold dzero. f_equal. ring.
  - right. reflexivity.
  - right. reflexivity.
  - right. reflexivity.
Qed.

Lemma zero_or_nan_over_zero (x : double) : zero_or_nan x -> ddiv x dzero = NaN.
Proof. intros [-> | ->]; reflexivity. Qed.

(** ** The regression through the origin *)

Lemma addData_vectors_pairs (pairs : list (double * double)) (r : LinReg.t) :
  LinReg.addData_vectors r (map fst pairs) (map snd pairs)
  = Ok (fold_left (fun r xy => LinReg.addData r (fst xy) (snd xy)) pairs r).
Proof.
  revert r. induction pairs as [|xy pairs IH]; intros r; simpl; [reflexivity|].
  apply IH.
Qed.

Lemma regress_eq (light peptide : list double) :
  regress light peptide = Ok (fitted_ratio light peptide, raw_sum light peptide).
Proof.
  unfold regress. rewrite addData_vectors_pairs. reflexivity.
Qed.



Lemma non_nan_pairs_not_nan (light peptide : list double) :
  Forall (fun xy => isnan (fst xy) = false /\ isnan (snd xy) = false)
         (non_nan_pairs light peptide).
Proof.
  unfold non_nan_pairs. apply Forall_forall. intros xy H.
  apply filter_In in H. destruct H as [_ H].
  apply andb_true_iff in H. destruct H as [H1 H2].
  apply negb_true_iff in H1. apply negb_true_iff in H2. split; assumption.
Qed.

(** A sum of squares that is zero makes the slope NaN: every light
    intensity is zero then, and every product is zero or NaN. *)
Lemma zero_denominator_gives_nan (pairs : list (double * double)) :
  Forall (fun xy => isnan (fst xy) = false /\ isnan (snd xy) = false) pairs ->
  dsum (map (fun xy => dmul (fst xy) (fst xy)) pairs) = dzero ->
  ddiv (dsum (map (fun xy => dmul (fst xy) (snd xy)) pairs))
       (dsum (map (fun xy => dmul (fst xy) (fst xy)) pairs)) = NaN.
Proof.
  intros Hnn Hz. rewrite Hz. apply zero_or_nan_over_zero. apply dsum_zero_or_nan.
  assert (Hsq : Forall (fun x => x = dzero)
                  (map (fun xy => dmul (fst xy) (fst xy)) pairs)).
  { apply dsum_zero; [|exact Hz]. apply Forall_map. revert Hnn.
    apply Forall_impl. intros xy [H _]. apply square_nonnegative. exact H. }
  apply Forall_map. rewrite Forall_map in Hsq. rewrite Forall_forall in Hsq.
  apply Forall_forall. intros xy Hin. apply Hsq in Hin. apply square_zero in Hin.
  rewrite Hin. apply zero_times.
Qed.

Lemma sizes_agree (light : list double) (peptides : list (list double)) :
  Forall (fun v => List.length v = List.length light) peptides ->
  forallb (fun v => (List.length v =? List.length light)%nat) (light :: peptides) = true.
Proof.
  intros H. cbn [forallb]. rewrite Nat.eqb_refl. cbn [andb].
  apply forallb_forall. rewrite Forall_forall in H. intros v Hv.
  apply Nat.eqb_eq. apply H. exact Hv.
Qed.

Lemma getPeptideIntensities_regressed (light : list double)
    (peptides : list (list double)) :
  Forall (fun v => List.length v = List.length light) peptides ->
  getPeptideIntensities (light :: peptides)
  = let rs := map (fun v => (fitted_ratio light v, raw_sum light v)) (light :: peptides) in
    let ratios := map fst rs in
    let intensities := map snd rs in
    let size := List.length (light :: peptides) in
    if (size =? 2)%nat then
      i0 <- at_ intensities 0 ;;
      r1 <- at_ ratios 1 ;;
      i1 <- at_ intensities 1 ;;
      Ok [ddiv (dadd i0 (dmul r1 i1)) (dadd done (dmul r1 r1));
          dmul r1 (ddiv (dadd i0 (dmul r1 i1)) (dadd done (dmul r1 r1)))]
    else if (2 <? size)%nat then
      i0 <- at_ intensities 0 ;;
      labelled <- mapM (fun i => r <- at_ ratios i ;; i0' <- at_ intensities 0 ;;
                                 Ok (dmul r i0'))
                       (seq 1 (size - 1)) ;;
      Ok (i0 :: labelled)
    else
      i0 <- at_ intensities 0 ;;
      Ok [i0].
Proof.
  intros H. unfold getPeptideIntensities.
  cbn [at_ nth_error bind]. rewrite (sizes_agree light peptides H). cbn [negb].
  rewrite (mapM_total (regress light)
             (fun v => (fitted_ratio light v, raw_sum light v))).
  - reflexivity.
  - intros v _. apply regress_eq.
Qed.

Lemma at_each {A B : Type} (g : A -> B) (l pre : list A) :
  mapM (fun i => r <- at_ (pre ++ l) i ;; Ok (g r))
       (seq (List.length pre) (List.length l))
  = Ok (map g l).
Proof.
  revert pre. induction l as [|a l IH]; intros pre; [reflexivity|].
  cbn [List.length seq mapM map].
  unfold at_ at 1. rewrite nth_error_app2 by lia. rewrite Nat.sub_diag.
  cbn [nth_error bind].
  replace (pre ++ a :: l) with ((pre ++ [a]) ++ l) by (rewrite <- app_assoc; reflexivity).
  replace (S (List.length pre)) with (List.length (pre ++ [a]))
    by (rewrite length_app; simpl; lia).
  rewrite IH. reflexivity.
Qed.

Lemma corrected_one (light : list double) :
  getPeptideIntensities [light] = Ok [raw_sum light light].
Proof.
  rewrite getPeptideIntensities_regressed by constructor. reflexivity.
Qed.

Lemma corrected_two (light labelled : list double) :
  List.length labelled = List.length light ->
  getPeptideIntensities [light; labelled]
  = Ok [ddiv (dadd (raw_sum light light)
                   (dmul (fitted_ratio light labelled) (raw_sum light labelled)))
             (dadd done (dmul (fitted_ratio light labelled)
                              (fitted_ratio light labelled)));
        dmul (fitted_ratio light labelled)
             (ddiv (dadd (raw_sum light light)
                         (dmul (fitted_ratio light labelled) (raw_sum light labelled)))
                   (dadd done (dmul (fitted_ratio light labelled)
                                    (fitted_ratio light labelled))))].
Proof.
  intros Hlen.
  rewrite getPeptideIntensities_regressed by (repeat constructor; exact Hlen).
  reflexivity.
Qed.

Lemma corrected_many (light : list double) (peptides : list (list double)) :
  2 <= List.length peptides ->
  Forall (fun v => List.length v = List.length light) peptides ->
  getPeptideIntensities (light :: peptides)
  = Ok (raw_sum light light
        :: map (fun v => dmul (fitted_ratio light v) (raw_sum light light)) peptides).
Proof.
  intros Hn Hlen.
  rewrite getPeptideIntensities_regressed by exact Hlen. cbn zeta.
  cbn [List.length].
  replace (S (List.length peptides) =? 2)%nat with
    (List.length peptides =? 1)%nat by reflexivity.
  destruct (List.length peptides =? 1)%nat eqn:E1;
    [apply Nat.eqb_eq in E1; lia|].
  destruct (2 <? S (List.length peptides))%nat eqn:E2;
    [|apply Nat.ltb_ge in E2; lia].
  cbn [map fst snd at_ nth_error bind].
  replace (S (List.length peptides) - 1) with
    (List.length (map fst (map (fun v => (fitted_ratio light v, raw_sum light v))
                             peptides)))
    by (rewrite !length_map; lia).
  pose proof (at_each (fun r => dmul r (raw_sum light light))
                (map fst (map (fun v => (fitted_ratio light v, raw_sum light v))
                          peptides))
                [fitted_ratio light light]) as Hat.
  cbn [List.length app] in Hat. rewrite Hat. cbn [bind].
  rewrite !map_map. reflexivity.
Qed.

(** The function returns for every profile whose vectors have one size. *)
Lemma getPeptideIntensities_returns (light : list double)
    (peptides : list (list double)) :
  Forall (fun v => List.length v = List.length light) peptides ->
  is_ok (getPeptideIntensities (light :: peptides)) = true.
Proof.
  intros H. destruct peptides as [|p1 [|p2 rest]].
  - rewrite corrected_one. reflexivity.
  - rewrite corrected_two; [reflexivity|]. inversion H; assumption.
  - rewrite corrected_many; [reflexivity | simpl; lia | exact H].
Qed.




(** ** The fitted ratio *)

Lemma dmul_comm (x y : double) : dmul x y = dmul y x.
Proof. destruct x, y; simpl; try reflexivity. f_equal. ring. Qed.

(** The regression over an arithmetic [ar]. *)
Section OverArithmetic.

Variable ar : arithmetic.

Lemma over_addData_vectors_pairs (pairs : list (number ar * number ar))
    (r : Over.t ar) :
  Over.addData_vectors ar r (map fst pairs) (map snd pairs)
  = Ok (fold_left (fun r xy => Over.addData ar r (fst xy) (snd xy)) pairs r).
Proof.
  revert r. induction pairs as [|xy pairs IH]; intros r; simpl; [reflexivity|].
  apply IH.
Qed.

Lemma over_regress_eq (light peptide : list (number ar)) :
  Over.regress ar light peptide
  = Ok (Over.fitted_ratio ar light peptide, Over.raw_sum ar light peptide).
Proof.
  unfold Over.regress. rewrite over_addData_vectors_pairs. reflexivity.
Qed.









End OverArithmetic.

(** At the exact arithmetic the code over an arithmetic is the code of the
    exact model. *)
Lemma exact_fit (pairs : list (double * double)) (r : LinReg.t) :
  let r' := fold_left (fun r xy => LinReg.addData r (fst xy) (snd xy)) pairs r in
  let o' := fold_left (fun o xy => Over.addData exact o (fst xy) (snd xy)) pairs
              {| Over.sum_xx_ := LinReg.sum_xx_ r : number exact;
                 Over.sum_xy_ := LinReg.sum_xy_ r; Over.n_ := LinReg.n_ r |} in
  Over.sum_xx_ exact o' = LinReg.sum_xx_ r'
  /\ Over.sum_xy_ exact o' = LinReg.sum_xy_ r'
  /\ Over.n_ exact o' = LinReg.n_ r'.
Proof.
  revert r. induction pairs as [|xy pairs IH]; intros r; cbn zeta.
  - repeat split.
  - cbn [fold_left]. apply (IH (LinReg.addData r (fst xy) (snd xy))).
Qed.

Lemma exact_regress (light peptide : list double) :
  Over.regress exact light peptide = regress light peptide.
Proof.
  rewrite over_regress_eq, regress_eq.
  unfold Over.fitted_ratio, Over.raw_sum, Over.total, Over.fit, Over.getSlope,
    fitted_ratio, raw_sum, fit, LinReg.getSlope.
  change (Over.non_nan_pairs exact light peptide) with (non_nan_pairs light peptide).
  destruct (exact_fit (non_nan_pairs light peptide) LinReg.init) as [Hxx [Hxy Hn]].
  cbn zeta in Hxx, Hxy, Hn.
  change {| Over.sum_xx_ := LinReg.sum_xx_ LinReg.init : number exact;
            Over.sum_xy_ := LinReg.sum_xy_ LinReg.init;
            Over.n_ := LinReg.n_ LinReg.init |} with (Over.init exact) in Hxx, Hxy, Hn.
  rewrite Hxx, Hxy, Hn. reflexivity.
Qed.

Lemma mapM_ext {A B : Type} (f g : A -> result B) (l : list A) :
  (forall a, f a = g a) -> mapM f l = mapM g l.
Proof.
  intros H. induction l as [|a l IH]; simpl; [reflexivity|]. rewrite H, IH. reflexivity.
Qed.

Lemma exact_getPeptideIntensities (profile_intensities : list (list double)) :
  Over.getPeptideIntensities exact profile_intensities
  = getPeptideIntensities profile_intensities.
Proof.
  unfold Over.getPeptideIntensities, getPeptideIntensities.
  change (number exact) with double.
  destruct (at_ profile_intensities 0) as [light| | |]; try reflexivity.
  cbn [bind].
  rewrite (mapM_ext (Over.regress exact light) (regress light))
    by (apply exact_regress).
  reflexivity.
Qed.






(** ** The quality of a cluster *)

Lemma quality_score_one_point : quality_score 1 = Ok (Fin 0%Qc).
Proof. reflexivity. Qed.

(** From two points on the quotient [1/size] of the integers is 0 and the
    quality is 1. *)
Lemma quality_score_more_points (size : Z) :
  (2 <= size)%Z -> quality_score size = Ok (Fin 1%Qc).
Proof.
  intros H. unfold quality_score.
  destruct (size =? 0)%Z eqn:E; [apply Z.eqb_eq in E; lia|].
  rewrite Z.div_small by lia. reflexivity.
Qed.

Lemma mapM_In {A B : Type} (f : A -> result B) (l : list A) (bs : list B) (b : B) :
  mapM f l = Ok bs -> In b bs -> exists a, In a l /\ f a = Ok b.
Proof.
  revert bs. induction l as [|a l IH]; simpl; intros bs H Hin.
  - injection H as <-. contradiction.
  - inv_bind H. inv_bind H. injection H as <-. destruct Hin as [<-|Hin].
    + exists a. split; [left; reflexivity | assumption].
    + destruct (IH _ Ha0 Hin) as [a' [Hl Hf]]. exists a'. split; [right|]; assumption.
Qed.

(** Every cluster of two points or more gets the quality 1, in the
    consensus feature and in the feature of each peptide. *)
Lemma cluster_features_quality (p : Params) (pattern : MultiplexPeakPattern)
    (filter_result : MultiplexFilterResult) (cluster : GridBasedCluster)
    (consensus : ConsensusFeature) (features : list Feature) :
  2 <= List.length (getPoints cluster) ->
  cluster_features p pattern filter_result cluster = Ok (consensus, features) ->
  consensus_Quality consensus = Fin 1%Qc
  /\ Forall (fun f => feature_OverallQuality f = Fin 1%Qc) features.
Proof.
  intros Hn H. unfold cluster_features in H.
  rewrite quality_score_more_points in H by lia.
  do 5 inv_bind H. cbn [bind] in H. inv_bind H. injection H as <- <-.
  split; [reflexivity|].
  apply Forall_forall. intros f Hf. apply in_map_iff in Hf.
  destruct Hf as [[h f'] [Hsnd Hin]]. cbn [snd] in Hsnd. subst f'.
  destruct (mapM_In _ _ _ _ Ha4 Hin) as [peptide [_ Hm]].
  cbn beta in Hm. do 4 inv_bind Hm. injection Hm as _ <-. reflexivity.
Qed.

(** C1: for a cluster of two points the consensus feature and the features
    of its two peptides get the quality 1, not [1 - 1/2]: the quotient
    [1/points.size()] is a quotient of integers. *)
Theorem C1_quality_of_two_points :
  exists consensus_map feature_map,
    generateMaps_ (default_params "[][Lys8]" 0 true) [doublet_pattern]
      [[point_at 100; point_at 101]] [[(0%Z, two_points)]] empty_ConsensusMap []
    = Ok (consensus_map, feature_map)
    /\ List.length (getPoints two_points) = 2
    /\ map consensus_Quality (consensus_features consensus_map) = [Fin 1%Qc]
    /\ map feature_OverallQuality feature_map = [Fin 1%Qc; Fin 1%Qc]
    /\ quality_score 2 = Ok (Fin 1%Qc)
    /\ Fin 1%Qc <> Fin (dec 1 2).
Proof.
  eexists. eexists. split; [vm_compute; reflexivity|].
  repeat split. intros H. apply Fin_inj in H. discriminate H.
Qed.

(** ** A run without MS1 spectra *)








(** ** The map of the label masses *)

Lemma lookup_map_names (f : string -> Qc) (names : list string) (k : string) :
  lookup (map (fun n => (n, f n)) names) k
  = if existsb (String.eqb k) names then f k else 0%Qc.
Proof.
  induction names as [|n names IH]; simpl; [reflexivity|].
  rewrite (String.eqb_sym k n). destruct (String.eqb n k) eqn:E; simpl.
  - apply String.eqb_eq in E. subst n. reflexivity.
  - exact IH.
Qed.

(** X1: after [getParameters_labels_] the map of the label masses gives,
    for each of the thirteen label names, the value of the parameter of that
    name, and 0 for every other key. *)
Theorem X1_label_massshift_lookup (param : massmap) (k : string) :
  lookup (getParameters_labels_ param) k
  = if existsb (String.eqb k) label_names then lookup param k else 0%Qc.
Proof.
  unfold getParameters_labels_. apply lookup_map_names.
Qed.

(** ** An unlabelled first sample *)

Lemma split_labels_after_empty_set (c1 c2 : ascii) (labels : string) :
  is_any_of "[](){}" c1 = true -> is_any_of "[](){}" c2 = true ->
  split_labels (String c1 (String c2 labels)) = split_labels labels.
Proof.
  intros H1 H2. unfold split_labels. cbn [split]. rewrite H1, H2. reflexivity.
Qed.

Lemma find_after (c1 c2 c : ascii) (pat labels : string) :
  c <> c1 -> c <> c2 ->
  find (String c pat) (String c1 (String c2 labels)) = find (String c pat) labels.
Proof.
  intros H1 H2. cbn [find prefix].
  destruct (ascii_dec c c1); [contradiction|].
  destruct (ascii_dec c c2); [contradiction|]. reflexivity.
Qed.

Lemma classify_after_empty_set (pre labels : string) :
  In pre ["[]"; "()"; "{}"] ->
  Labelling.labelling_none labels = false ->
  Labelling.classify (pre ++ labels) = Labelling.classify labels.
Proof.
  intros Hpre Hn.
  assert (Hne : labels <> "").
  { intros ->. discriminate Hn. }
  unfold Labelling.classify, Labelling.labelling_SILAC, Labelling.labelling_Dimethyl,
    Labelling.labelling_ICPL.
  assert (Hnone : Labelling.labelling_none (pre ++ labels) = false).
  { unfold Labelling.labelling_none.
    destruct labels as [|c labels]; [congruence|].
    simpl in Hpre. destruct Hpre as [<-|[<-|[<-|[]]]]; reflexivity. }
  rewrite Hnone, Hn.
  simpl in Hpre. destruct Hpre as [<-|[<-|[<-|[]]]];
    cbn [append]; rewrite !find_after by discriminate; reflexivity.
Qed.

(** X2: an empty set [[]], [()] or [{}] in front of a label string that is
    not itself empty or a single empty set changes nothing: the generator
    returns the same patterns, or fails in the same way.  The first sample
    counts as unlabelled whether it is written or not. *)
Theorem X2_leading_empty_set (p : Params) (pre : string) :
  In pre ["[]"; "()"; "{}"] ->
  Labelling.labelling_none (labels_ p) = false ->
  generateMassPatterns_ (with_labels p (pre ++ labels_ p)) = generateMassPatterns_ p.
Proof.
  intros Hpre Hn. unfold generateMassPatterns_. cbn [with_labels labels_].
  rewrite (classify_after_empty_set pre _ Hpre Hn).
  assert (Hs : split_labels (pre ++ labels_ p) = split_labels (labels_ p)).
  { simpl in Hpre. destruct Hpre as [<-|[<-|[<-|[]]]];
      apply split_labels_after_empty_set; reflexivity. }
  rewrite Hs. reflexivity.
Qed.

Lemma X2_leading_empty_set_witness :
  generateMassPatterns_ (default_params "[][Lys8,Arg10]" 1 true)
  = generateMassPatterns_ (default_params "[Lys8,Arg10]" 1 true).
Proof.
  apply (X2_leading_empty_set (default_params "[Lys8,Arg10]" 1 true) "[]").
  - left. reflexivity.
  - reflexivity.
Defined.

(** ** Writing and reading the label string *)

Lemma split_plain (pred : ascii -> bool) (s : string) :
  all_chars (fun c => negb (pred c)) s = true -> split pred s = [s].
Proof.
  induction s as [|c s IH]; simpl; [reflexivity|].
  intros H. apply andb_true_iff in H. destruct H as [Hc Hs].
  apply negb_true_iff in Hc. rewrite Hc, (IH Hs). reflexivity.
Qed.

Lemma split_at_separator (pred : ascii -> bool) (s rest : string) (c : ascii) :
  all_chars (fun c => negb (pred c)) s = true -> pred c = true ->
  split pred (s ++ String c rest) = s :: split pred rest.
Proof.
  intros Hs Hc. induction s as [|a s IH]; simpl.
  - rewrite Hc. reflexivity.
  - simpl in Hs. apply andb_true_iff in Hs. destruct Hs as [Ha Hs].
    apply negb_true_iff in Ha. rewrite Ha, (IH Hs). reflexivity.
Qed.

Lemma all_chars_app (f : ascii -> bool) (s t : string) :
  all_chars f (s ++ t) = all_chars f s && all_chars f t.
Proof.
  induction s as [|c s IH]; simpl; [reflexivity|].
  rewrite IH. apply andb_assoc.
Qed.

Lemma all_chars_weaken (f g : ascii -> bool) (s : string) :
  (forall c, f c = true -> g c = true) ->
  all_chars f s = true -> all_chars g s = true.
Proof.
  intros Hfg. induction s as [|c s IH]; simpl; [reflexivity|].
  intros H. apply andb_true_iff in H. destruct H as [Hc Hs].
  rewrite (Hfg c Hc), (IH Hs). reflexivity.
Qed.

Lemma plain_no_separator (l : string) :
  plain_label l = true ->
  all_chars (fun c => negb (is_any_of ",;: " c)) l = true.
Proof.
  apply all_chars_weaken. intros c H. apply andb_true_iff in H. tauto.
Qed.

Lemma plain_no_bracket (l : string) :
  plain_label l = true ->
  all_chars (fun c => negb (is_any_of "[](){}" c)) l = true.
Proof.
  apply all_chars_weaken. intros c H. apply andb_true_iff in H. tauto.
Qed.

(** The labels of one sample, joined by commas and split again. *)
Lemma split_joined_labels (labels : list string) :
  labels <> [] ->
  forallb plain_label labels = true ->
  split (is_any_of ",;: ") (String.concat "," labels) = labels.
Proof.
  induction labels as [|l labels IH]; [congruence|]. intros _ H.
  cbn [forallb] in H. apply andb_true_iff in H. destruct H as [Hl Hls].
  destruct labels as [|l2 labels].
  - cbn [String.concat]. apply split_plain. apply plain_no_separator. exact Hl.
  - change (String.concat "," (l :: l2 :: labels))
      with (l ++ String "," (String.concat "," (l2 :: labels)))%string.
    rewrite split_at_separator;
      [|apply plain_no_separator; exact Hl | reflexivity].
    f_equal. apply IH; [discriminate | exact Hls].
Qed.

Lemma joined_labels_no_bracket (labels : list string) :
  forallb plain_label labels = true ->
  all_chars (fun c => negb (is_any_of "[](){}" c)) (String.concat "," labels) = true.
Proof.
  induction labels as [|l labels IH]; [reflexivity|]. intros H.
  cbn [forallb] in H. apply andb_true_iff in H. destruct H as [Hl Hls].
  destruct labels as [|l2 labels].
  - cbn [String.concat]. apply plain_no_bracket. exact Hl.
  - change (String.concat "," (l :: l2 :: labels))
      with (l ++ String "," (String.concat "," (l2 :: labels)))%string.
    rewrite all_chars_app. rewrite (plain_no_bracket l Hl). cbn [andb all_chars].
    apply IH. exact Hls.
Qed.

Lemma string_app_assoc (s t u : string) :
  ((s ++ t) ++ u = s ++ (t ++ u))%string.
Proof.
  induction s as [|c s IH]; simpl; [reflexivity|]. rewrite IH. reflexivity.
Qed.

Lemma write_labels_cons (sample : list string) (samples : list (list string)) :
  write_labels (sample :: samples)
  = String "[" (String.concat "," sample ++ String "]" (write_labels samples)).
Proof.
  unfold write_labels. cbn [map]. destruct samples as [|s2 samples].
  - cbn [String.concat map]. unfold write_sample. reflexivity.
  - change (String.concat "" (write_sample sample :: map write_sample (s2 :: samples)))
      with (write_sample sample ++ "" ++ String.concat "" (map write_sample (s2 :: samples)))%string.
    unfold write_sample at 1. cbn [append].
    rewrite !string_app_assoc. reflexivity.
Qed.

Lemma shown_sample_not_nil (sample : list string) :
  shown_sample sample = true -> sample <> [].
Proof.
  intros H ->. discriminate H.
Qed.

(** X3: a list of samples written in the notation of the parameter
    [labels], each sample in square brackets with its labels separated by
    commas, is read back by the generator as the same samples with the same
    labels, when the labels hold no bracket and no separator and no sample
    is written as an empty pair of brackets. *)
Theorem X3_labels_read_back (samples_labels : list (list string)) :
  forallb shown_sample samples_labels = true ->
  split_labels (write_labels samples_labels) = samples_labels.
Proof.
  induction samples_labels as [|sample samples IH]; intros H; [reflexivity|].
  cbn [forallb] in H. apply andb_true_iff in H. destruct H as [Hs Hrest].
  pose proof (shown_sample_not_nil sample Hs) as Hne.
  unfold shown_sample in Hs. apply andb_true_iff in Hs. destruct Hs as [Hplain Htext].
  rewrite write_labels_cons. unfold split_labels. cbn [split].
  change (is_any_of "[](){}" "[") with true. cbn iota.
  rewrite split_at_separator;
    [|apply joined_labels_no_bracket; exact Hplain | reflexivity].
  cbn [filter empty negb]. rewrite Htext. cbn [map].
  rewrite (split_joined_labels sample Hne Hplain). f_equal.
  apply IH. exact Hrest.
Qed.

Lemma X3_labels_read_back_witness :
  split_labels (write_labels [["Lys4"; "Arg6"]; ["Lys8"; "Arg10"]])
  = [["Lys4"; "Arg6"]; ["Lys8"; "Arg10"]]
  /\ write_labels [["Lys4"; "Arg6"]; ["Lys8"; "Arg10"]] = "[Lys4,Arg6][Lys8,Arg10]".
Proof.
  split; [|reflexivity].
  apply (X3_labels_read_back [["Lys4"; "Arg6"]; ["Lys8"; "Arg10"]]). reflexivity.
Defined.

(** ** The patterns of the Dimethyl and ICPL modes *)

Lemma at_first_label (sample : list string) :
  sample <> [] -> at_ sample 0 = Ok (first_label sample).
Proof.
  destruct sample; [congruence|]. reflexivity.
Qed.

Lemma dimethyl_pattern_eq (p : Params) (samples_labels : list (list string)) (mc : N) :
  Forall (fun sample => sample <> []) samples_labels ->
  dimethyl_pattern p samples_labels mc
  = Ok (scale (QcofN (u32 (mc + 1))) (label_differences p samples_labels)).
Proof.
  intros Hall. unfold dimethyl_pattern, scale, label_differences.
  rewrite map_map. apply mapM_total. intros sample Hin.
  rewrite Forall_forall in Hall.
  rewrite (at_first_label sample (Hall sample Hin)). cbn [bind].
  destruct samples_labels as [|s0 rest]; [contradiction|].
  cbn [at_ nth_error bind hd].
  rewrite (at_first_label s0 (Hall s0 (or_introl eq_refl))). reflexivity.
Qed.

Lemma upto_length (n : N) : List.length (upto n) = S (N.to_nat n).
Proof.
  unfold upto. rewrite length_map, length_seq. reflexivity.
Qed.

(** X4: in the Dimethyl and the ICPL mode, with known labels, without
    knock-outs and with [missed_cleavages_] below [UINT_MAX], the generator
    returns one pattern for each number of missed cleavages from 0 to
    [missed_cleavages_], [missed_cleavages_ + 1] patterns in all; the
    pattern for [mc] missed cleavages is [mc + 1] times the differences
    between the label mass of each sample and that of the first sample, so
    it has one entry for each sample.  With [missed_cleavages_] at
    [UINT_MAX] the loop over the missed cleavages has no last turn and the
    generator does not return. *)
Theorem X4_dimethyl_patterns (p : Params) (mode : Labelling.mode) :
  Labelling.classify (labels_ p) = Some mode ->
  mode = Labelling.Dimethyl \/ mode = Labelling.ICPL ->
  first_unknown (split_labels (labels_ p)) = None ->
  knock_out_ p = false ->
  ((missed_cleavages_ p < UINT_MAX)%N ->
  let samples_labels := split_labels (labels_ p) in
  let patterns :=
    map (fun mc => scale (QcofN (u32 (mc + 1))) (label_differences p samples_labels))
        (upto (missed_cleavages_ p)) in
  generateMassPatterns_ p = Ok patterns
  /\ List.length patterns = S (N.to_nat (missed_cleavages_ p))
  /\ Forall (fun q => List.length q = List.length samples_labels) patterns)
  /\ ((UINT_MAX <= missed_cleavages_ p)%N -> generateMassPatterns_ p = Diverges).
Proof.
  intros Hmode Hdi Hknown Hko.
  split; [|apply (generateMassPatterns_diverges p mode); assumption].
  intros Hmc samples_labels patterns.
  assert (Hgen : dimethyl_list p samples_labels = Ok patterns).
  { unfold dimethyl_list. rewrite (for_le_ends _ _ Hmc).
    apply mapM_total. intros mc _.
    apply dimethyl_pattern_eq. apply split_labels_samples. }
  split; [|split].
  - unfold generateMassPatterns_. rewrite Hmode, Hknown.
    fold samples_labels.
    assert (He : enumerate p mode samples_labels = Ok patterns).
    { destruct Hdi as [-> | ->]; exact Hgen. }
    rewrite He. cbn [bind]. unfold knock_out. rewrite Hko. cbn [andb].
    unfold patterns, upto. cbn [seq map at_ nth_error bind]. reflexivity.
  - unfold patterns. rewrite length_map. apply upto_length.
  - unfold patterns. apply Forall_map. apply Forall_forall. intros mc _.
    unfold scale, label_differences. rewrite !length_map. reflexivity.
Qed.

Lemma X4_dimethyl_patterns_witness :
  let p := default_params "[Dimethyl0][Dimethyl4][Dimethyl8]" 2 false in
  exists patterns,
    generateMassPatterns_ p = Ok patterns
    /\ List.length patterns = 3
    /\ Forall (fun q => List.length q = 3) patterns.
Proof.
  intros p.
  destruct (X4_dimethyl_patterns p Labelling.Dimethyl eq_refl (or_introl eq_refl)
              eq_refl eq_refl) as [Hends _].
  destruct (Hends eq_refl) as [Hg [Hl Hq]].
  eexists. split; [exact Hg|]. split; [exact Hl | exact Hq].
Defined.

(** ** The patterns of the SILAC mode *)

Lemma somes_length {A : Type} (l : list (option A)) :
  List.length (somes l) <= List.length l.
Proof.
  induction l as [|[a|] l IH]; simpl; lia.
Qed.

Lemma somes_Forall {A : Type} (P : A -> Prop) (l : list (option A)) :
  Forall (fun o => forall a, o = Some a -> P a) l -> Forall P (somes l).
Proof.
  induction 1 as [|[a|] l Ho _ IH]; simpl; [constructor| |exact IH].
  constructor; [apply Ho; reflexivity | exact IH].
Qed.

Lemma silac_sample_nonzero (p : Params) (a l : N) (labels : list string) (x : Qc) :
  silac_sample p a l labels = Some x -> x <> 0%Qc.
Proof.
  unfold silac_sample.
  set (st := fold_left (silac_label p a l) labels _).
  destruct (goAhead_Arg st && goAhead_Lys st); cbn [andb]; [|discriminate].
  destruct (Qc_eqb (mass_shift st) 0%Qc) eqn:E; cbn [negb]; [discriminate|].
  intros H. injection H as <-. intros H0. apply Qc_eqb_eq in H0. congruence.
Qed.

(** The state after the loop over the labels of a sample. *)
Lemma silac_labels_state (p : Params) (a k : N) (labels : list string)
    (st : sample_state) :
  let st' := fold_left (silac_label p a k) labels st in
  mass_shift st' = (mass_shift st + sample_shift p a k labels)%Qc
  /\ goAhead_Arg st'
     = goAhead_Arg st || existsb (fun l => (a =? 0)%N || names_Arg l) labels
  /\ goAhead_Lys st'
     = goAhead_Lys st || existsb (fun l => (k =? 0)%N || names_Lys l) labels.
Proof.
  revert st. induction labels as [|label labels IH]; intros st; cbn zeta.
  - cbn [fold_left existsb]. rewrite !orb_false_r. unfold sample_shift.
    cbn [map Qcsum fold_right]. repeat split. ring.
  - cbn [fold_left existsb].
    destruct (IH (silac_label p a k st label)) as [Hm [Ha Hk]].
    cbn zeta in Hm, Ha, Hk. rewrite Hm, Ha, Hk.
    unfold silac_label. cbn [mass_shift goAhead_Arg goAhead_Lys].
    unfold sample_shift, label_shift, names_Arg, names_Lys, Qcsum.
    cbn [map fold_right]. cbv beta zeta.
    split; [ring|]. split.
    + destruct (goAhead_Arg st), (a =? 0)%N, (find "Arg6" label),
        (find "Arg10" label); reflexivity.
    + destruct (goAhead_Lys st), (k =? 0)%N, (find "Lys4" label),
        (find "Lys6" label), (find "Lys8" label); reflexivity.
Qed.

Lemma existsb_or_const {A : Type} (b : bool) (f : A -> bool) (l : list A) :
  existsb (fun x => b || f x) l
  = if b then negb (List.length l =? 0)%nat else existsb f l.
Proof.
  destruct b; cbn [orb]; [|reflexivity].
  destruct l as [|x l]; [reflexivity|]. reflexivity.
Qed.

(** The entry of one sample: its shift, when the sample is kept. *)
Lemma silac_sample_eq (p : Params) (a k : N) (labels : list string) :
  silac_sample p a k labels
  = if sample_kept p a k labels then Some (sample_shift p a k labels) else None.
Proof.
  unfold silac_sample, sample_kept, labelled_for.
  destruct (silac_labels_state p a k labels
              {| mass_shift := 0%Qc; goAhead_Lys := false; goAhead_Arg := false |})
    as [Hm [Ha Hk]].
  cbn zeta in Hm, Ha, Hk. cbn [mass_shift goAhead_Arg goAhead_Lys orb] in Hm, Ha, Hk.
  rewrite Hm, Ha, Hk, !existsb_or_const, Qcplus_0_l. reflexivity.
Qed.

Lemma silac_pattern_eq (p : Params) (samples_labels : list (list string)) (a k : N) :
  silac_pattern p samples_labels a k
  = 0%Qc :: map (sample_shift p a k) (filter (sample_kept p a k) samples_labels).
Proof.
  unfold silac_pattern. f_equal.
  induction samples_labels as [|s samples IH]; [reflexivity|].
  cbn [map somes filter]. rewrite silac_sample_eq.
  destruct (sample_kept p a k s); cbn [somes map]; rewrite IH; reflexivity.
Qed.

Lemma silac_turn_eq (p : Params) (samples_labels : list (list string)) (a k : N) :
  silac_turn p samples_labels a k = silac_expected p samples_labels a k.
Proof.
  unfold silac_turn, silac_expected. cbn zeta.
  destruct (u32 (a + k) <=? u32 (missed_cleavages_ p + 1))%N; [|reflexivity].
  rewrite silac_pattern_eq.
  destruct (filter (sample_kept p a k) samples_labels); reflexivity.
Qed.

Lemma silac_list_shape (p : Params) (samples_labels : list (list string))
    (l : list MassPattern) :
  silac_list p samples_labels = Ok l ->
  Forall (silac_shape (List.length samples_labels)) l.
Proof.
  intros H. apply silac_list_Ok in H. destruct H as [_ ->].
  apply Forall_forall. intros q Hq.
  apply in_flat_map in Hq. destruct Hq as [a [_ Hq]].
  apply in_flat_map in Hq. destruct Hq as [k [_ Hq]].
  apply silac_turn_cases in Hq. destruct Hq as [-> [_ E]].
  unfold silac_shape. split; [|split].
  - split; [lia|]. unfold silac_pattern. cbn [List.length].
    pose proof (somes_length (map (silac_sample p a k) samples_labels)) as H.
    rewrite length_map in H. lia.
  - reflexivity.
  - unfold silac_pattern. cbn [tl]. apply somes_Forall. apply Forall_map.
    apply Forall_forall. intros labels _ x Hx.
    apply (silac_sample_nonzero p a k labels x Hx).
Qed.

(** X5: in the SILAC mode without knock-outs the returned list holds, for
    the numbers [a] of Arg from 0 to [missed_cleavages_ + 1] and, within
    each, for the numbers [k] of Lys from 0 to [missed_cleavages_ + 1], with
    [a + k] at most [missed_cleavages_ + 1], the pattern of 0 followed by
    the shifts of the samples that are kept, in the order of the samples.  A
    sample is kept when its shift is not 0 and when, for each of the two
    amino acids, it has a label that names the amino acid if the peptide
    holds it, and a label of any kind if not; when no sample is kept there
    is no pattern.  So every pattern starts at 0, has at least one more
    entry and at most one for each sample, and none of these entries is 0.
    The generator returns only if [missed_cleavages_ + 1], computed in
    [unsigned], is below [UINT_MAX]. *)
Theorem X5_silac_patterns (p : Params) (l : list MassPattern) :
  Labelling.classify (labels_ p) = Some Labelling.SILAC ->
  knock_out_ p = false ->
  generateMassPatterns_ p = Ok l ->
  let samples_labels := split_labels (labels_ p) in
  let bound := u32 (missed_cleavages_ p + 1) in
  (bound < UINT_MAX)%N
  /\ l = flat_map (fun a => flat_map (silac_expected p samples_labels a) (upto bound))
                   (upto bound)
  /\ Forall (silac_shape (List.length samples_labels)) l
  /\ (forall a k sample,
        (a <> 0%N /\ existsb names_Arg sample = false)
        \/ (k <> 0%N /\ existsb names_Lys sample = false) ->
        sample_kept p a k sample = false).
Proof.
  intros Hmode Hko H samples_labels bound.
  unfold generateMassPatterns_ in H. rewrite Hmode in H.
  destruct (first_unknown (split_labels (labels_ p))); [discriminate|].
  cbn [enumerate] in H. unfold knock_out in H. inv_bind H. inv_bind H.
  rewrite Hko in H. cbn [andb] in H. injection H as <-.
  fold samples_labels in Ha.
  pose proof (silac_list_shape p samples_labels a Ha) as Hshape.
  apply silac_list_Ok in Ha. fold bound in Ha. destruct Ha as [Hb Ha].
  split; [exact Hb|]. split; [|split; [exact Hshape|]].
  - rewrite Ha. apply flat_map_ext. intros x. apply flat_map_ext. intros y.
    apply silac_turn_eq.
  - intros x y sample [[Hx Hs]|[Hy Hs]]; unfold sample_kept, labelled_for.
    + apply N.eqb_neq in Hx. rewrite Hx, Hs. reflexivity.
    + apply N.eqb_neq in Hy. rewrite Hy, Hs. apply andb_false_iff. left.
      apply andb_false_r.
Qed.

Lemma X5_silac_patterns_witness :
  exists l,
    generateMassPatterns_ (default_params "[Lys4][Lys8,Arg10]" 1 false) = Ok l
    /\ map (@List.length Qc) l = [3; 3; 2; 2; 2]
    /\ Forall (silac_shape 2) l.
Proof.
  eexists. split; [vm_compute; reflexivity|].
  split; [vm_compute; reflexivity|].
  refine (proj1 (proj2 (proj2
            (X5_silac_patterns (default_params "[Lys4][Lys8,Arg10]" 1 false) _
               eq_refl eq_refl _)))).
  vm_compute. reflexivity.
Defined.

(** ** Where the knock-out expansion applies *)

Lemma knock_out_other_arities (p : Params) (first : MassPattern)
    (rest : list MassPattern) :
  List.length first < 2 \/ 4 < List.length first ->
  knock_out p (first :: rest) = Ok (first :: rest).
Proof.
  intros H. unfold knock_out. cbn [at_ nth_error bind].
  destruct (List.length first =? 4)%nat eqn:E4; [apply Nat.eqb_eq in E4; lia|].
  destruct (List.length first =? 3)%nat eqn:E3; [apply Nat.eqb_eq in E3; lia|].
  destruct (List.length first =? 2)%nat eqn:E2; [apply Nat.eqb_eq in E2; lia|].
  rewrite !andb_false_r. reflexivity.
Qed.

Lemma dimethyl_list_eq (p : Params) (labels : string) :
  (missed_cleavages_ p < UINT_MAX)%N ->
  dimethyl_list p (split_labels labels)
  = Ok (map (fun mc => scale (QcofN (u32 (mc + 1)))
                             (label_differences p (split_labels labels)))
            (upto (missed_cleavages_ p))).
Proof.
  intros Hmc. unfold dimethyl_list. rewrite (for_le_ends _ _ Hmc).
  apply mapM_total. intros mc _.
  apply dimethyl_pattern_eq. apply split_labels_samples.
Qed.

(** X6: the knock-out expansion knows the arities 2, 3 and 4 only.  In the
    Dimethyl and the ICPL mode with one sample, or with more than four, and
    with [missed_cleavages_] below [UINT_MAX], so that the enumeration ends,
    the generator returns the patterns of the enumeration as they are, with
    [knock_out_] set or not: no pattern is added, not even the singlet. *)
Theorem X6_knock_out_other_arities (p : Params) (mode : Labelling.mode) :
  Labelling.classify (labels_ p) = Some mode ->
  mode = Labelling.Dimethyl \/ mode = Labelling.ICPL ->
  first_unknown (split_labels (labels_ p)) = None ->
  (missed_cleavages_ p < UINT_MAX)%N ->
  List.length (split_labels (labels_ p)) < 2
  \/ 4 < List.length (split_labels (labels_ p)) ->
  generateMassPatterns_ p
  = Ok (map (fun mc => scale (QcofN (u32 (mc + 1)))
                             (label_differences p (split_labels (labels_ p))))
            (upto (missed_cleavages_ p))).
Proof.
  intros Hmode Hdi Hknown Hmc Hn. unfold generateMassPatterns_.
  rewrite Hmode, Hknown.
  assert (He : enumerate p mode (split_labels (labels_ p))
               = dimethyl_list p (split_labels (labels_ p)))
    by (destruct Hdi as [-> | ->]; reflexivity).
  rewrite He, (dimethyl_list_eq p _ Hmc). cbn [bind].
  unfold upto. cbn [seq map]. apply knock_out_other_arities.
  unfold scale, label_differences. rewrite !length_map. exact Hn.
Qed.

Lemma X6_knock_out_other_arities_witness :
  let p := default_params "[ICPL0][ICPL4][ICPL6][ICPL10][ICPL4]" 0 true in
  generateMassPatterns_ p
  = Ok (map (fun mc => scale (QcofN (u32 (mc + 1)))
                             (label_differences p (split_labels (labels_ p))))
            (upto (missed_cleavages_ p))).
Proof.
  intros p. apply (X6_knock_out_other_arities p Labelling.ICPL).
  - reflexivity.
  - right. reflexivity.
  - reflexivity.
  - reflexivity.
  - right. vm_compute. lia.
Defined.





(** ** The peak patterns *)

Lemma flat_map_nth_error {A B : Type} (f : A -> list B) (m : nat) (l : list A) :
  (forall a, List.length (f a) = m) ->
  forall ci j, j < m ->
  nth_error (flat_map f l) (ci * m + j)
  = match nth_error l ci with
    | Some a => nth_error (f a) j
    | None => None
    end.
Proof.
  intros Hlen. induction l as [|a l IH]; intros ci j Hj.
  - cbn [flat_map]. destruct ci, (_ + j); reflexivity.
  - cbn [flat_map]. destruct ci as [|ci].
    + cbn [Nat.mul Nat.add nth_error]. apply nth_error_app1. rewrite Hlen. exact Hj.
    + cbn [nth_error]. rewrite nth_error_app2 by (rewrite Hlen; simpl; lia).
      rewrite Hlen. replace (S ci * m + j - m) with (ci * m + j) by (simpl; lia).
      apply IH. exact Hj.
Qed.

Lemma flat_map_length_const {A B : Type} (f : A -> list B) (m : nat) (l : list A) :
  (forall a, List.length (f a) = m) ->
  List.length (flat_map f l) = List.length l * m.
Proof.
  intros Hlen. induction l as [|a l IH]; simpl; [reflexivity|].
  rewrite length_app, Hlen, IH. reflexivity.
Qed.

Lemma indexed_nth_error {A : Type} (l : list A) (i : nat) (a : A) :
  nth_error l i = Some a ->
  nth_error (combine (seq 0 (List.length l)) l) i = Some (i, a).
Proof.
  intros H.
  assert (Hi : i < List.length l) by (apply nth_error_Some; congruence).
  assert (Hgen : forall (l : list A) k i a,
             nth_error l i = Some a ->
             nth_error (combine (seq k (List.length l)) l) i = Some (k + i, a)).
  { clear. induction l as [|x l IH]; intros k i a H; [destruct i; discriminate|].
    destruct i as [|i]; cbn [List.length seq combine nth_error] in *.
    - injection H as <-. rewrite Nat.add_0_r. reflexivity.
    - rewrite (IH (S k) i a H). f_equal. f_equal. lia. }
  apply (Hgen l 0 i a H).
Qed.

(** X9: for charges that are values of [int], none of them [INT_MIN] for
    [charge_min], and at most [UINT_MAX] mass patterns,
    [generatePeakPatterns_] returns one pattern for each charge from
    [charge_max] down to [charge_min] and each mass pattern: the patterns of
    the highest charge come first, within one charge the patterns keep the
    order of the mass patterns, and each pattern records its charge, the
    number of peaks, its mass pattern and the index of the mass pattern.
    When [charge_max] is below [charge_min] there is no pattern.  With
    [charge_min] at [INT_MIN] the loop over the charges cannot end: the
    decrement of the charge [INT_MIN] overflows. *)
Theorem X9_peak_patterns (charge_min charge_max peaksPerPeptideMax : Z)
    (massPatternList : list MassPattern) :
  (INT_MIN <= charge_min <= INT_MAX)%Z ->
  (INT_MIN <= charge_max <= INT_MAX)%Z ->
  (N.of_nat (List.length massPatternList) <= UINT_MAX)%N ->
  let m := List.length massPatternList in
  (charge_min <> INT_MIN ->
   exists patterns,
     generatePeakPatterns_ charge_min charge_max peaksPerPeptideMax massPatternList
     = Ok patterns
     /\ List.length patterns = Z.to_nat (charge_max - charge_min + 1) * m
     /\ forall (k i : nat) (q : MassPattern),
          (charge_min <= charge_max - Z.of_nat k)%Z ->
          nth_error massPatternList i = Some q ->
          nth_error patterns (k * m + i)
          = Some (peak_pattern (charge_max - Z.of_nat k) peaksPerPeptideMax i q))
  /\ (charge_min = INT_MIN ->
      generatePeakPatterns_ charge_min charge_max peaksPerPeptideMax massPatternList
      = Undefined).
Proof.
  intros Hmin Hmax Hsize m. unfold generatePeakPatterns_, for_lt.
  apply N.leb_le in Hsize. rewrite Hsize. cbn [bind]. split.
  - intros Hne. apply Z.eqb_neq in Hne. rewrite Hne.
    destruct (charge_max <? charge_min)%Z eqn:Elt.
    { apply Z.ltb_lt in Elt. exists []. split; [reflexivity|]. split.
      - replace (Z.to_nat (charge_max - charge_min + 1)) with 0 by lia. reflexivity.
      - intros k i q Hk _. lia. }
    eexists. split; [reflexivity|].
    set (f := fun c : Z =>
                map (fun im : nat * MassPattern =>
                       {| getCharge := c; getPeaksPerPeptide := peaksPerPeptideMax;
                          getMassShifts := snd im; getMassShiftIndex := fst im |})
                    (combine (seq 0 (List.length massPatternList)) massPatternList)).
    assert (Hlen : forall c, List.length (f c) = m).
    { intros c. unfold f. rewrite length_map, length_combine, length_seq.
      apply Nat.min_id. }
    split.
    + rewrite (flat_map_length_const f m _ Hlen).
      unfold charges_down. rewrite length_map, length_seq. reflexivity.
    + intros k i q Hk Hq.
      assert (Hi : i < m) by (apply nth_error_Some; congruence).
      rewrite (flat_map_nth_error f m _ Hlen k i Hi).
      unfold charges_down.
      rewrite nth_error_map, nth_error_seq.
      destruct (k <? Z.to_nat (charge_max - charge_min + 1)) eqn:E;
        [|apply Nat.ltb_ge in E; lia].
      cbn [option_map Nat.add]. unfold f. rewrite nth_error_map.
      rewrite (indexed_nth_error massPatternList i q Hq). reflexivity.
  - intros ->. destruct (charge_max <? INT_MIN)%Z eqn:Elt;
      [apply Z.ltb_lt in Elt; lia | reflexivity].
Qed.

Lemma X9_peak_patterns_witness :
  (exists patterns,
     generatePeakPatterns_ 1 4 6 [[0%Qc]; [0%Qc; dec 4 1]] = Ok patterns
     /\ nth_error patterns (1 * 2 + 1) = Some (peak_pattern 3 6 1 [0%Qc; dec 4 1]))
  /\ generatePeakPatterns_ INT_MIN 4 6 [[0%Qc]; [0%Qc; dec 4 1]] = Undefined.
Proof.
  split.
  - destruct (proj1 (X9_peak_patterns 1 4 6 [[0%Qc]; [0%Qc; dec 4 1]]
                       ltac:(unfold INT_MIN, INT_MAX; lia)
                       ltac:(unfold INT_MIN, INT_MAX; lia)
                       ltac:(vm_compute; discriminate))
                ltac:(discriminate)) as [patterns [Hp [_ Hnth]]].
    exists patterns. split; [exact Hp|].
    apply (Hnth 1 1); [simpl; lia | reflexivity].
  - apply (proj2 (X9_peak_patterns INT_MIN 4 6 [[0%Qc]; [0%Qc; dec 4 1]]
                    ltac:(unfold INT_MIN, INT_MAX; lia)
                    ltac:(unfold INT_MIN, INT_MAX; lia)
                    ltac:(vm_compute; discriminate))).
    reflexivity.
Defined.

(** ** Vectors of unequal size in the regression *)


(** ** The regression of finite observations *)





















(** ** The outcomes of getPeptideIntensities *)



(** ** A sample without a light intensity *)







(** ** The maps of a run *)

Lemma foldM_measure {A B : Type} (f : A -> B -> result A) (mu : A -> nat)
    (w : B -> nat) :
  (forall a b a', f a b = Ok a' -> mu a' = mu a + w b) ->
  forall l a a', foldM f l a = Ok a' -> mu a' = mu a + list_sum (map w l).
Proof.
  intros Hf l. induction l as [|b l IH]; intros a a' H; cbn [foldM] in H.
  - injection H as <-. simpl. lia.
  - inv_bind H. rewrite (IH _ _ H), (Hf _ _ _ Ha). simpl. lia.
Qed.

Lemma foldM_each {A B : Type} (f : A -> B -> result A) (P : B -> Prop) :
  (forall a b a', f a b = Ok a' -> P b) ->
  forall l a a', foldM f l a = Ok a' -> Forall P l.
Proof.
  intros Hf l. induction l as [|b l IH]; intros a a' H; cbn [foldM] in H.
  - constructor.
  - inv_bind H. constructor; [eapply Hf | eapply IH]; eassumption.
Qed.

Lemma cluster_features_members (p : Params) (pattern : MultiplexPeakPattern)
    (filter_result : MultiplexFilterResult) (cluster : GridBasedCluster)
    (consensus : ConsensusFeature) (features : list Feature) :
  cluster_features p pattern filter_result cluster = Ok (consensus, features) ->
  List.length features = getMassShiftCount pattern
  /\ map handle_MapIndex (consensus_Features consensus)
     = seq 0 (getMassShiftCount pattern)
  /\ consensus_Charge consensus = getCharge pattern
  /\ Forall (fun h => handle_Charge h = getCharge pattern)
            (consensus_Features consensus)
  /\ Forall (fun f => feature_Charge f = getCharge pattern) features
  /\ map handle_Intensity (consensus_Features consensus)
     = map feature_Intensity features.
Proof.
  intros H. unfold cluster_features in H. do 7 inv_bind H. injection H as <- <-.
  cbn [consensus_Features consensus_Charge].
  set (n := getMassShiftCount pattern) in *.
  assert (Hmem : forall peptides members,
             mapM (fun peptide =>
                     smz <- at_ (sum_intensity_mz a) peptide ;;
                     srt <- at_ (sum_intensity_rt a) peptide ;;
                     si <- at_ (sum_intensity a) peptide ;;
                     intensity <- at_ a0 peptide ;;
                     overall <- quality_score (Z.of_nat (List.length (getPoints cluster))) ;;
                     Ok ({| handle_MZ := ddiv smz si; handle_RT := ddiv srt si;
                            handle_Intensity := intensity;
                            handle_Charge := getCharge pattern;
                            handle_MapIndex := peptide |},
                         {| feature_MZ := ddiv smz si; feature_RT := ddiv srt si;
                            feature_Intensity := intensity;
                            feature_Charge := getCharge pattern;
                            feature_OverallQuality := overall |}))
                  peptides = Ok members ->
             map handle_MapIndex (map fst members) = peptides
             /\ Forall (fun h => handle_Charge h = getCharge pattern) (map fst members)
             /\ Forall (fun f => feature_Charge f = getCharge pattern) (map snd members)
             /\ map handle_Intensity (map fst members)
                = map feature_Intensity (map snd members)).
  { induction peptides as [|k peptides IH]; intros members Hm; cbn [mapM] in Hm.
    - injection Hm as <-. repeat split; constructor.
    - inv_bind Hm. inv_bind Hm. injection Hm as <-.
      do 5 inv_bind Ha6. injection Ha6 as <-.
      destruct (IH _ Ha7) as [H1 [H2 [H3 H4]]]. cbn [map fst snd].
      repeat split.
      + cbn [handle_MapIndex]. f_equal. exact H1.
      + constructor; [reflexivity | exact H2].
      + constructor; [reflexivity | exact H3].
      + cbn [handle_Intensity feature_Intensity]. f_equal. exact H4. }
  destruct (Hmem _ _ Ha5) as [H1 [H2 [H3 H4]]].
  split; [rewrite length_map, (mapM_length _ _ _ Ha5), length_seq; reflexivity|].
  repeat split; assumption.
Qed.

(** X16: the consensus feature of a cluster holds one feature handle for
    each mass shift of the pattern, with the map indices 0, 1, 2, ... in
    this order; one feature is made for each handle, with the same
    intensity, and the consensus feature, its handles and the features all
    carry the charge of the pattern. *)
Theorem X16_members_of_a_consensus (p : Params) (pattern : MultiplexPeakPattern)
    (filter_result : MultiplexFilterResult) (cluster : GridBasedCluster)
    (consensus : ConsensusFeature) (features : list Feature) :
  cluster_features p pattern filter_result cluster = Ok (consensus, features) ->
  List.length features = getMassShiftCount pattern
  /\ map handle_MapIndex (consensus_Features consensus)
     = seq 0 (getMassShiftCount pattern)
  /\ consensus_Charge consensus = getCharge pattern
  /\ Forall (fun h => handle_Charge h = getCharge pattern)
            (consensus_Features consensus)
  /\ Forall (fun f => feature_Charge f = getCharge pattern) features
  /\ map handle_Intensity (consensus_Features consensus)
     = map feature_Intensity features.
Proof.
  apply cluster_features_members.
Qed.

Lemma X16_members_of_a_consensus_witness :
  exists consensus features,
    cluster_features (default_params "[][Lys8]" 0 true) doublet_pattern
      [point_at 100; point_at 101] two_points = Ok (consensus, features)
    /\ List.length features = 2
    /\ map handle_MapIndex (consensus_Features consensus) = [0; 1].
Proof.
  eexists. eexists. split; [vm_compute; reflexivity|].
  match goal with
  | |- List.length ?fs = _ /\ map _ (consensus_Features ?c) = _ =>
      destruct (X16_members_of_a_consensus (default_params "[][Lys8]" 0 true)
                  doublet_pattern [point_at 100; point_at 101] two_points c fs)
        as [H1 [H2 _]]; [vm_compute; reflexivity|]
  end.
  split; [exact H1 | exact H2].
Defined.

Lemma add_cluster_counts (p : Params) (pattern : MultiplexPeakPattern)
    (filter_result : MultiplexFilterResult) (maps maps' : ConsensusMap * FeatureMap)
    (cluster : Z * GridBasedCluster) :
  add_cluster p pattern filter_result maps cluster = Ok maps' ->
  List.length (consensus_features (fst maps'))
  = List.length (consensus_features (fst maps)) + 1
  /\ List.length (snd maps') = List.length (snd maps) + getMassShiftCount pattern.
Proof.
  unfold add_cluster. intros H. inv_bind H. injection H as <-.
  destruct a as [consensus features].
  destruct (cluster_features_members _ _ _ _ _ _ Ha) as [Hlen _].
  cbn [fst snd consensus_features]. rewrite !length_app, Hlen. simpl. lia.
Qed.

Lemma nth_of_nth_error {A : Type} (l : list A) (i : nat) (a d : A) :
  nth_error l i = Some a -> nth i l d = a.
Proof.
  intros H. apply nth_error_nth. exact H.
Qed.

Lemma add_pattern_counts (p : Params) (patterns : list MultiplexPeakPattern)
    (filter_results : list MultiplexFilterResult) (cluster_results : list cluster_map)
    (maps maps' : ConsensusMap * FeatureMap) (i : nat) :
  add_pattern p patterns filter_results cluster_results maps i = Ok maps' ->
  List.length (consensus_features (fst maps'))
  = List.length (consensus_features (fst maps))
    + List.length (nth i cluster_results [])
  /\ List.length (snd maps')
     = List.length (snd maps)
       + List.length (nth i cluster_results []) * mass_shift_count_at patterns i.
Proof.
  unfold add_pattern. intros H. inv_bind H.
  unfold at_ in Ha. destruct (nth_error cluster_results i) as [clusters|] eqn:E;
    [|discriminate].
  injection Ha as <-.
  assert (Hn : nth i cluster_results [] = clusters) by (apply nth_error_nth; exact E).
  rewrite Hn.
  assert (Hones : forall (k : nat) (l : cluster_map),
             list_sum (map (fun _ => k) l) = List.length l * k).
  { intros k l. induction l as [|c l IHl]; simpl; [reflexivity | rewrite IHl; lia]. }
  split.
  - pose proof (foldM_measure
                  (fun maps cluster =>
                     pat <- at_ patterns i ;;
                     filter_result <- at_ filter_results i ;;
                     add_cluster p pat filter_result maps cluster)
                  (fun m => List.length (consensus_features (fst m)))
                  (fun _ => 1)) as Hm.
    cbv beta in Hm. rewrite (Hm ltac:(intros m c m' Hc; do 2 inv_bind Hc;
                                     apply (add_cluster_counts _ _ _ _ _ _ Hc))
                               clusters maps maps' H).
    rewrite Hones. lia.
  - pose proof (foldM_measure
                  (fun maps cluster =>
                     pat <- at_ patterns i ;;
                     filter_result <- at_ filter_results i ;;
                     add_cluster p pat filter_result maps cluster)
                  (fun m => List.length (snd m))
                  (fun _ => mass_shift_count_at patterns i)) as Hm.
    cbv beta in Hm.
    rewrite (Hm ltac:(intros m c m' Hc; do 2 inv_bind Hc;
                      unfold mass_shift_count_at; unfold at_ in Ha;
                      destruct (nth_error patterns i); [|discriminate];
                      injection Ha as <-;
                      apply (add_cluster_counts _ _ _ _ _ _ Hc))
                clusters maps maps' H).
    rewrite Hones. reflexivity.
Qed.

(** A relation that every step of a fold keeps, and that is reflexive and
    transitive, holds from the start to the end of the fold. *)
Lemma foldM_relates {A B : Type} (f : A -> B -> result A) (R : A -> A -> Prop) :
  (forall a, R a a) ->
  (forall a b c, R a b -> R b c -> R a c) ->
  (forall a b a', f a b = Ok a' -> R a a') ->
  forall l a a', foldM f l a = Ok a' -> R a a'.
Proof.
  intros Hrefl Htrans Hf l. induction l as [|b l IH]; intros a a' H; cbn [foldM] in H.
  - injection H as <-. apply Hrefl.
  - inv_bind H. apply (Htrans a a0 a'); [apply (Hf _ _ _ Ha) | apply (IH _ _ H)].
Qed.

(** The maps [m'] hold what the maps [m] hold, followed by more. *)
Lemma extends_refl (m : ConsensusMap * FeatureMap) :
  (exists c, consensus_features (fst m) = consensus_features (fst m) ++ c)
  /\ (exists f, snd m = snd m ++ f).
Proof.
  split; exists []; symmetry; apply app_nil_r.
Qed.

Lemma add_pattern_extends (p : Params) (patterns : list MultiplexPeakPattern)
    (filter_results : list MultiplexFilterResult) (cluster_results : list cluster_map)
    (maps maps' : ConsensusMap * FeatureMap) (i : nat) :
  add_pattern p patterns filter_results cluster_results maps i = Ok maps' ->
  (exists c, consensus_features (fst maps') = consensus_features (fst maps) ++ c)
  /\ (exists f, snd maps' = snd maps ++ f).
Proof.
  unfold add_pattern. intros H. inv_bind H. revert H.
  apply (foldM_relates _
           (fun m m' : ConsensusMap * FeatureMap =>
              (exists c, consensus_features (fst m')
                         = consensus_features (fst m) ++ c)
              /\ (exists f, snd m' = snd m ++ f))).
  - apply extends_refl.
  - intros m1 m2 m3 [[c1 Hc1] [f1 Hf1]] [[c2 Hc2] [f2 Hf2]]. split.
    + exists (c1 ++ c2). rewrite Hc2, Hc1, app_assoc. reflexivity.
    + exists (f1 ++ f2). rewrite Hf2, Hf1, app_assoc. reflexivity.
  - intros m cluster m' Hc. do 2 inv_bind Hc. unfold add_cluster in Hc.
    inv_bind Hc. injection Hc as <-. cbn [fst snd consensus_features].
    split; eexists; reflexivity.
Qed.

(** X17: when [generateMaps_] returns, what the two maps held before is
    kept, in its order and at the front: the consensus map has gained, after
    it, one consensus feature for each cluster of each pattern, and the
    feature map one feature for each cluster and each mass shift of its
    pattern. *)
Theorem X17_sizes_of_the_maps (p : Params) (patterns : list MultiplexPeakPattern)
    (filter_results : list MultiplexFilterResult) (cluster_results : list cluster_map)
    (consensus_map consensus_map' : ConsensusMap) (feature_map feature_map' : FeatureMap) :
  generateMaps_ p patterns filter_results cluster_results consensus_map feature_map
  = Ok (consensus_map', feature_map') ->
  List.length (consensus_features consensus_map')
  = List.length (consensus_features consensus_map)
    + count_clusters patterns cluster_results
  /\ List.length feature_map'
     = List.length feature_map + count_peptides patterns cluster_results
  /\ (exists added,
        consensus_features consensus_map'
        = consensus_features consensus_map ++ added
        /\ List.length added = count_clusters patterns cluster_results)
  /\ (exists added,
        feature_map' = feature_map ++ added
        /\ List.length added = count_peptides patterns cluster_results).
Proof.
  intros H.
  assert (Hc : List.length (consensus_features consensus_map')
               = List.length (consensus_features consensus_map)
                 + count_clusters patterns cluster_results).
  { unfold generateMaps_, count_clusters in *.
    apply (foldM_measure (add_pattern p patterns filter_results cluster_results)
             (fun m => List.length (consensus_features (fst m)))
             (fun i => List.length (nth i cluster_results []))
             (fun m i m' Hm =>
                proj1 (add_pattern_counts p patterns filter_results cluster_results
                         m m' i Hm))
             _ _ _ H). }
  assert (Hf : List.length feature_map'
               = List.length feature_map + count_peptides patterns cluster_results).
  { unfold generateMaps_, count_peptides in *.
    apply (foldM_measure (add_pattern p patterns filter_results cluster_results)
             (fun m => List.length (snd m))
             (fun i => List.length (nth i cluster_results [])
                       * mass_shift_count_at patterns i)
             (fun m i m' Hm =>
                proj2 (add_pattern_counts p patterns filter_results cluster_results
                         m m' i Hm))
             _ _ _ H). }
  split; [exact Hc|]. split; [exact Hf|].
  assert (Hext : (exists c, consensus_features consensus_map'
                            = consensus_features consensus_map ++ c)
                 /\ (exists f, feature_map' = feature_map ++ f)).
  { unfold generateMaps_ in H. revert H.
    apply (foldM_relates (add_pattern p patterns filter_results cluster_results)
             (fun m m' : ConsensusMap * FeatureMap =>
                (exists c, consensus_features (fst m')
                           = consensus_features (fst m) ++ c)
                /\ (exists f, snd m' = snd m ++ f))).
    - apply extends_refl.
    - intros m1 m2 m3 [[c1 Hc1] [f1 Hf1]] [[c2 Hc2] [f2 Hf2]]. split.
      + exists (c1 ++ c2). rewrite Hc2, Hc1, app_assoc. reflexivity.
      + exists (f1 ++ f2). rewrite Hf2, Hf1, app_assoc. reflexivity.
    - intros m i m'. apply add_pattern_extends. }
  destruct Hext as [[c Hec] [f Hef]]. split.
  - exists c. split; [exact Hec|]. rewrite Hec, length_app in Hc. lia.
  - exists f. split; [exact Hef|]. rewrite Hef, length_app in Hf. lia.
Qed.

Lemma X17_sizes_of_the_maps_witness :
  exists consensus_map feature_map,
    generateMaps_ (default_params "[][Lys8]" 0 true) [doublet_pattern]
      [[point_at 100; point_at 101]] [[(0%Z, two_points); (1%Z, two_points)]]
      earlier_map [earlier_feature]
    = Ok (consensus_map, feature_map)
    /\ List.length (consensus_features consensus_map) = 3
    /\ List.length feature_map = 5
    /\ (exists added,
          consensus_features consensus_map = earlier_consensus :: added
          /\ List.length added = 2)
    /\ (exists added, feature_map = earlier_feature :: added
                      /\ List.length added = 4).
Proof.
  eexists. eexists. split; [vm_compute; reflexivity|].
  match goal with
  | |- List.length (consensus_features ?c) = _ /\ List.length ?f = _ /\ _ =>
      destruct (X17_sizes_of_the_maps (default_params "[][Lys8]" 0 true)
                  [doublet_pattern] [[point_at 100; point_at 101]]
                  [[(0%Z, two_points); (1%Z, two_points)]]
                  earlier_map c [earlier_feature] f)
        as [H1 [H2 [H3 H4]]]; [vm_compute; reflexivity|]
  end.
  split; [exact H1|]. split; [exact H2|]. split; [exact H3 | exact H4].
Defined.

(** ** What generateMaps_ needs *)

Lemma foldM_invariant {A B : Type} (f : A -> B -> result A) (P : A -> Prop) :
  (forall a b a', f a b = Ok a' -> P a') ->
  forall l a a', P a -> foldM f l a = Ok a' -> P a'.
Proof.
  intros Hf l. induction l as [|b l IH]; intros a a' Ha H; cbn [foldM] in H.
  - injection H as <-. exact Ha.
  - inv_bind H. apply (IH _ _ (Hf _ _ _ Ha0) H).
Qed.

Lemma add_point_profile (p : Params) (n : nat) (filter_result : MultiplexFilterResult)
    (a a' : cluster_sums) (index : nat) :
  add_point p n filter_result a index = Ok a' ->
  List.length (profile_intensities a') = n
  /\ index < List.length filter_result.
Proof.
  unfold add_point. intros H. do 5 inv_bind H. injection H as <-.
  cbn [profile_intensities]. split.
  - rewrite (mapM_length _ _ _ Ha3), length_seq. reflexivity.
  - unfold at_ in Ha. destruct (nth_error filter_result index) eqn:E; [|discriminate].
    apply nth_error_Some. congruence.
Qed.

Lemma cluster_features_needs (p : Params) (pattern : MultiplexPeakPattern)
    (filter_result : MultiplexFilterResult) (cluster : Z * GridBasedCluster)
    (r : ConsensusFeature * list Feature) :
  cluster_features p pattern filter_result (snd cluster) = Ok r ->
  usable_cluster pattern filter_result cluster.
Proof.
  intros H. unfold cluster_features in H. do 6 inv_bind H. clear H.
  unfold usable_cluster. split; [|split].
  - intros Hnil. rewrite Hnil in Ha4. discriminate Ha4.
  - apply (foldM_each
             (add_point p (getMassShiftCount pattern) filter_result)
             (fun index => index < List.length filter_result)
             (fun s index s' Hs =>
                proj2 (add_point_profile p _ filter_result s s' index Hs))
             _ _ _ Ha).
  - assert (Hlen : List.length (profile_intensities a) = getMassShiftCount pattern).
    { apply (foldM_invariant
               (add_point p (getMassShiftCount pattern) filter_result)
               (fun s => List.length (profile_intensities s)
                         = getMassShiftCount pattern)
               (fun s index s' Hs =>
                  proj1 (add_point_profile p _ filter_result s s' index Hs))
               (getPoints (snd cluster)) (init_sums (getMassShiftCount pattern)) a
               (repeat_length [] (getMassShiftCount pattern)) Ha). }
    destruct (profile_intensities a) as [|v vs]; [discriminate Ha0|].
    rewrite <- Hlen. simpl. lia.
Qed.

(** X18: [generateMaps_] returns only if there is a map of clusters for
    every pattern and every cluster of every pattern has at least one point
    (the quality divides by the number of points), has only points that are
    indices of the filter result of its pattern, and belongs to a pattern
    with at least one mass shift. *)
Theorem X18_generateMaps_needs (p : Params) (patterns : list MultiplexPeakPattern)
    (filter_results : list MultiplexFilterResult) (cluster_results : list cluster_map)
    (consensus_map : ConsensusMap) (feature_map : FeatureMap)
    (maps : ConsensusMap * FeatureMap) :
  generateMaps_ p patterns filter_results cluster_results consensus_map feature_map
  = Ok maps ->
  List.length patterns <= List.length cluster_results
  /\ forall (i : nat) (pattern : MultiplexPeakPattern) (cluster : Z * GridBasedCluster),
       nth_error patterns i = Some pattern ->
       In cluster (nth i cluster_results []) ->
       exists filter_result,
         nth_error filter_results i = Some filter_result
         /\ usable_cluster pattern filter_result cluster.
Proof.
  unfold generateMaps_. intros H.
  assert (Hall : Forall (fun i =>
              exists clusters, nth_error cluster_results i = Some clusters
                /\ Forall (fun cluster =>
                     exists pattern filter_result,
                       nth_error patterns i = Some pattern
                       /\ nth_error filter_results i = Some filter_result
                       /\ usable_cluster pattern filter_result cluster) clusters)
            (seq 0 (List.length patterns))).
  { revert H. apply foldM_each. intros m i m' Hm. unfold add_pattern in Hm.
    inv_bind Hm. unfold at_ in Ha.
    destruct (nth_error cluster_results i) as [clusters|]; [|discriminate].
    injection Ha as <-. exists clusters. split; [reflexivity|].
    revert Hm. apply foldM_each. intros m1 cluster m2 Hc. do 2 inv_bind Hc.
    unfold at_ in Ha, Ha0.
    destruct (nth_error patterns i) as [pattern|]; [|discriminate].
    destruct (nth_error filter_results i) as [filter_result|]; [|discriminate].
    injection Ha as <-. injection Ha0 as <-.
    exists pattern, filter_result. split; [reflexivity|]. split; [reflexivity|].
    unfold add_cluster in Hc. inv_bind Hc.
    apply (cluster_features_needs _ _ _ _ _ Ha). }
  rewrite Forall_forall in Hall. split.
  - destruct (List.length patterns) as [|k] eqn:Ek; [lia|].
    destruct (Hall k) as [clusters [Hk _]]; [apply in_seq; lia|].
    assert (k < List.length cluster_results) by (apply nth_error_Some; congruence).
    lia.
  - intros i pattern cluster Hp Hin.
    assert (Hi : i < List.length patterns) by (apply nth_error_Some; congruence).
    destruct (Hall i) as [clusters [Hc Hcl]]; [apply in_seq; lia|].
    assert (Hn : nth i cluster_results [] = clusters)
      by (apply nth_error_nth; exact Hc).
    rewrite Hn in Hin.
    rewrite Forall_forall in Hcl.
    destruct (Hcl cluster Hin) as [pattern' [filter_result [Hp' [Hf Hu]]]].
    exists filter_result. split; [exact Hf|]. congruence.
Qed.

Lemma X18_generateMaps_needs_witness :
  exists filter_result,
    nth_error [[point_at 100; point_at 101]] 0 = Some filter_result
    /\ usable_cluster doublet_pattern filter_result (0%Z, two_points).
Proof.
  destruct (generateMaps_ (default_params "[][Lys8]" 0 true) [doublet_pattern]
              [[point_at 100; point_at 101]] [[(0%Z, two_points)]]
              empty_ConsensusMap []) as [maps| | |] eqn:E;
    [|vm_compute in E; discriminate E | vm_compute in E; discriminate E
     |vm_compute in E; discriminate E].
  apply (proj2 (X18_generateMaps_needs _ _ _ _ _ _ _ E) 0 doublet_pattern
           (0%Z, two_points)).
  - reflexivity.
  - left. reflexivity.
Defined.

(** ** The run *)



(** X20: [main_] returns no exit code other than [EXECUTION_OK]; when it
    returns, the label string has been accepted and exactly two files have
    been stored, the consensus map under [out_] and then the feature map
    under [out_features_].  When the peak picker returns and the label
    string is rejected, [main_] fails with the error of the pattern
    generator, before filtering, and stores nothing. *)
Theorem X20_main_outcomes (lib : Library) (p : Params)
    (loaded : Experiment (Ranges lib)) :
  (forall code files,
     main_ lib p loaded = Ok (code, files) ->
     code = EXECUTION_OK
     /\ (exists masses, generateMassPatterns_ p = Ok masses)
     /\ exists consensus_map feature_map,
          files = [ConsensusXML (out_ p) consensus_map;
                   FeatureXML (out_features_ p) feature_map])
  /\ (forall e,
        is_ok (pickExperiment lib
                 (sortSpectra lib (extract_level_1 (updateRanges lib loaded))))
        = true ->
        generateMassPatterns_ p = Throw e ->
        main_ lib p loaded = Throw e).
Proof.
  split.
  - intros code files H. unfold main_ in H. do 6 inv_bind H.
    injection H as <- <-. split; [reflexivity|]. split; [exists a0; exact Ha0|].
    eexists. eexists. reflexivity.
  - intros e Hpick Hgen. unfold main_.
    destruct (pickExperiment lib _); try discriminate. cbn [bind].
    rewrite Hgen. reflexivity.
Qed.

Lemma X20_main_outcomes_witness :
  main_ quiet_library (default_params "[][]" 0 true) no_ms1
  = Throw unknown_labelling.
Proof.
  apply (proj2 (X20_main_outcomes quiet_library (default_params "[][]" 0 true) no_ms1)).
  - reflexivity.
  - reflexivity.
Defined.

(** ** FeaFiModule: stepping through the peaks of a scan *)

Lemma corrupt_index_checked (map : FeaFi.Map) (index : FeaFi.IndexPair) :
  FeaFi.corrupt_index true map index = None <-> FeaFi.valid map index = true.
Proof.
  unfold FeaFi.corrupt_index, FeaFi.valid. cbn [negb].
  destruct (fst index <? List.length map) eqn:E; cbn [negb].
  - destruct (nth_error map (fst index)) as [s|]; [|split; discriminate].
    destruct (snd index <? List.length (FeaFi.peaks s)); split; congruence.
  - apply Nat.ltb_ge in E. apply nth_error_None in E. rewrite E.
    split; discriminate.
Qed.

Lemma guarded_valid {A : Type} (checked : bool) (map : FeaFi.Map)
    (index : FeaFi.IndexPair) (body : FeaFi.outcome A) :
  FeaFi.valid map index = true ->
  FeaFi.guarded checked map index body = body.
Proof.
  intros H. unfold FeaFi.guarded. destruct checked.
  - apply corrupt_index_checked in H. rewrite H. reflexivity.
  - reflexivity.
Qed.

Lemma valid_scan (map : FeaFi.Map) (index : FeaFi.IndexPair) :
  FeaFi.valid map index = true ->
  exists s, nth_error map (fst index) = Some s
            /\ snd index < List.length (FeaFi.peaks s).
Proof.
  unfold FeaFi.valid. destruct (nth_error map (fst index)) as [s|]; [|discriminate].
  intros H. apply Nat.ltb_lt in H. exists s. split; [reflexivity | exact H].
Qed.

Lemma size_minus_1_eq (j size : nat) :
  j < size ->
  (Z.of_nat j =? FeaFi.size_minus_1 size)%Z = (S j =? size)%nat.
Proof.
  intros H. unfold FeaFi.size_minus_1.
  destruct (size =? 0)%nat eqn:E0; [apply Nat.eqb_eq in E0; lia|].
  destruct (S j =? size)%nat eqn:E.
  - apply Nat.eqb_eq in E. apply Z.eqb_eq. lia.
  - apply Nat.eqb_neq in E. apply Z.eqb_neq. lia.
Qed.

(** X21: on an index of a peak of the map, a step that [getNextMz] returns
    leads to an index of a peak from which [getPrevMz] steps back to the
    first index, and a step that [getPrevMz] returns leads to an index of a
    peak from which [getNextMz] steps back; in a build that checks the
    preconditions and in one that does not. *)
Theorem X21_next_and_previous_peak (checked : bool) (map : FeaFi.Map)
    (index index' : FeaFi.IndexPair) :
  FeaFi.valid map index = true ->
  (FeaFi.getNextMz checked map index = FeaFi.Returns index' ->
   FeaFi.valid map index' = true
   /\ FeaFi.getPrevMz checked map index' = FeaFi.Returns index)
  /\ (FeaFi.getPrevMz checked map index = FeaFi.Returns index' ->
      FeaFi.valid map index' = true
      /\ FeaFi.getNextMz checked map index' = FeaFi.Returns index).
Proof.
  intros Hv. destruct (valid_scan map index Hv) as [s [Hs Hj]].
  destruct index as [i j]. cbn [fst snd] in *. split.
  - unfold FeaFi.getNextMz. rewrite (guarded_valid _ _ _ _ Hv).
    unfold FeaFi.scan. cbn [fst snd]. rewrite Hs. cbn [FeaFi.and_then].
    rewrite (size_minus_1_eq j _ Hj).
    destruct (S j =? List.length (FeaFi.peaks s))%nat eqn:E; [discriminate|].
    intros H. injection H as <-. apply Nat.eqb_neq in E.
    assert (Hv' : FeaFi.valid map (i, S j) = true).
    { unfold FeaFi.valid. cbn [fst snd]. rewrite Hs. apply Nat.ltb_lt. lia. }
    split; [exact Hv'|].
    unfold FeaFi.getPrevMz. rewrite (guarded_valid _ _ _ _ Hv').
    cbn [fst snd Nat.eqb]. replace (S j - 1) with j by lia. reflexivity.
  - unfold FeaFi.getPrevMz. rewrite (guarded_valid _ _ _ _ Hv). cbn [fst snd].
    destruct j as [|j]; cbn [Nat.eqb]; [discriminate|].
    intros H. injection H as <-.
    assert (Hj' : S j - 1 = j) by lia. rewrite ?Nat.sub_0_r, ?Hj'.
    assert (Hv' : FeaFi.valid map (i, j) = true).
    { unfold FeaFi.valid. cbn [fst snd]. rewrite Hs. apply Nat.ltb_lt. lia. }
    split; [exact Hv'|].
    unfold FeaFi.getNextMz. rewrite (guarded_valid _ _ _ _ Hv').
    unfold FeaFi.scan. cbn [fst snd]. rewrite Hs. cbn [FeaFi.and_then].
    assert (Hlt : j < List.length (FeaFi.peaks s)) by lia.
    rewrite (size_minus_1_eq j _ Hlt).
    destruct (S j =? List.length (FeaFi.peaks s))%nat eqn:E;
      [apply Nat.eqb_eq in E; lia | reflexivity].
Qed.

Lemma X21_next_and_previous_peak_witness :
  FeaFi.valid FeaFi.example_map (0, 2) = true
  /\ FeaFi.getNextMz true FeaFi.example_map (0, 1) = FeaFi.Returns (0, 2)
  /\ FeaFi.getPrevMz true FeaFi.example_map (0, 2) = FeaFi.Returns (0, 1).
Proof.
  destruct (proj1 (X21_next_and_previous_peak true FeaFi.example_map (0, 1) (0, 2)
                     eq_refl) eq_refl) as [H1 H2].
  split; [exact H1|]. split; [reflexivity | exact H2].
Defined.

(** ** FeaFiModule: stepping to the neighbouring scan *)

(** The binary search stays inside its range. *)
Lemma lower_bound_from_range (turns : nat) (l : list FeaFi.Peak) (mz : Qc) :
  forall first len,
    first + len <= List.length l ->
    first <= FeaFi.lower_bound_from turns l mz first len <= first + len.
Proof.
  induction turns as [|turns IH]; intros first len H; cbn [FeaFi.lower_bound_from];
    [lia|].
  destruct (len =? 0) eqn:E0; [lia|]. apply Nat.eqb_neq in E0.
  assert (Hhalf : Nat.div2 len < len) by (apply Nat.lt_div2; lia).
  remember (Nat.div2 len) as half eqn:Ehalf. clear Ehalf.
  destruct (nth_error l (first + half)) as [q|]; [|lia].
  destruct (FeaFi.Qcltb (FeaFi.getMZ q) mz).
  - specialize (IH (S (first + half)) (len - half - 1)). lia.
  - specialize (IH first half). lia.
Qed.

(** The search is over after at most [len] turns: more turns do not change
    its result. *)
Lemma lower_bound_from_turns (l : list FeaFi.Peak) (mz : Qc) :
  forall turns turns' first len,
    len <= turns -> len <= turns' ->
    FeaFi.lower_bound_from turns l mz first len
    = FeaFi.lower_bound_from turns' l mz first len.
Proof.
  induction turns as [|turns IH]; intros turns' first len H H'.
  - assert (len = 0) by lia. subst len. destruct turns'; reflexivity.
  - destruct turns' as [|turns'].
    + assert (len = 0) by lia. subst len. reflexivity.
    + cbn [FeaFi.lower_bound_from].
      destruct (len =? 0) eqn:E0; [reflexivity|]. apply Nat.eqb_neq in E0.
      assert (Hhalf : Nat.div2 len < len) by (apply Nat.lt_div2; lia).
      remember (Nat.div2 len) as half eqn:Ehalf. clear Ehalf.
      destruct (nth_error l (first + half)) as [q|]; [|reflexivity].
      destruct (FeaFi.Qcltb (FeaFi.getMZ q) mz); apply IH; lia.
Qed.

Lemma lower_bound_le (l : list FeaFi.Peak) (mz : Qc) :
  FeaFi.lower_bound l mz <= List.length l.
Proof.
  unfold FeaFi.lower_bound.
  pose proof (lower_bound_from_range (List.length l) l mz 0 (List.length l)). lia.
Qed.

Lemma peak_in_bounds (s : FeaFi.Spectrum) (j : nat) :
  j < List.length (FeaFi.peaks s) ->
  exists q, nth_error (FeaFi.peaks s) j = Some q /\ FeaFi.peak s j = FeaFi.Returns q.
Proof.
  intros H. unfold FeaFi.peak.
  destruct (nth_error (FeaFi.peaks s) j) as [q|] eqn:E.
  - exists q. split; reflexivity.
  - apply nth_error_None in E. lia.
Qed.

(** The search in the neighbouring scan returns an index of the scan, or 0
    when the scan has no peak. *)
Lemma nearest_in_returns (sub : Qc -> Qc -> Qc) (s : FeaFi.Spectrum) (mz : Qc) :
  exists j, FeaFi.nearest_in sub s mz = FeaFi.Returns j
            /\ (FeaFi.peaks s <> [] -> j < List.length (FeaFi.peaks s))
            /\ (FeaFi.peaks s = [] -> j = 0).
Proof.
  unfold FeaFi.nearest_in.
  pose proof (lower_bound_le (FeaFi.peaks s) mz) as Hle.
  set (it := FeaFi.lower_bound (FeaFi.peaks s) mz) in *.
  set (len := List.length (FeaFi.peaks s)) in *.
  assert (Hlen : FeaFi.peaks s = [] <-> len = 0).
  { unfold len. destruct (FeaFi.peaks s); simpl; split; congruence. }
  destruct (it =? len) eqn:E1.
  - destruct (0 <? len) eqn:E2.
    + apply Nat.ltb_lt in E2. exists (len - 1). split; [reflexivity|].
      split; [lia|]. intros H. apply Hlen in H. lia.
    + apply Nat.ltb_ge in E2. exists 0. split; [reflexivity|].
      split; [|reflexivity]. intros H. rewrite Hlen in H. lia.
  - apply Nat.eqb_neq in E1. destruct (it =? 0) eqn:E3.
    + exists 0. split; [reflexivity|]. split; [lia | reflexivity].
    + apply Nat.eqb_neq in E3.
      destruct (peak_in_bounds s it) as [right [_ Hr]]; [unfold len in *; lia|].
      destruct (peak_in_bounds s (it - 1)) as [left [_ Hl]]; [unfold len in *; lia|].
      rewrite Hr, Hl. cbn [FeaFi.and_then].
      destruct (FeaFi.Qcltb _ _).
      * exists it. split; [reflexivity|]. split; [lia|].
        intros H. apply Hlen in H. lia.
      * exists (it - 1). split; [reflexivity|]. split; [lia|].
        intros H. apply Hlen in H. lia.
Qed.

(** The outcomes of the two steps to a neighbouring scan. *)
Lemma neighbouring_scan (checked : bool) (map : FeaFi.Map)
    (sub : Qc -> Qc -> Qc) (index : FeaFi.IndexPair) :
  FeaFi.valid map index = true ->
  match nth_error map (S (fst index)) with
  | None => FeaFi.getNextRt checked map sub index
            = FeaFi.NoSuccessor "FeatureFinder::getNextRt" index
  | Some next =>
      exists j, FeaFi.getNextRt checked map sub index = FeaFi.Returns (S (fst index), j)
                /\ (FeaFi.peaks next <> [] -> FeaFi.valid map (S (fst index), j) = true)
                /\ (FeaFi.peaks next = [] ->
                    j = 0 /\ FeaFi.valid map (S (fst index), j) = false)
  end
  /\ match fst index with
     | 0 => FeaFi.getPrevRt checked map sub index
            = FeaFi.NoSuccessor "FeatureFinder::getPrevRt" index
     | S i' =>
         exists prev j,
           nth_error map i' = Some prev
           /\ FeaFi.getPrevRt checked map sub index = FeaFi.Returns (i', j)
           /\ (FeaFi.peaks prev <> [] -> FeaFi.valid map (i', j) = true)
           /\ (FeaFi.peaks prev = [] -> j = 0 /\ FeaFi.valid map (i', j) = false)
     end.
Proof.
  intros Hv. destruct (valid_scan map index Hv) as [s [Hs Hj]].
  destruct (peak_in_bounds s (snd index) Hj) as [q [_ Hq]].
  assert (Hi : fst index < List.length map) by (apply nth_error_Some; congruence).
  assert (Hvalid : forall (k j : nat) (t : FeaFi.Spectrum),
             nth_error map k = Some t ->
             (FeaFi.peaks t <> [] -> j < List.length (FeaFi.peaks t)) ->
             (FeaFi.peaks t = [] -> j = 0) ->
             (FeaFi.peaks t <> [] -> FeaFi.valid map (k, j) = true)
             /\ (FeaFi.peaks t = [] -> j = 0 /\ FeaFi.valid map (k, j) = false)).
  { intros k j t Ht H1 H2. unfold FeaFi.valid. cbn [fst snd]. rewrite Ht. split.
    - intros Hne. apply Nat.ltb_lt. apply H1. exact Hne.
    - intros He. split; [apply H2; exact He|]. rewrite He. apply Nat.ltb_ge.
      simpl. lia. }
  split.
  - unfold FeaFi.getNextRt. rewrite (guarded_valid _ _ _ _ Hv).
    rewrite (size_minus_1_eq _ _ Hi).
    destruct (nth_error map (S (fst index))) as [next|] eqn:En.
    + assert (Hn : S (fst index) < List.length map)
        by (apply nth_error_Some; congruence).
      destruct (S (fst index) =? List.length map) eqn:E;
        [apply Nat.eqb_eq in E; lia|].
      unfold FeaFi.scan. rewrite Hs, En. cbn [FeaFi.and_then]. rewrite Hq.
      cbn [FeaFi.and_then].
      destruct (nearest_in_returns sub next (FeaFi.getMZ q)) as [j [Hr [H1 H2]]].
      rewrite Hr. cbn [FeaFi.and_then]. exists j. split; [reflexivity|].
      apply (Hvalid _ _ _ En H1 H2).
    + apply nth_error_None in En.
      destruct (S (fst index) =? List.length map) eqn:E;
        [reflexivity | apply Nat.eqb_neq in E; lia].
  - unfold FeaFi.getPrevRt. rewrite (guarded_valid _ _ _ _ Hv).
    destruct (fst index <? List.length map) eqn:E1; [|apply Nat.ltb_ge in E1; lia].
    cbn [negb]. unfold FeaFi.scan. rewrite Hs. cbn [FeaFi.and_then].
    destruct (snd index <? List.length (FeaFi.peaks s)) eqn:E2;
      [|apply Nat.ltb_ge in E2; lia].
    cbn [negb]. destruct (fst index) as [|i'] eqn:Ei; cbn [Nat.eqb]; [reflexivity|].
    rewrite Hq. cbn [FeaFi.and_then]. replace (S i' - 1) with i' by lia.
    destruct (nth_error map i') as [prev|] eqn:Ep;
      [|apply nth_error_None in Ep; lia].
    cbn [FeaFi.and_then].
    destruct (nearest_in_returns sub prev (FeaFi.getMZ q)) as [j [Hr [H1 H2]]].
    rewrite Hr. cbn [FeaFi.and_then]. exists prev, j. split; [reflexivity|].
    split; [reflexivity|]. apply (Hvalid _ _ _ Ep H1 H2).
Qed.

(** X22: from an index of a peak of the map, [getNextRt] throws
    [NoSuccessor] in the last scan and returns an index in the next scan
    otherwise, and [getPrevRt] throws [NoSuccessor] in the first scan and
    returns an index in the scan before otherwise.  The index returned is
    the index of a peak if the neighbouring scan has a peak; if it has
    none, the index returned has the peak index 0 and is not the index of
    a peak. *)
Theorem X22_neighbouring_scan (checked : bool) (map : FeaFi.Map)
    (sub : Qc -> Qc -> Qc) (index : FeaFi.IndexPair) :
  FeaFi.valid map index = true ->
  match nth_error map (S (fst index)) with
  | None => FeaFi.getNextRt checked map sub index
            = FeaFi.NoSuccessor "FeatureFinder::getNextRt" index
  | Some next =>
      exists j, FeaFi.getNextRt checked map sub index = FeaFi.Returns (S (fst index), j)
                /\ (FeaFi.peaks next <> [] -> FeaFi.valid map (S (fst index), j) = true)
                /\ (FeaFi.peaks next = [] ->
                    j = 0 /\ FeaFi.valid map (S (fst index), j) = false)
  end
  /\ match fst index with
     | 0 => FeaFi.getPrevRt checked map sub index
            = FeaFi.NoSuccessor "FeatureFinder::getPrevRt" index
     | S i' =>
         exists prev j,
           nth_error map i' = Some prev
           /\ FeaFi.getPrevRt checked map sub index = FeaFi.Returns (i', j)
           /\ (FeaFi.peaks prev <> [] -> FeaFi.valid map (i', j) = true)
           /\ (FeaFi.peaks prev = [] -> j = 0 /\ FeaFi.valid map (i', j) = false)
     end.
Proof.
  apply neighbouring_scan.
Qed.

Lemma X22_neighbouring_scan_witness :
  exists j, FeaFi.getNextRt true FeaFi.example_map Qcminus (1, 1) = FeaFi.Returns (2, j)
            /\ FeaFi.valid FeaFi.example_map (2, j) = false.
Proof.
  destruct (proj1 (X22_neighbouring_scan true FeaFi.example_map Qcminus (1, 1) eq_refl))
    as [j [Hr [_ He]]].
  exists j. split; [exact Hr|]. apply He. reflexivity.
Defined.

(** ** FeaFiModule: the nearest peak of the neighbouring scan *)

(** Linear arithmetic on canonical rationals, through the rationals. *)
Ltac qc_lra :=
  unfold Qcle, Qclt, Qcminus, Qcplus, Qcopp, Q2Qc in *; cbn [this] in *;
  repeat rewrite Qred_correct in *; lra.

Lemma Qcltb_true (a b : Qc) : FeaFi.Qcltb a b = true -> (a < b)%Qc.
Proof.
  unfold FeaFi.Qcltb. destruct (a ?= b)%Qc eqn:E; try discriminate.
  intros _. apply Qclt_alt. exact E.
Qed.

Lemma Qcltb_false (a b : Qc) : FeaFi.Qcltb a b = false -> (b <= a)%Qc.
Proof.
  unfold FeaFi.Qcltb. destruct (a ?= b)%Qc eqn:E; try discriminate; intros _.
  - apply Qceq_alt in E. subst. apply Qcle_refl.
  - apply Qclt_le_weak. apply Qcgt_alt. exact E.
Qed.

Lemma sorted_nth_error (l : list FeaFi.Peak) (i j : nat) (a b : FeaFi.Peak) :
  FeaFi.sorted l -> i <= j ->
  nth_error l i = Some a -> nth_error l j = Some b ->
  (FeaFi.getMZ a <= FeaFi.getMZ b)%Qc.
Proof.
  revert i j. induction l as [|p l IH]; intros i j Hs Hij Ha Hb;
    [destruct i; discriminate|].
  destruct Hs as [Hall Hs]. destruct i as [|i], j as [|j];
    cbn [nth_error] in Ha, Hb; try lia.
  - injection Ha as <-. injection Hb as <-. apply Qcle_refl.
  - injection Ha as <-. rewrite Forall_forall in Hall. apply Hall.
    apply (nth_error_In _ _ Hb).
  - apply (IH i j); [exact Hs | lia | exact Ha | exact Hb].
Qed.

(** On a sorted scan the binary search ends at the partition point: the
    peaks in front of it are below [mz], the peaks from it on are not. *)
Lemma lower_bound_from_sorted (turns : nat) (l : list FeaFi.Peak) (mz : Qc) :
  FeaFi.sorted l ->
  forall first len,
    len <= turns ->
    first + len <= List.length l ->
    (forall j q, j < first -> nth_error l j = Some q -> (FeaFi.getMZ q < mz)%Qc) ->
    (forall j q, first + len <= j -> nth_error l j = Some q ->
                 (mz <= FeaFi.getMZ q)%Qc) ->
    let it := FeaFi.lower_bound_from turns l mz first len in
    (forall j q, j < it -> nth_error l j = Some q -> (FeaFi.getMZ q < mz)%Qc)
    /\ (forall j q, it <= j -> nth_error l j = Some q -> (mz <= FeaFi.getMZ q)%Qc).
Proof.
  intros Hs. induction turns as [|turns IH]; intros first len Hturns Hlen Hlow Hhigh;
    cbn [FeaFi.lower_bound_from]; cbn zeta.
  - split; [exact Hlow|]. intros j q Hj. apply Hhigh. lia.
  - destruct (len =? 0) eqn:E0.
    { apply Nat.eqb_eq in E0. split; [exact Hlow|]. intros j q Hj. apply Hhigh. lia. }
    apply Nat.eqb_neq in E0.
    assert (Hhalf : Nat.div2 len < len) by (apply Nat.lt_div2; lia).
    remember (Nat.div2 len) as half eqn:Ehalf. clear Ehalf.
    destruct (nth_error l (first + half)) as [mid|] eqn:Emid;
      [|apply nth_error_None in Emid; lia].
    destruct (FeaFi.Qcltb (FeaFi.getMZ mid) mz) eqn:E.
    + apply Qcltb_true in E.
      apply (IH (S (first + half)) (len - half - 1)); try lia.
      * intros j q Hj Hq.
        apply (Qcle_lt_trans _ (FeaFi.getMZ mid)); [|exact E].
        apply (sorted_nth_error l j (first + half)); try assumption. lia.
      * intros j q Hj. apply Hhigh. lia.
    + apply Qcltb_false in E.
      apply (IH first half); try lia; [exact Hlow|].
      intros j q Hj Hq.
      apply (Qcle_trans _ (FeaFi.getMZ mid)); [exact E|].
      apply (sorted_nth_error l (first + half) j); try assumption.
Qed.

Lemma lower_bound_before (l : list FeaFi.Peak) (mz : Qc) (j : nat) (q : FeaFi.Peak) :
  FeaFi.sorted l ->
  j < FeaFi.lower_bound l mz -> nth_error l j = Some q -> (FeaFi.getMZ q < mz)%Qc.
Proof.
  intros Hs. unfold FeaFi.lower_bound.
  apply (proj1 (lower_bound_from_sorted (List.length l) l mz Hs 0 (List.length l)
                  (Nat.le_refl _) (Nat.le_refl _)
                  ltac:(intros j' q' Hj'; lia)
                  ltac:(intros j' q' Hj' Hq';
                        assert (j' < List.length l)
                          by (apply nth_error_Some; congruence); lia))).
Qed.

Lemma lower_bound_at (l : list FeaFi.Peak) (mz : Qc) (q : FeaFi.Peak) :
  FeaFi.sorted l ->
  nth_error l (FeaFi.lower_bound l mz) = Some q -> (mz <= FeaFi.getMZ q)%Qc.
Proof.
  intros Hs. unfold FeaFi.lower_bound.
  apply (proj2 (lower_bound_from_sorted (List.length l) l mz Hs 0 (List.length l)
                  (Nat.le_refl _) (Nat.le_refl _)
                  ltac:(intros j' q' Hj'; lia)
                  ltac:(intros j' q' Hj' Hq';
                        assert (j' < List.length l)
                          by (apply nth_error_Some; congruence); lia))).
  apply Nat.le_refl.
Qed.

Lemma distance_below (sub : Qc -> Qc -> Qc) (a mz : Qc) :
  (a <= mz)%Qc -> FeaFi.distance sub a mz = sub mz a.
Proof.
  intros H. unfold FeaFi.distance. destruct (FeaFi.Qcltb a mz) eqn:E; [reflexivity|].
  apply Qcltb_false in E. assert (a = mz) by (apply Qcle_antisym; assumption).
  subst. reflexivity.
Qed.

Lemma distance_above (sub : Qc -> Qc -> Qc) (a mz : Qc) :
  (mz <= a)%Qc -> FeaFi.distance sub a mz = sub a mz.
Proof.
  intros H. unfold FeaFi.distance. destruct (FeaFi.Qcltb a mz) eqn:E; [|reflexivity].
  apply Qcltb_true in E. exfalso. apply (Qclt_not_le _ _ E). exact H.
Qed.

(** In a sorted scan the search returns a peak whose computed distance to
    [mz] is the least, when rounding keeps the order of the differences. *)
Lemma nearest_in_nearest (sub : Qc -> Qc -> Qc) (s : FeaFi.Spectrum) (mz : Qc)
    (j j' : nat) (q q' : FeaFi.Peak) :
  FeaFi.monotone sub ->
  FeaFi.sorted (FeaFi.peaks s) ->
  FeaFi.nearest_in sub s mz = FeaFi.Returns j ->
  nth_error (FeaFi.peaks s) j = Some q ->
  nth_error (FeaFi.peaks s) j' = Some q' ->
  (FeaFi.distance sub (FeaFi.getMZ q) mz
   <= FeaFi.distance sub (FeaFi.getMZ q') mz)%Qc.
Proof.
  intros Hmono Hs Hn Hq Hq'. unfold FeaFi.nearest_in in Hn.
  pose proof (lower_bound_le (FeaFi.peaks s) mz) as Hle.
  assert (Hj' : j' < List.length (FeaFi.peaks s)) by (apply nth_error_Some; congruence).
  pose proof (fun j q => lower_bound_before (FeaFi.peaks s) mz j q Hs) as Hbefore.
  pose proof (fun q => lower_bound_at (FeaFi.peaks s) mz q Hs) as Hat.
  set (it := FeaFi.lower_bound (FeaFi.peaks s) mz) in *.
  set (l := FeaFi.peaks s) in *.
  destruct (it =? List.length l) eqn:E1.
  - apply Nat.eqb_eq in E1.
    destruct (0 <? List.length l) eqn:E2; [|apply Nat.ltb_ge in E2; lia].
    injection Hn as <-.
    assert (H1 : (FeaFi.getMZ q < mz)%Qc) by (apply (Hbefore (List.length l - 1)); [lia | exact Hq]).
    assert (H2 : (FeaFi.getMZ q' < mz)%Qc) by (apply (Hbefore j'); [lia | exact Hq']).
    assert (H3 : (FeaFi.getMZ q' <= FeaFi.getMZ q)%Qc)
      by (apply (sorted_nth_error l j' (List.length l - 1)); [exact Hs | lia | exact Hq' | exact Hq]).
    rewrite !distance_below by (apply Qclt_le_weak; assumption).
    apply Hmono. clear - H3. qc_lra.
  - apply Nat.eqb_neq in E1. destruct (it =? 0) eqn:E3.
    + apply Nat.eqb_eq in E3. injection Hn as <-.
      assert (H1 : (mz <= FeaFi.getMZ q)%Qc) by (apply Hat; rewrite E3; exact Hq).
      assert (H3 : (FeaFi.getMZ q <= FeaFi.getMZ q')%Qc)
        by (apply (sorted_nth_error l 0 j'); [exact Hs | lia | exact Hq | exact Hq']).
      rewrite !distance_above by (try assumption; apply (Qcle_trans _ _ _ H1 H3)).
      apply Hmono. clear - H3. qc_lra.
    + apply Nat.eqb_neq in E3.
      destruct (peak_in_bounds s it) as [right [Hr Hr']]; [fold l; lia|].
      destruct (peak_in_bounds s (it - 1)) as [left [Hl Hl']]; [fold l; lia|].
      rewrite Hr', Hl' in Hn. cbn [FeaFi.and_then] in Hn. fold l in Hr, Hl.
      assert (Hright : (mz <= FeaFi.getMZ right)%Qc) by (apply Hat; exact Hr).
      assert (Hleft : (FeaFi.getMZ left < mz)%Qc)
        by (apply (Hbefore (it - 1)); [lia | exact Hl]).
      assert (Hfar : (FeaFi.getMZ q' <= FeaFi.getMZ left)%Qc
                     \/ (FeaFi.getMZ right <= FeaFi.getMZ q')%Qc).
      { destruct (Nat.lt_ge_cases j' it) as [Hlt | Hge].
        - left. apply (sorted_nth_error l j' (it - 1));
            [exact Hs | lia | exact Hq' | exact Hl].
        - right. apply (sorted_nth_error l it j');
            [exact Hs | lia | exact Hr | exact Hq']. }
      destruct (FeaFi.Qcltb (sub (FeaFi.getMZ right) mz) (sub mz (FeaFi.getMZ left)))
        eqn:E4; injection Hn as <-.
      * apply Qcltb_true in E4. rewrite Hr in Hq. injection Hq as <-.
        rewrite (distance_above _ _ _ Hright).
        destruct Hfar as [Hf | Hf].
        -- rewrite distance_below
             by (apply Qclt_le_weak; apply (Qcle_lt_trans _ _ _ Hf Hleft)).
           apply (Qcle_trans _ (sub mz (FeaFi.getMZ left)));
             [apply Qclt_le_weak; exact E4|].
           apply Hmono. clear - Hf. qc_lra.
        -- rewrite distance_above by (apply (Qcle_trans _ _ _ Hright Hf)).
           apply Hmono. clear - Hf. qc_lra.
      * apply Qcltb_false in E4. rewrite Hl in Hq. injection Hq as <-.
        rewrite (distance_below _ _ _ (Qclt_le_weak _ _ Hleft)).
        destruct Hfar as [Hf | Hf].
        -- rewrite distance_below
             by (apply Qclt_le_weak; apply (Qcle_lt_trans _ _ _ Hf Hleft)).
           apply Hmono. clear - Hf. qc_lra.
        -- rewrite distance_above by (apply (Qcle_trans _ _ _ Hright Hf)).
           apply (Qcle_trans _ (sub (FeaFi.getMZ right) mz)); [exact E4|].
           apply Hmono. clear - Hf. qc_lra.
Qed.

Lemma getNextRt_returns (checked : bool) (map : FeaFi.Map) (sub : Qc -> Qc -> Qc)
    (index index' : FeaFi.IndexPair) (s : FeaFi.Spectrum) (q : FeaFi.Peak) :
  FeaFi.valid map index = true ->
  nth_error map (fst index) = Some s ->
  nth_error (FeaFi.peaks s) (snd index) = Some q ->
  FeaFi.getNextRt checked map sub index = FeaFi.Returns index' ->
  fst index' = S (fst index)
  /\ exists next, nth_error map (fst index') = Some next
                  /\ FeaFi.nearest_in sub next (FeaFi.getMZ q) = FeaFi.Returns (snd index').
Proof.
  intros Hv Hs Hq. unfold FeaFi.getNextRt. rewrite (guarded_valid _ _ _ _ Hv).
  destruct (_ =? _)%Z; [discriminate|].
  unfold FeaFi.scan, FeaFi.peak. rewrite Hs. cbn [FeaFi.and_then]. rewrite Hq.
  cbn [FeaFi.and_then].
  destruct (nth_error map (S (fst index))) as [next|] eqn:En; [|discriminate].
  cbn [FeaFi.and_then].
  destruct (FeaFi.nearest_in sub next (FeaFi.getMZ q)) as [j| | |] eqn:Ej; try discriminate.
  cbn [FeaFi.and_then]. intros H. injection H as <-. cbn [fst snd].
  split; [reflexivity|]. exists next. split; [exact En | exact Ej].
Qed.

Lemma getPrevRt_returns (checked : bool) (map : FeaFi.Map) (sub : Qc -> Qc -> Qc)
    (index index' : FeaFi.IndexPair) (s : FeaFi.Spectrum) (q : FeaFi.Peak) :
  FeaFi.valid map index = true ->
  nth_error map (fst index) = Some s ->
  nth_error (FeaFi.peaks s) (snd index) = Some q ->
  FeaFi.getPrevRt checked map sub index = FeaFi.Returns index' ->
  S (fst index') = fst index
  /\ exists prev, nth_error map (fst index') = Some prev
                  /\ FeaFi.nearest_in sub prev (FeaFi.getMZ q) = FeaFi.Returns (snd index').
Proof.
  intros Hv Hs Hq. unfold FeaFi.getPrevRt. rewrite (guarded_valid _ _ _ _ Hv).
  destruct (valid_scan map index Hv) as [s' [Hs' Hj]].
  assert (s' = s) by congruence. subst s'.
  assert (Hi : fst index < List.length map) by (apply nth_error_Some; congruence).
  destruct (fst index <? List.length map) eqn:E1; [|apply Nat.ltb_ge in E1; lia].
  cbn [negb]. unfold FeaFi.scan, FeaFi.peak. rewrite Hs. cbn [FeaFi.and_then].
  destruct (snd index <? List.length (FeaFi.peaks s)) eqn:E2;
    [|apply Nat.ltb_ge in E2; lia].
  cbn [negb]. destruct (fst index) as [|i'] eqn:Ei; cbn [Nat.eqb]; [discriminate|].
  rewrite Hq. cbn [FeaFi.and_then]. replace (S i' - 1) with i' by lia.
  destruct (nth_error map i') as [prev|] eqn:Ep; [|discriminate].
  cbn [FeaFi.and_then].
  destruct (FeaFi.nearest_in sub prev (FeaFi.getMZ q)) as [j| | |] eqn:Ej; try discriminate.
  cbn [FeaFi.and_then]. intros H. injection H as <-. cbn [fst snd].
  split; [reflexivity|]. exists prev. split; [exact Ep | exact Ej].
Qed.

(** X23: when the neighbouring scan is sorted by m/z, the peak that
    [getNextRt] or [getPrevRt] returns is a peak of that scan whose distance
    in m/z to the peak the step starts from, as the code computes it, is the
    least: no peak of the neighbouring scan has a smaller one.  The code
    computes the distance as a difference in [double]; the rounding of the
    difference is a parameter [sub], of which the theorem needs that it
    keeps the order of the exact differences.  Two peaks whose distances
    differ by less than the rounding can be told apart by neither the code
    nor the theorem; for exact differences no peak is nearer. *)
Theorem X23_nearest_peak_of_the_neighbour (checked : bool) (map : FeaFi.Map)
    (sub : Qc -> Qc -> Qc)
    (index index' : FeaFi.IndexPair) (s neighbour : FeaFi.Spectrum)
    (q found other : FeaFi.Peak) :
  FeaFi.monotone sub ->
  FeaFi.valid map index = true ->
  nth_error map (fst index) = Some s ->
  nth_error (FeaFi.peaks s) (snd index) = Some q ->
  FeaFi.getNextRt checked map sub index = FeaFi.Returns index'
  \/ FeaFi.getPrevRt checked map sub index = FeaFi.Returns index' ->
  nth_error map (fst index') = Some neighbour ->
  FeaFi.sorted (FeaFi.peaks neighbour) ->
  nth_error (FeaFi.peaks neighbour) (snd index') = Some found ->
  In other (FeaFi.peaks neighbour) ->
  (FeaFi.distance sub (FeaFi.getMZ found) (FeaFi.getMZ q)
   <= FeaFi.distance sub (FeaFi.getMZ other) (FeaFi.getMZ q))%Qc.
Proof.
  intros Hmono Hv Hs Hq Hstep Hn Hsorted Hfound Hother.
  apply In_nth_error in Hother. destruct Hother as [j' Hj'].
  assert (Hnear : FeaFi.nearest_in sub neighbour (FeaFi.getMZ q)
                  = FeaFi.Returns (snd index')).
  { destruct Hstep as [Hstep | Hstep].
    - destruct (getNextRt_returns _ _ _ _ _ _ _ Hv Hs Hq Hstep) as [_ [next [Hn' Hr]]].
      congruence.
    - destruct (getPrevRt_returns _ _ _ _ _ _ _ Hv Hs Hq Hstep) as [_ [prev [Hn' Hr]]].
      congruence. }
  apply (nearest_in_nearest sub neighbour (FeaFi.getMZ q) (snd index') j' found other
           Hmono Hsorted Hnear Hfound Hj').
Qed.

Lemma Qcminus_monotone : FeaFi.monotone Qcminus.
Proof.
  intros a b c d H. exact H.
Qed.

Lemma X23_nearest_peak_of_the_neighbour_witness :
  let near := {| FeaFi.getMZ := dec 5008 10; FeaFi.getIntensity := dec 19 1 |} in
  let far := {| FeaFi.getMZ := dec 4999 10; FeaFi.getIntensity := dec 11 1 |} in
  let start := dec 502 1 in
  FeaFi.getNextRt true FeaFi.example_map Qcminus (0, 2) = FeaFi.Returns (1, 1)
  /\ (FeaFi.distance Qcminus (FeaFi.getMZ near) start
      <= FeaFi.distance Qcminus (FeaFi.getMZ far) start)%Qc.
Proof.
  intros near far start. split; [reflexivity|].
  apply (X23_nearest_peak_of_the_neighbour true FeaFi.example_map Qcminus (0, 2) (1, 1)
           (nth 0 FeaFi.example_map {| FeaFi.getRT := 0%Qc; FeaFi.peaks := [] |})
           (nth 1 FeaFi.example_map {| FeaFi.getRT := 0%Qc; FeaFi.peaks := [] |})
           {| FeaFi.getMZ := dec 502 1; FeaFi.getIntensity := dec 5 1 |}
           near far).
  - exact Qcminus_monotone.
  - reflexivity.
  - reflexivity.
  - reflexivity.
  - left. reflexivity.
  - reflexivity.
  - simpl. repeat split; try constructor.
    + intros H. vm_compute in H. discriminate H.
    + constructor.
  - reflexivity.
  - left. reflexivity.
Defined.

(** ** FeaFiModule: corrupt indices *)

Lemma guarded_corrupt {A : Type} (map : FeaFi.Map) (index : FeaFi.IndexPair)
    (body : FeaFi.outcome A) :
  FeaFi.valid map index = false ->
  exists message, FeaFi.guarded true map index body = FeaFi.Precondition message.
Proof.
  intros H. unfold FeaFi.guarded.
  destruct (FeaFi.corrupt_index true map index) as [message|] eqn:E.
  - exists message. reflexivity.
  - apply corrupt_index_checked in E. congruence.
Qed.

(** X24: in a build that checks the preconditions no accessor of the map
    reads outside a vector: on an index that is not the index of a peak each
    of them throws [Precondition], and on the index of a peak none of them
    leaves the map.  In a build without the checks [getPrevRt] still
    returns such an index as it is, without reading the map at it. *)
Theorem X24_corrupt_indices (map : FeaFi.Map) (sub : Qc -> Qc -> Qc)
    (index : FeaFi.IndexPair) :
  FeaFi.getPeakIntensity true map index <> FeaFi.OutOfRange
  /\ FeaFi.getPeakMz true map index <> FeaFi.OutOfRange
  /\ FeaFi.getPeakRt true map index <> FeaFi.OutOfRange
  /\ FeaFi.getNextMz true map index <> FeaFi.OutOfRange
  /\ FeaFi.getPrevMz true map index <> FeaFi.OutOfRange
  /\ FeaFi.getNextRt true map sub index <> FeaFi.OutOfRange
  /\ FeaFi.getPrevRt true map sub index <> FeaFi.OutOfRange
  /\ (FeaFi.valid map index = false ->
      FeaFi.getPrevRt false map sub index = FeaFi.Returns index).
Proof.
  destruct (FeaFi.valid map index) eqn:Hv.
  - destruct (valid_scan map index Hv) as [s [Hs Hj]].
    destruct (peak_in_bounds s (snd index) Hj) as [q [Hq Hq']].
    pose proof (neighbouring_scan true map sub index Hv) as [Hnext Hprev].
    unfold FeaFi.getPeakIntensity, FeaFi.getPeakMz, FeaFi.getPeakRt,
      FeaFi.getNextMz, FeaFi.getPrevMz.
    rewrite !(guarded_valid _ _ _ _ Hv). unfold FeaFi.scan. rewrite Hs.
    cbn [FeaFi.and_then]. rewrite Hq'. cbn [FeaFi.and_then].
    repeat split; try discriminate.
    + destruct (_ =? _)%Z; discriminate.
    + destruct (_ =? _)%nat; discriminate.
    + destruct (nth_error map (S (fst index))).
      * destruct Hnext as [j [-> _]]. discriminate.
      * rewrite Hnext. discriminate.
    + destruct (fst index).
      * rewrite Hprev. discriminate.
      * destruct Hprev as [prev [j [_ [-> _]]]]. discriminate.
  - unfold FeaFi.getPeakIntensity, FeaFi.getPeakMz, FeaFi.getPeakRt,
      FeaFi.getNextMz, FeaFi.getPrevMz, FeaFi.getNextRt.
    repeat split;
      try (match goal with
           | |- FeaFi.guarded true map index ?b <> _ =>
               destruct (guarded_corrupt map index b Hv) as [message ->]; discriminate
           end).
    + unfold FeaFi.getPrevRt at 1.
      match goal with
      | |- FeaFi.guarded true map index ?b <> _ =>
          destruct (guarded_corrupt map index b Hv) as [message ->]; discriminate
      end.
    + intros _. unfold FeaFi.getPrevRt, FeaFi.guarded. cbn [FeaFi.corrupt_index negb].
      unfold FeaFi.valid in Hv. unfold FeaFi.scan.
      destruct (fst index <? List.length map) eqn:E1; cbn [negb]; [|reflexivity].
      destruct (nth_error map (fst index)) as [s|] eqn:Es.
      * cbn [FeaFi.and_then]. rewrite Hv. reflexivity.
      * apply Nat.ltb_lt in E1. apply nth_error_None in Es. lia.
Qed.

(** ** PuritySate *)

Lemma first_ms1_from_outcome (rest : list MSSpectrum) (i : nat) :
  if existsb Purity.is_ms1 rest
  then exists k s,
         Purity.first_ms1_from rest i = Ok (i + k)
         /\ nth_error rest k = Some s /\ Purity.is_ms1 s = true
         /\ forall j t, j < k -> nth_error rest j = Some t -> Purity.is_ms1 t = false
  else Purity.first_ms1_from rest i = Undefined.
Proof.
  revert i. induction rest as [|s rest IH]; intros i; [reflexivity|].
  cbn [existsb Purity.first_ms1_from]. unfold Purity.is_ms1 at 1.
  destruct (getMSLevel s =? 1)%Z eqn:E; cbn [negb orb].
  - exists 0, s. rewrite Nat.add_0_r. split; [reflexivity|].
    split; [reflexivity|]. split; [exact E|]. intros j t Hj. lia.
  - specialize (IH (S i)). destruct (existsb Purity.is_ms1 rest).
    + destruct IH as [k [t [Hk [Ht [Hm Hbefore]]]]]. exists (S k), t.
      split; [rewrite Hk; f_equal; lia|]. split; [exact Ht|]. split; [exact Hm|].
      intros j u Hj Hu. destruct j as [|j]; cbn [nth_error] in Hu.
      * injection Hu as <-. exact E.
      * apply (Hbefore j u); [lia | exact Hu].
    + exact IH.
Qed.

(** X25: the constructor of [PuritySate] leaves [followUpScan] at the first
    spectrum of MS level 1, with [hasFollowUpScan] set, when the experiment
    has such a spectrum.  When it has none, and also when it is empty, the
    loop reads the level of the spectrum at [end()]: the test against
    [end()] comes after the read, so the constructor never returns with
    [hasFollowUpScan] unset. *)
Theorem X25_PuritySate_constructor (targetExp : MSExperiment) :
  if existsb Purity.is_ms1 targetExp
  then exists st s,
         Purity.construct targetExp = Ok st
         /\ Purity.hasFollowUpScan st = true
         /\ Purity.hasPrecursorScan st = false
         /\ Purity.precursorScan st = List.length targetExp
         /\ nth_error targetExp (Purity.followUpScan st) = Some s
         /\ Purity.is_ms1 s = true
         /\ forall j t, j < Purity.followUpScan st ->
                        nth_error targetExp j = Some t -> Purity.is_ms1 t = false
  else Purity.construct targetExp = Undefined.
Proof.
  unfold Purity.construct.
  pose proof (first_ms1_from_outcome targetExp 0) as H.
  destruct (existsb Purity.is_ms1 targetExp).
  - destruct H as [k [s [Hk [Hs [Hm Hbefore]]]]]. rewrite Hk. cbn [bind Nat.add].
    eexists. exists s. split; [reflexivity|].
    cbn [Purity.hasFollowUpScan Purity.hasPrecursorScan Purity.precursorScan
           Purity.followUpScan].
    assert (Hlt : k < List.length targetExp) by (apply nth_error_Some; congruence).
    split; [apply negb_true_iff; apply Nat.eqb_neq; lia|].
    repeat split; assumption.
  - rewrite H. reflexivity.
Qed.

Lemma skipn_nth_error {A : Type} (l : list A) (k : nat) (a : A) :
  nth_error l k = Some a -> skipn k l = a :: skipn (S k) l.
Proof.
  revert k. induction l as [|x l IH]; intros k H; [destruct k; discriminate|].
  destruct k as [|k]; cbn [nth_error] in H.
  - injection H as <-. reflexivity.
  - cbn [skipn]. apply IH. exact H.
Qed.

Lemma advance_from_outcome (rest : list MSSpectrum) (i k : nat) (rt : double) :
  Purity.advance_from rest i rt = Ok k -> i <= k < i + List.length rest.
Proof.
  revert i. induction rest as [|s rest IH]; intros i H; [discriminate|].
  cbn [Purity.advance_from] in H.
  destruct (negb (getMSLevel s =? 1)%Z && dlt (spectrum_RT s) rt).
  - apply IH in H. simpl. lia.
  - injection H as <-. simpl. lia.
Qed.

Lemma advance_at_ms1 (st : Purity.PuritySate) (s : MSSpectrum) (rt : double) :
  nth_error (Purity.baseExperiment st) (Purity.followUpScan st) = Some s ->
  Purity.is_ms1 s = true ->
  Purity.advanceFollowUp st rt
  = Ok {| Purity.precursorScan := Purity.precursorScan st;
          Purity.followUpScan := Purity.followUpScan st;
          Purity.hasPrecursorScan := Purity.hasPrecursorScan st;
          Purity.hasFollowUpScan := true;
          Purity.baseExperiment := Purity.baseExperiment st |}.
Proof.
  intros Hs Hm. unfold Purity.advanceFollowUp.
  rewrite (skipn_nth_error _ _ _ Hs). cbn [Purity.advance_from].
  unfold Purity.is_ms1 in Hm. rewrite Hm. cbn [negb andb bind].
  assert (Hlt : Purity.followUpScan st < List.length (Purity.baseExperiment st))
    by (apply nth_error_Some; congruence).
  replace (Purity.followUpScan st =? List.length (Purity.baseExperiment st))
    with false by (symmetry; apply Nat.eqb_neq; lia).
  reflexivity.
Qed.

(** The loop of [advanceFollowUp] stops at the first spectrum that it does
    not pass over, and reads the spectrum at [end()] when there is none. *)
Lemma advance_from_stops (rest : list MSSpectrum) (i : nat) (rt : double) :
  match Purity.advance_from rest i rt with
  | Ok j =>
      exists k s,
        j = i + k /\ nth_error rest k = Some s /\ Purity.passed_over rt s = false
        /\ forall m t, m < k -> nth_error rest m = Some t ->
                       Purity.passed_over rt t = true
  | Undefined => forallb (Purity.passed_over rt) rest = true
  | _ => False
  end.
Proof.
  revert i. induction rest as [|s rest IH]; intros i; [reflexivity|].
  cbn [Purity.advance_from forallb].
  change (negb (getMSLevel s =? 1)%Z && dlt (spectrum_RT s) rt)
    with (Purity.passed_over rt s).
  destruct (Purity.passed_over rt s) eqn:E.
  - specialize (IH (S i)).
    destruct (Purity.advance_from rest (S i) rt) as [j| | |]; try contradiction.
    + destruct IH as [k [t [Hj [Ht [Hstop Hbefore]]]]]. exists (S k), t.
      split; [lia|]. split; [exact Ht|]. split; [exact Hstop|].
      intros m u Hm Hu. destruct m as [|m]; cbn [nth_error] in Hu.
      * injection Hu as <-. exact E.
      * apply (Hbefore m u); [lia | exact Hu].
    + exact IH.
  - exists 0, s. split; [lia|]. split; [reflexivity|]. split; [exact E|].
    intros m t Hm. lia.
Qed.

(** X26: [advanceFollowUp] moves [followUpScan] forward over the spectra
    that are not of MS level 1 and have a retention time below [rt], and
    stops at the first spectrum that is of level 1 or whose retention time
    is not below [rt]; the other fields of the state are kept.  So it does
    not move from a spectrum of level 1: on the state the constructor
    returns it changes nothing, for every [rt].  Whenever it returns,
    [followUpScan] has not moved back, points to a spectrum of the
    experiment, and [hasFollowUpScan] is set.  When every spectrum from
    [followUpScan] on is passed over, the loop reads the spectrum at
    [end()]: the test against [end()] comes after the read. *)
Theorem X26_advanceFollowUp (rt : double) :
  (forall targetExp st,
     Purity.construct targetExp = Ok st -> Purity.advanceFollowUp st rt = Ok st)
  /\ (forall st st',
        Purity.advanceFollowUp st rt = Ok st' ->
        Purity.hasFollowUpScan st' = true
        /\ Purity.followUpScan st <= Purity.followUpScan st'
        /\ Purity.followUpScan st' < List.length (Purity.baseExperiment st))
  /\ (forall st st',
        Purity.advanceFollowUp st rt = Ok st' ->
        (exists s,
           nth_error (Purity.baseExperiment st) (Purity.followUpScan st') = Some s
           /\ Purity.passed_over rt s = false)
        /\ (forall m t,
              Purity.followUpScan st <= m < Purity.followUpScan st' ->
              nth_error (Purity.baseExperiment st) m = Some t ->
              Purity.passed_over rt t = true)
        /\ Purity.precursorScan st' = Purity.precursorScan st
        /\ Purity.hasPrecursorScan st' = Purity.hasPrecursorScan st
        /\ Purity.baseExperiment st' = Purity.baseExperiment st)
  /\ (forall st,
        (exists st', Purity.advanceFollowUp st rt = Ok st')
        \/ (Purity.advanceFollowUp st rt = Undefined
            /\ forall m t,
                 Purity.followUpScan st <= m ->
                 nth_error (Purity.baseExperiment st) m = Some t ->
                 Purity.passed_over rt t = true)).
Proof.
  split; [|split; [|split]].
  - intros targetExp st H. unfold Purity.construct in H.
    pose proof (first_ms1_from_outcome targetExp 0) as Ho.
    destruct (existsb Purity.is_ms1 targetExp); [|rewrite Ho in H; discriminate].
    destruct Ho as [k [s [Hk [Hs [Hm _]]]]]. rewrite Hk in H. cbn [bind Nat.add] in H.
    injection H as <-.
    assert (Hlt : k < List.length targetExp) by (apply nth_error_Some; congruence).
    rewrite (advance_at_ms1 _ s rt); cbn [Purity.baseExperiment Purity.followUpScan];
      [|exact Hs | exact Hm].
    cbn [Purity.precursorScan Purity.hasPrecursorScan].
    replace (k =? List.length targetExp) with false
      by (symmetry; apply Nat.eqb_neq; lia).
    reflexivity.
  - intros st st' H. unfold Purity.advanceFollowUp in H. inv_bind H.
    injection H as <-.
    cbn [Purity.hasFollowUpScan Purity.followUpScan].
    apply advance_from_outcome in Ha. rewrite length_skipn in Ha.
    split; [apply negb_true_iff; apply Nat.eqb_neq; lia|]. lia.
  - intros st st' H. unfold Purity.advanceFollowUp in H. inv_bind H.
    injection H as <-.
    cbn [Purity.followUpScan Purity.precursorScan Purity.hasPrecursorScan
         Purity.baseExperiment].
    pose proof (advance_from_stops
                  (skipn (Purity.followUpScan st) (Purity.baseExperiment st))
                  (Purity.followUpScan st) rt) as Hstop.
    rewrite Ha in Hstop. destruct Hstop as [k [s [-> [Hs [Hno Hbefore]]]]].
    rewrite nth_error_skipn in Hs.
    split; [exists s; split; assumption|]. split; [|repeat split].
    intros m t Hm Ht.
    apply (Hbefore (m - Purity.followUpScan st) t); [lia|].
    rewrite nth_error_skipn.
    replace (Purity.followUpScan st + (m - Purity.followUpScan st)) with m by lia.
    exact Ht.
  - intros st. unfold Purity.advanceFollowUp.
    pose proof (advance_from_stops
                  (skipn (Purity.followUpScan st) (Purity.baseExperiment st))
                  (Purity.followUpScan st) rt) as Hstop.
    destruct (Purity.advance_from _ _ rt) as [j| | |]; try contradiction.
    + left. eexists. reflexivity.
    + right. split; [reflexivity|]. intros m t Hm Ht.
      rewrite forallb_forall in Hstop. apply Hstop.
      apply (nth_error_In _ (m - Purity.followUpScan st)).
      rewrite nth_error_skipn.
      replace (Purity.followUpScan st + (m - Purity.followUpScan st)) with m by lia.
      exact Ht.
Qed.

Lemma X26_advanceFollowUp_witness :
  (exists st,
     Purity.construct Purity.example_run = Ok st
     /\ Purity.followUpScan st = 1
     /\ Purity.advanceFollowUp st (DoubleofZ 35) = Ok st)
  /\ (exists st',
        Purity.advanceFollowUp
          {| Purity.precursorScan := 1; Purity.followUpScan := 2;
             Purity.hasPrecursorScan := true; Purity.hasFollowUpScan := true;
             Purity.baseExperiment := Purity.example_run |} (DoubleofZ 35)
        = Ok st'
        /\ Purity.followUpScan st' = 3
        /\ exists s, nth_error Purity.example_run 3 = Some s
                     /\ Purity.passed_over (DoubleofZ 35) s = false).
Proof.
  split.
  - eexists. split; [reflexivity|]. split; [reflexivity|].
    apply (proj1 (X26_advanceFollowUp (DoubleofZ 35)) Purity.example_run).
    reflexivity.
  - eexists. split; [reflexivity|]. split; [reflexivity|].
    apply (proj1 (proj1 (proj2 (proj2 (X26_advanceFollowUp (DoubleofZ 35))))
                    {| Purity.precursorScan := 1; Purity.followUpScan := 2;
                       Purity.hasPrecursorScan := true;
                       Purity.hasFollowUpScan := true;
                       Purity.baseExperiment := Purity.example_run |} _ eq_refl)).
Defined.
